(** * strike-nwc-service: the NWC request pipeline

    A shallow embedding of the main module of the service, called
    [index.js] below (the request pipeline: decryption, sender check, method
    dispatch, the seven action handlers, response construction), and of the
    composition functions of [strike.js], followed by the properties of the
    pipeline.

    Conventions of the embedding.
    - JavaScript values are the inductive [JsValue].  A number is a finite
      binary64 value, held as the rational it denotes, or [NaN]; every
      arithmetic operation rounds its exact result to 53 significant bits,
      ties to even ([theNumberValueFor]).  The exponent range is not bounded:
      infinities (sums of 2^1024 and more), subnormal numbers and negative
      zero are outside the model.
    - Conversions are those of the language: converting an object to a
      string, a number or a property key throws when the object has an own
      [toString] that is not callable, as every property made by
      [JSON.parse] is.
    - An [async] function is a computation in the monad [M]: it threads the
      [World] (the two module-level variables and the observable effects) and
      either returns a value or throws.  One handler runs from its start to
      its end: the interleaving of handlers at [await] is outside the model,
      and statements about several requests say that they are handled in
      turn.
    - What the process does not own (the nip04 cipher, the event signer, the
      JSON codec, the BOLT11 decoder, the Strike HTTP API, the clock) is read
      from an [Env] record, one per processed request.
    - Of the log, the lines written by [logger.error] are recorded; the
      [info] and [debug] lines, which depend on [LOG_LEVEL], are not.
    - The messages of the errors raised by the runtime itself are those of
      V8; only their being different from the seven error codes matters. *)

From stdpp Require Import gmap strings list fin_maps pretty.
From Stdlib Require Import QArith Lqa Qround Qpower Qcanon.

Set Warnings "-register-all".
Local Open Scope string_scope.
Local Open Scope Z_scope.

(** ** JavaScript values *)

(** An object lists each of its properties once, as [JSON.parse] and object
    literals produce them. *)
Inductive JsValue : Type :=
| JUndefined
| JNull
| JBool (b : bool)
| JNum (q : Q)
| JNaN
| JStr (s : string)
| JArr (elems : list JsValue)
| JObj (props : list (string * JsValue))
| JNative (name : string).  (* a built-in object or function *)

(** Induction on a value that reaches the elements of its arrays. *)
Section JsValue_induction.

Variable P : JsValue -> Prop.
Hypothesis P_undefined : P JUndefined.
Hypothesis P_null : P JNull.
Hypothesis P_bool : forall b, P (JBool b).
Hypothesis P_num : forall q, P (JNum q).
Hypothesis P_nan : P JNaN.
Hypothesis P_str : forall s, P (JStr s).
Hypothesis P_arr : forall elems, Forall P elems -> P (JArr elems).
Hypothesis P_obj : forall props, P (JObj props).
Hypothesis P_native : forall name, P (JNative name).

Fixpoint JsValue_elements_ind (v : JsValue) : P v :=
  match v with
  | JUndefined => P_undefined
  | JNull => P_null
  | JBool b => P_bool b
  | JNum q => P_num q
  | JNaN => P_nan
  | JStr s => P_str s
  | JArr elems =>
      P_arr elems
        ((fix all (l : list JsValue) : Forall P l :=
            match l with
            | [] => @List.Forall_nil _ P
            | e :: rest => @List.Forall_cons _ P e rest (JsValue_elements_ind e) (all rest)
            end) elems)
  | JObj props => P_obj props
  | JNative name => P_native name
  end.

End JsValue_induction.

(** Thrown values.  Every [throw] of the program throws an [Error]; the
    runtime adds [TypeError] and [ReferenceError], and the libraries errors
    of classes of their own ([AxiosError], [SyntaxError], ...), which carry
    the name of their class. *)
Inductive Thrown : Type :=
| Error (msg : string)
| TypeError (msg : string)
| ReferenceError (msg : string)
| ErrorOfClass (className msg : string).

Definition message (err : Thrown) : string :=
  match err with
  | Error m | TypeError m | ReferenceError m | ErrorOfClass _ m => m
  end.

Definition errorName (err : Thrown) : string :=
  match err with
  | Error _ => "Error"
  | TypeError _ => "TypeError"
  | ReferenceError _ => "ReferenceError"
  | ErrorOfClass className _ => className
  end.

(** [`${err}`]: the name alone when the message is empty. *)
Definition errToString (err : Thrown) : string :=
  if String.eqb (message err) EmptyString then errorName err
  else errorName err +:+ ": " +:+ message err.

(** ToBoolean *)
Definition truthy (v : JsValue) : bool :=
  match v with
  | JUndefined | JNull | JNaN => false
  | JBool b => b
  | JNum q => negb (Qeq_bool q 0)
  | JStr s => negb (String.eqb s EmptyString)
  | JArr _ | JObj _ | JNative _ => true
  end.

Definition nullish (v : JsValue) : bool :=
  match v with
  | JUndefined | JNull => true
  | _ => false
  end.

(** [a || b] *)
Definition js_or (a b : JsValue) : JsValue := if truthy a then a else b.

(** [a ?? b] *)
Definition js_coalesce (a b : JsValue) : JsValue := if nullish a then b else a.

Fixpoint lookupProp (k : string) (props : list (string * JsValue)) : option JsValue :=
  match props with
  | [] => None
  | (k', v) :: rest => if String.eqb k k' then Some v else lookupProp k rest
  end.

Fixpoint setOwnProp (k : string) (x : JsValue) (props : list (string * JsValue))
  : list (string * JsValue) :=
  match props with
  | [] => [(k, x)]
  | (k', v) :: rest =>
      if String.eqb k k' then (k', x) :: rest else (k', v) :: setOwnProp k x rest
  end.

(** The own property [k] of [v], for the property names this program reads
    by name ([method], [params], [invoice], [metadata], ...): none of them
    is inherited from a prototype, so a value that is not an object of the
    JSON kind has none of them. *)
Definition ownProp (v : JsValue) (k : string) : JsValue :=
  match v with
  | JObj props => default JUndefined (lookupProp k props)
  | _ => JUndefined
  end.

Definition typeName (v : JsValue) : string :=
  match v with JNull => "null" | _ => "undefined" end.

(** [v.k]: reading a property of [undefined] or [null] throws. *)
Definition getProp (v : JsValue) (k : string) : Thrown + JsValue :=
  if nullish v
  then inl (TypeError ("Cannot read properties of " +:+ typeName v
                         +:+ " (reading '" +:+ k +:+ "')"))
  else inr (ownProp v k).

(** [v?.k] *)
Definition getPropOpt (v : JsValue) (k : string) : JsValue :=
  if nullish v then JUndefined else ownProp v k.

(** [base.k = x] in sloppy mode: on a primitive the assignment is dropped. *)
Definition setProp (base : JsValue) (k : string) (x : JsValue) : JsValue :=
  match base with
  | JObj props => JObj (setOwnProp k x props)
  | _ => base
  end.

(** ** Numbers *)

(** [floor (log2 x)], for a positive [x] *)
Definition ilog2 (x : Q) : Z :=
  let k := Z.log2 (Qnum x) - Z.log2 (Zpos (Qden x)) in
  if Qle_bool (2 ^ k) x then k else k - 1.

(** The nearest whole number, the even one of two that are equally near. *)
Definition roundHalfEven (x : Q) : Z :=
  let f := Qfloor x in
  match (x - inject_Z f ?= 1 # 2)%Q with
  | Lt => f
  | Eq => if Z.even f then f else f + 1
  | Gt => f + 1
  end.

(** A positive [x] rounded to 53 significant bits. *)
Definition roundPositive (x : Q) : Q :=
  let ulp := (2 ^ (ilog2 x - 52))%Q in
  (inject_Z (roundHalfEven (x / ulp)) * ulp)%Q.

(** The Number value for [x]: the binary64 value nearest to [x], the one
    with an even significand of two that are equally near; in lowest
    terms. *)
Definition theNumberValueFor (x : Q) : Q :=
  match Qnum x with
  | Z0 => 0%Q
  | Zpos _ => Qred (roundPositive x)
  | Zneg _ => Qred (- roundPositive (- x))
  end.

(** [a + b] and [a / b] on numbers *)
Definition Number_add (a b : Q) : Q := theNumberValueFor (a + b).
Definition Number_divide (a b : Q) : Q := theNumberValueFor (a / b).

(** [Math.round(x)]: the nearest whole number, the greater of two that are
    equally near. *)
Definition Math_round (x : Q) : Z := Qfloor (x + (1 # 2)).

(** ** Configuration ([constants.js]) *)

Record Config := {
  RELAY_URI : string;
  TOTAL_MAX_SEND_AMOUNT_IN_SATS : Q;
  NWC_CONNECTION_PUBKEY : string;
  NWC_CONNECTION_SECRET : string;
  NWC_SERVICE_PUBKEY : string;
  AUTHORIZED_PUBKEY : string;
  LOG_LEVEL : string;
  STRIKE_SOURCE_CURRENCY : JsValue;   (* imported by strike.js only *)
}.

(** ** The outside world, as seen while one request is processed *)

(** A section of a decoded BOLT11 invoice.  Only the value of the section
    named [amount] is read: the amount in millisatoshi, a string of decimal
    digits that the decoder computes from the digits of the invoice prefix;
    [value] is the number these digits write. *)
Record DecodedSection := { name : string; value : N }.

Record EventTemplate := {
  kind : Z;
  created_at : Z;
  content : string;
  tags : list (list string);
}.

(** The Strike HTTP API, one field per function of [strike.js] that wraps a
    single [axios] call: what the call resolves to, or what it throws. *)
Record StrikeApi := {
  createStrikePaymentQuote : JsValue -> Thrown + JsValue;
  executeStrikePaymentQuote : JsValue -> Thrown + JsValue;
  createInvoice : JsValue -> JsValue -> Thrown + (JsValue * JsValue * JsValue);
  createQuote : JsValue -> Thrown + (JsValue * JsValue);
  strike_lookupInvoice : JsValue -> Thrown + JsValue;
  strike_getExchangeRates : JsValue -> Thrown + JsValue;
  strike_getAccountDetails : Thrown + JsValue;
  strike_getBalance : Thrown + JsValue;
  strike_getTransactions : JsValue -> JsValue -> Thrown + JsValue;
}.

Record Env := {
  (* nostr-tools/nip04 *)
  decrypt : string -> string -> string -> Thrown + string;
  encrypt : string -> string -> string -> Thrown + string;
  (* nostr-tools/pure: the public key, id and signature added to the template *)
  finalizeEvent : EventTemplate -> string -> Thrown + (string * string * string);
  (* the runtime *)
  JSON_parse : string -> Thrown + JsValue;
  JSON_stringify : JsValue -> string;
  Date_now : Z;
  Number_toString : Q -> string;           (* the digits of a number *)
  StringToNumber : string -> option Q;     (* the number a string writes; None is NaN *)
  Function_toString : string -> string;    (* the source text of a built-in *)
  (* light-bolt11-decoder *)
  lightBolt11Decoder_decode : JsValue -> Thrown + list DecodedSection;
  (* Strike *)
  strike : StrikeApi;
}.

(** [Array.prototype.join], with the conversion of the elements as
    parameter: an element that is [undefined] or [null] gives the empty
    string. *)
Definition joinElements (toString : JsValue -> Thrown + string)
  : list JsValue -> Thrown + string :=
  fix join (elems : list JsValue) : Thrown + string :=
    match elems with
    | [] => inr EmptyString
    | e :: rest =>
        match (if nullish e then inr EmptyString else toString e) with
        | inl err => inl err
        | inr s =>
            match rest with
            | [] => inr s
            | _ :: _ =>
                match join rest with
                | inl err => inl err
                | inr t => inr (s +:+ "," +:+ t)
                end
            end
        end
    end.

(** ToString, which is also the conversion to a property key and the one
    of a template literal.  An object is converted by its [toString] method:
    the one every object inherits, unless the object has an own property of
    that name; such a property is data and cannot be called, the inherited
    [valueOf] returns the object itself, and the conversion throws.  An
    array is converted by [join]. *)
Fixpoint ToString (env : Env) (v : JsValue) {struct v} : Thrown + string :=
  match v with
  | JStr s => inr s
  | JUndefined => inr "undefined"
  | JNull => inr "null"
  | JBool true => inr "true"
  | JBool false => inr "false"
  | JNaN => inr "NaN"
  | JNum q => inr (Number_toString env q)
  | JNative name => inr (Function_toString env name)
  | JObj props =>
      match lookupProp "toString" props with
      | None => inr "[object Object]"
      | Some _ => inl (TypeError "Cannot convert object to primitive value")
      end
  | JArr elems => joinElements (ToString env) elems
  end.

(** ToNumber; [None] is NaN.  An object or an array is first converted to
    a primitive, which here is its string. *)
Definition ToNumber (env : Env) (v : JsValue) : Thrown + option Q :=
  match v with
  | JNum q => inr (Some q)
  | JUndefined | JNaN => inr None
  | JNull => inr (Some 0%Q)
  | JBool b => inr (Some (if b then 1%Q else 0%Q))
  | JStr s => inr (StringToNumber env s)
  | JArr _ | JObj _ | JNative _ =>
      match ToString env v with
      | inl err => inl err
      | inr s => inr (StringToNumber env s)
      end
  end.

(** [isNaN(v)] *)
Definition isNaN (env : Env) (v : JsValue) : Thrown + bool :=
  match ToNumber env v with
  | inl err => inl err
  | inr None => inr true
  | inr (Some _) => inr false
  end.

(** [v < c] and [v > c] against a number literal: false when [v] is NaN. *)
Definition js_lt (env : Env) (v : JsValue) (c : Q) : Thrown + bool :=
  match ToNumber env v with
  | inl err => inl err
  | inr (Some q) => inr (negb (Qle_bool c q))
  | inr None => inr false
  end.

Definition js_gt (env : Env) (v : JsValue) (c : Q) : Thrown + bool :=
  match ToNumber env v with
  | inl err => inl err
  | inr (Some q) => inr (negb (Qle_bool q c))
  | inr None => inr false
  end.

(** [a || b] on conditions: [b] is evaluated only when [a] is false. *)
Definition orElse (a b : Thrown + bool) : Thrown + bool :=
  match a with
  | inl err => inl err
  | inr true => inr true
  | inr false => b
  end.

(** ** The process state and its observable effects *)

Inductive StrikeCall : Type :=
| CreateStrikePaymentQuote (invoice : JsValue)
| ExecuteStrikePaymentQuote (paymentQuoteId : JsValue)
| CreateInvoice (amountInMillisats description : JsValue)
| CreateQuote (invoiceId : JsValue)
| LookupInvoice (invoiceId : JsValue)
| GetExchangeRates (currency : JsValue)
| GetAccountDetails
| GetBalance
| GetTransactions (limit offset : JsValue).

(** A signed response event, as handed to [relay.publish]. *)
Record NwcResponse := {
  template : EventTemplate;
  response_pubkey : string;
  response_id : string;
  response_sig : string;
}.

Record World := {
  (* let totalAmountSentInSats = 0 *)
  totalAmountSentInSats : Q;
  (* const cachedInvoiceResults = {}: own properties, and the prototype when
     it is no longer Object.prototype *)
  cachedInvoiceResults : gmap string JsValue;
  cachedInvoiceResults_proto : option JsValue;
  (* effects, oldest first *)
  strikeCalls : list StrikeCall;
  errorLog : list string;
  published : list NwcResponse;
}.

Definition initialWorld : World := {|
  totalAmountSentInSats := 0%Q;
  cachedInvoiceResults := ∅;
  cachedInvoiceResults_proto := None;
  strikeCalls := [];
  errorLog := [];
  published := [];
|}.

(** ** The monad of asynchronous functions *)

Definition M (A : Type) : Type := World -> (Thrown + A) * World.

#[global] Instance M_ret : MRet M := fun A (a : A) (w : World) => (inr a, w).

#[global] Instance M_bind : MBind M := fun A B (f : A -> M B) (m : M A) (w : World) =>
  match m w with
  | (inl err, w') => (inl err, w')
  | (inr a, w') => f a w'
  end.

Definition throw {A : Type} (err : Thrown) : M A := fun w => (inl err, w).

(** [try { body } catch (err) { handler err }] *)
Definition try_catch {A : Type} (body : M A) (handler : Thrown -> M A) : M A :=
  fun w =>
    match body w with
    | (inl err, w') => handler err w'
    | (inr a, w') => (inr a, w')
    end.

(** A value that is computed without effect, or thrown. *)
Definition liftM {A : Type} (r : Thrown + A) : M A := fun w => (r, w).

Definition getWorld : M World := fun w => (inr w, w).

Definition logger_error (line : string) : M unit :=
  fun w => (inr tt,
            {| totalAmountSentInSats := totalAmountSentInSats w;
               cachedInvoiceResults := cachedInvoiceResults w;
               cachedInvoiceResults_proto := cachedInvoiceResults_proto w;
               strikeCalls := strikeCalls w;
               errorLog := errorLog w ++ [line];
               published := published w |}).

(** An [axios] round trip to Strike: recorded, then resolved by [env]. *)
Definition callStrike {A : Type} (c : StrikeCall) (r : Thrown + A) : M A :=
  fun w => (r,
            {| totalAmountSentInSats := totalAmountSentInSats w;
               cachedInvoiceResults := cachedInvoiceResults w;
               cachedInvoiceResults_proto := cachedInvoiceResults_proto w;
               strikeCalls := strikeCalls w ++ [c];
               errorLog := errorLog w;
               published := published w |}).

Definition set_totalAmountSentInSats (q : Q) : M unit :=
  fun w => (inr tt,
            {| totalAmountSentInSats := q;
               cachedInvoiceResults := cachedInvoiceResults w;
               cachedInvoiceResults_proto := cachedInvoiceResults_proto w;
               strikeCalls := strikeCalls w;
               errorLog := errorLog w;
               published := published w |}).

Definition relay_publish (ev : NwcResponse) : M unit :=
  fun w => (inr tt,
            {| totalAmountSentInSats := totalAmountSentInSats w;
               cachedInvoiceResults := cachedInvoiceResults w;
               cachedInvoiceResults_proto := cachedInvoiceResults_proto w;
               strikeCalls := strikeCalls w;
               errorLog := errorLog w;
               published := published w ++ [ev] |}).

Definition cache_store (own : gmap string JsValue) (proto : option JsValue) : M unit :=
  fun w => (inr tt,
            {| totalAmountSentInSats := totalAmountSentInSats w;
               cachedInvoiceResults := own;
               cachedInvoiceResults_proto := proto;
               strikeCalls := strikeCalls w;
               errorLog := errorLog w;
               published := published w |}).

(** ** Error codes *)

Definition UNAUTHORIZED : string := "UNAUTHORIZED".
Definition NOT_IMPLEMENTED : string := "NOT_IMPLEMENTED".
Definition QUOTA_EXCEEDED : string := "QUOTA_EXCEEDED".
Definition PAYMENT_FAILED : string := "PAYMENT_FAILED".
Definition INTERNAL : string := "INTERNAL".
Definition NOT_FOUND : string := "NOT_FOUND".
Definition INVALID_PARAMS : string := "INVALID_PARAMS".

(** The closed taxonomy of the specification. *)
Definition errorTaxonomy : list string :=
  [UNAUTHORIZED; NOT_IMPLEMENTED; QUOTA_EXCEEDED; PAYMENT_FAILED;
   NOT_FOUND; INVALID_PARAMS; INTERNAL].

(** nostr-tools/kinds *)
Definition NWCWalletRequest : Z := 23194.
Definition NWCWalletResponse : Z := 23195.

(** An event delivered by the relay subscription. *)
Record NostrEvent := {
  event_id : string;
  event_pubkey : string;
  event_content : string;
}.

(** ** The prototype chain of [cachedInvoiceResults] *)

(** The properties every plain object inherits from [Object.prototype]. *)
Definition objectPrototypeNames : list string :=
  ["constructor"; "__defineGetter__"; "__defineSetter__"; "hasOwnProperty";
   "__lookupGetter__"; "__lookupSetter__"; "isPrototypeOf";
   "propertyIsEnumerable"; "toString"; "valueOf"; "toLocaleString"].

Definition objectPrototypeGet (key : string) : JsValue :=
  if existsb (String.eqb key) objectPrototypeNames
  then JNative ("Object.prototype." +:+ key)
  else JUndefined.

(** [cachedInvoiceResults[key]]: the own property, else the one inherited
    along the prototype chain; [__proto__] reads the prototype itself. *)
Definition cache_get (w : World) (key : string) : JsValue :=
  match cachedInvoiceResults w !! key with
  | Some v => v
  | None =>
      match cachedInvoiceResults_proto w with
      | None =>
          if String.eqb key "__proto__" then JNative "Object.prototype"
          else objectPrototypeGet key
      | Some proto =>
          if String.eqb key "__proto__" then proto
          else match proto with
               | JObj props => default (objectPrototypeGet key) (lookupProp key props)
               | _ => objectPrototypeGet key
               end
      end
  end.

(** [cachedInvoiceResults[key] = x]: an own data property, except that
    assigning an object to [__proto__] replaces the prototype. *)
Definition cache_set (key : string) (x : JsValue) : M unit :=
  w ← getWorld;
  if String.eqb key "__proto__"
  then match x with
       | JObj _ => cache_store (cachedInvoiceResults w) (Some x)
       | _ => mret tt
       end
  else cache_store (<[key := x]> (cachedInvoiceResults w)) (cachedInvoiceResults_proto w).

(** The object read by [cache_get w key] has been mutated in place into
    [x]: the place that holds it now holds [x]. *)
Definition cache_mutated (key : string) (x : JsValue) : M unit :=
  w ← getWorld;
  match cachedInvoiceResults w !! key with
  | Some _ => cache_store (<[key := x]> (cachedInvoiceResults w)) (cachedInvoiceResults_proto w)
  | None =>
      match cachedInvoiceResults_proto w with
      | Some (JObj props) =>
          if String.eqb key "__proto__" then cache_store (cachedInvoiceResults w) (Some x)
          else match lookupProp key props with
               | Some _ => cache_store (cachedInvoiceResults w)
                             (Some (JObj (setOwnProp key x props)))
               | None => mret tt
               end
      | _ => mret tt
      end
  end.

(** [a > b] on numbers *)
Definition Qgtb (a b : Q) : bool := negb (Qle_bool a b).

(** [const { k, ... } = v]: destructuring [undefined] or [null] throws. *)
Definition destructure (v : JsValue) (k source : string) : Thrown + JsValue :=
  if nullish v
  then inl (TypeError ("Cannot destructure property '" +:+ k +:+ "' of '" +:+ source
                         +:+ "' as it is " +:+ typeName v +:+ "."))
  else inr v.

Section Pipeline.

Variable cfg : Config.
Variable env : Env.

(** ** [strike.js] *)

Definition payInvoice (invoice : JsValue) : M JsValue :=
  strikePaymentQuoteId ←
    callStrike (CreateStrikePaymentQuote invoice)
               (createStrikePaymentQuote (strike env) invoice);
  callStrike (ExecuteStrikePaymentQuote strikePaymentQuoteId)
             (executeStrikePaymentQuote (strike env) strikePaymentQuoteId).

(** Returns [{ invoiceId, invoice, state, createdAt, expiresAt }]. *)
Definition makeInvoice (amountInMillisats description : JsValue)
  : M (JsValue * JsValue * JsValue * JsValue * JsValue) :=
  '(invoiceId, state, createdAt) ←
    callStrike (CreateInvoice amountInMillisats description)
               (createInvoice (strike env) amountInMillisats description);
  '(invoice, expiresAt) ←
    callStrike (CreateQuote invoiceId) (createQuote (strike env) invoiceId);
  mret (invoiceId, invoice, state, createdAt, expiresAt).

Definition lookupInvoice (invoiceId : JsValue) : M JsValue :=
  callStrike (LookupInvoice invoiceId) (strike_lookupInvoice (strike env) invoiceId).

(** [getExchangeRates = async (currency = STRIKE_SOURCE_CURRENCY) => ...] *)
Definition getExchangeRates (currency : JsValue) : M JsValue :=
  let currency :=
    match currency with JUndefined => STRIKE_SOURCE_CURRENCY cfg | _ => currency end in
  callStrike (GetExchangeRates currency) (strike_getExchangeRates (strike env) currency).

Definition getAccountDetails : M JsValue :=
  callStrike GetAccountDetails (strike_getAccountDetails (strike env)).

Definition getBalance : M JsValue :=
  callStrike GetBalance (strike_getBalance (strike env)).

(** [getTransactions = async (limit = 10, offset = 0) => ...] *)
Definition getTransactions (limit offset : JsValue) : M JsValue :=
  let limit := match limit with JUndefined => JNum 10 | _ => limit end in
  let offset := match offset with JUndefined => JNum 0 | _ => offset end in
  callStrike (GetTransactions limit offset)
             (strike_getTransactions (strike env) limit offset).

(** ** [index.js] *)

Definition decryptNwcRequestContent (eventContent : string) : M JsValue :=
  try_catch
    (plaintext ← liftM (decrypt env (NWC_CONNECTION_SECRET cfg)
                                (NWC_SERVICE_PUBKEY cfg) eventContent);
     liftM (JSON_parse env plaintext))
    (fun err =>
       logger_error ("Error decrypting NWC request: " +:+ errToString err);;
       throw (Error UNAUTHORIZED)).

(** The template literal of the [NOT_IMPLEMENTED] case converts
    [requestMethod] to a string. *)
Definition getErrorMessage (requestMethod : JsValue) (errorCode : string)
  : Thrown + string :=
  if String.eqb errorCode UNAUTHORIZED then
    inr "Unable to decrypt NWC request content or unauthorized sender."
  else if String.eqb errorCode NOT_IMPLEMENTED then
    match ToString env requestMethod with
    | inl err => inl err
    | inr method => inr (method +:+ " not currently supported.")
    end
  else if String.eqb errorCode QUOTA_EXCEEDED then
    inr ("Payment would exceed max quota of "
           +:+ Number_toString env (TOTAL_MAX_SEND_AMOUNT_IN_SATS cfg) +:+ ".")
  else if String.eqb errorCode PAYMENT_FAILED then
    inr "Unable to complete payment."
  else if String.eqb errorCode NOT_FOUND then
    inr "Unable to find invoice."
  else if String.eqb errorCode INVALID_PARAMS then
    inr "Invalid parameters provided for the request."
  else
    inr "Something unexpected happened.".

(** The [content] object of [makeNwcResponseEvent]; [errorCode] is [null]
    ([None]) or a string, and the empty string is falsy. *)
Definition responseContent (requestMethod result : JsValue) (errorCode : option string)
  : Thrown + JsValue :=
  match errorCode with
  | Some code =>
      if truthy (JStr code)
      then
        match getErrorMessage requestMethod code with
        | inl err => inl err
        | inr message =>
            inr (JObj [("result_type", requestMethod);
                       ("error", JObj [("code", JStr code); ("message", JStr message)])])
        end
      else inr (JObj [("result_type", requestMethod); ("result", result)])
  | None => inr (JObj [("result_type", requestMethod); ("result", result)])
  end.

(** [Math.round(Date.now() / 1000)] *)
Definition nowInSeconds : Z :=
  Math_round (Number_divide (inject_Z (Date_now env)) 1000).

Definition makeNwcResponseEvent (eventId : string) (requestMethod result : JsValue)
    (errorCode : option string) : M NwcResponse :=
  content ← liftM (responseContent requestMethod result errorCode);
  encryptedContent ←
    liftM (encrypt env (NWC_CONNECTION_SECRET cfg) (NWC_SERVICE_PUBKEY cfg)
                   (JSON_stringify env content));
  let eventTemplate :=
    {| kind := NWCWalletResponse;
       created_at := nowInSeconds;
       content := encryptedContent;
       tags := [["p"; AUTHORIZED_PUBKEY cfg]; ["e"; eventId]] |} in
  '(pk, id, sig) ← liftM (finalizeEvent env eventTemplate (NWC_CONNECTION_SECRET cfg));
  mret {| template := eventTemplate;
          response_pubkey := pk; response_id := id; response_sig := sig |}.

(** The division converts the digits of [value] to a number, then
    divides. *)
Definition extractAmountInSats (invoice : JsValue) : Thrown + Q :=
  match lightBolt11Decoder_decode env invoice with
  | inl err => inl err
  | inr sections =>
      match List.find (fun s => String.eqb (name s) "amount") sections with
      | Some s =>
          inr (Number_divide (theNumberValueFor (inject_Z (Z.of_N (value s)))) 1000)
      | None => inl (TypeError "Cannot read properties of undefined (reading 'value')")
      end
  end.

Definition handlePayInvoiceRequest (nwcRequestContent : JsValue) : M JsValue :=
  params ← liftM (getProp nwcRequestContent "params");
  let invoice := getPropOpt params "invoice" in
  amountInSats ←
    (if truthy invoice then liftM (extractAmountInSats invoice) else mret 0%Q);
  w ← getWorld;
  if Qgtb (Number_add (totalAmountSentInSats w) amountInSats)
          (TOTAL_MAX_SEND_AMOUNT_IN_SATS cfg)
  then throw (Error "QUOTA_EXCEEDED")
  else
    try_catch
      (payInvoice invoice;;
       w ← getWorld;
       set_totalAmountSentInSats (Number_add (totalAmountSentInSats w) amountInSats);;
       mret (JObj [("preimage", JStr "gfy")]))
      (fun err =>
         logger_error ("Error making payment: " +:+ errToString err);;
         throw (Error PAYMENT_FAILED)).

Definition handleMakeInvoiceRequest (nwcRequestContent : JsValue) : M JsValue :=
  params ← liftM (getProp nwcRequestContent "params");
  liftM (destructure params "amount" "nwcRequestContent.params");;
  let amount := ownProp params "amount" in
  let description := ownProp params "description" in
  try_catch
    ('(invoiceId, invoice, state, createdAt, expiresAt) ← makeInvoice amount description;
     let result :=
       JObj [("type", JStr "incoming");
             ("invoice", invoice);
             ("description", description);
             ("amount", amount);
             ("created_at", createdAt);
             ("expires_at", expiresAt);
             ("metadata", JObj [("state", state); ("invoice_id", invoiceId)])] in
     (* cache result for lookup_invoice requests *)
     key ← liftM (ToString env invoice);
     cache_set key result;;
     mret result)
    (fun err =>
       logger_error ("Error making invoice: " +:+ errToString err);;
       throw (Error INTERNAL)).

Definition handleLookupInvoiceRequest (nwcRequestContent : JsValue) : M JsValue :=
  params ← liftM (getProp nwcRequestContent "params");
  liftM (destructure params "invoice" "nwcRequestContent.params");;
  let invoice := ownProp params "invoice" in
  key ← liftM (ToString env invoice);
  w ← getWorld;
  let cachedInvoiceResult := cache_get w key in
  if negb (truthy cachedInvoiceResult)
  then throw (Error NOT_FOUND)
  else
    try_catch
      (metadata ← liftM (getProp cachedInvoiceResult "metadata");
       invoiceId ← liftM (getProp metadata "invoice_id");
       state ← lookupInvoice invoiceId;
       let cachedInvoiceResult :=
         setProp cachedInvoiceResult "metadata" (setProp metadata "state" state) in
       cache_mutated key cachedInvoiceResult;;
       mret cachedInvoiceResult)
      (fun err =>
         logger_error ("Error looking up invoice: " +:+ errToString err);;
         throw (Error INTERNAL)).

(** [STRIKE_SOURCE_CURRENCY] is not among the constants [index.js] imports:
    evaluating it throws a [ReferenceError].  The template literal handed to
    [logger.debug] is evaluated whatever the log level. *)
Definition handleGetExchangeRatesRequest (nwcRequestContent : JsValue) : M JsValue :=
  try_catch
    (params ← liftM (getProp nwcRequestContent "params");
     currency ←
       (let currency := getPropOpt params "currency" in
        if truthy currency then mret currency
        else throw (ReferenceError "STRIKE_SOURCE_CURRENCY is not defined"));
     liftM (ToString env currency);;
     getExchangeRates currency)
    (fun err =>
       logger_error ("Error getting exchange rates: " +:+ errToString err);;
       throw (Error INTERNAL)).

Definition handleGetAccountDetailsRequest : M JsValue :=
  try_catch
    getAccountDetails
    (fun err =>
       logger_error ("Error getting account details: " +:+ errToString err);;
       throw (Error INTERNAL)).

Definition handleGetBalanceRequest : M JsValue :=
  try_catch
    getBalance
    (fun err =>
       logger_error ("Error getting balance: " +:+ errToString err);;
       throw (Error INTERNAL)).

Definition handleGetTransactionsRequest (nwcRequestContent : JsValue) : M JsValue :=
  try_catch
    (params ← liftM (getProp nwcRequestContent "params");
     let limit := js_or (getPropOpt params "limit") (JNum 10) in
     let offset := js_or (getPropOpt params "offset") (JNum 0) in
     invalid ←
       liftM (orElse (isNaN env limit)
             (orElse (isNaN env offset)
             (orElse (js_lt env limit 1)
             (orElse (js_gt env limit 100)
                     (js_lt env offset 0)))));
     if invalid : bool then throw (Error INVALID_PARAMS)
     else
       liftM (ToString env limit);;
       liftM (ToString env offset);;
       getTransactions limit offset)
    (fun err =>
       if String.eqb (message err) INVALID_PARAMS
       then throw err
       else
         logger_error ("Error getting transactions: " +:+ errToString err);;
         throw (Error INTERNAL)).

(** [v === "literal"] *)
Definition strictEqStr (v : JsValue) (literal : string) : bool :=
  match v with
  | JStr s => String.eqb s literal
  | _ => false
  end.

(** The [switch] of [handleNwcRequest]: the new values of [errorCode] and
    [result]. *)
Definition dispatch (nwcRequestContent : JsValue) : M (option string * JsValue) :=
  method ← liftM (getProp nwcRequestContent "method");
  if strictEqStr method "pay_invoice" then
    result ← handlePayInvoiceRequest nwcRequestContent; mret (None, result)
  else if strictEqStr method "make_invoice" then
    result ← handleMakeInvoiceRequest nwcRequestContent; mret (None, result)
  else if strictEqStr method "lookup_invoice" then
    result ← handleLookupInvoiceRequest nwcRequestContent; mret (None, result)
  else if strictEqStr method "get_exchange_rates" then
    result ← handleGetExchangeRatesRequest nwcRequestContent; mret (None, result)
  else if strictEqStr method "get_account_details" then
    result ← handleGetAccountDetailsRequest; mret (None, result)
  else if strictEqStr method "get_balance" then
    result ← handleGetBalanceRequest; mret (None, result)
  else if strictEqStr method "get_transactions" then
    result ← handleGetTransactionsRequest nwcRequestContent; mret (None, result)
  else
    mret (Some NOT_IMPLEMENTED, JNull).

(** The local variables of [handleNwcRequest] when its first [try] block
    is left. *)
Record Locals := {
  errorCode : option string;
  result : JsValue;
  nwcRequestContent : JsValue;
}.

(** The first [try] block of [handleNwcRequest] and its [catch]. *)
Definition processRequest (event : NostrEvent) (w : World) : Locals * World :=
  match decryptNwcRequestContent (event_content event) w with
  | (inl err, w1) =>
      ({| errorCode := Some (message err); result := JNull;
          nwcRequestContent := JNull |}, w1)
  | (inr content, w1) =>
      let guarded : M (option string * JsValue) :=
        (* Validate the request sender *)
        (if negb (String.eqb (event_pubkey event) (NWC_CONNECTION_PUBKEY cfg))
         then
           logger_error ("Unauthorized request from pubkey: " +:+ event_pubkey event);;
           throw (Error UNAUTHORIZED)
         else mret tt);;
        dispatch content in
      match guarded w1 with
      | (inl err, w2) =>
          ({| errorCode := Some (message err); result := JNull;
              nwcRequestContent := content |}, w2)
      | (inr (code, res), w2) =>
          ({| errorCode := code; result := res; nwcRequestContent := content |}, w2)
      end
  end.

(** [nwcRequestContent?.method ?? "unknown"] *)
Definition requestMethodOf (content : JsValue) : JsValue :=
  js_coalesce (getPropOpt content "method") (JStr "unknown").

(** The second [try] block of [handleNwcRequest] and its [catch]. *)
Definition respond (event : NostrEvent) (l : Locals) : M unit :=
  try_catch
    (nwcResponse ←
       makeNwcResponseEvent (event_id event) (requestMethodOf (nwcRequestContent l))
                            (result l) (errorCode l);
     relay_publish nwcResponse)
    (fun err =>
       logger_error ("Failed to publish NWC response " +:+ errToString err)).

Definition handleNwcRequest (event : NostrEvent) (w : World) : World :=
  let '(l, w1) := processRequest event w in
  snd (respond event l w1).

End Pipeline.

(** ** A concrete deployment, to run the pipeline on explicit requests *)

Module Sample.

Definition cfg : Config := {|
  RELAY_URI := "wss://relay.example";
  TOTAL_MAX_SEND_AMOUNT_IN_SATS := 10000%Q;
  NWC_CONNECTION_PUBKEY := "connection-pubkey";
  NWC_CONNECTION_SECRET := "connection-secret";
  NWC_SERVICE_PUBKEY := "service-pubkey";
  AUTHORIZED_PUBKEY := "authorized-pubkey";
  LOG_LEVEL := "INFO";
  STRIKE_SOURCE_CURRENCY := JStr "USD";
|}.

(** Strike answering every call: a payment receipt, an invoice
    [lnbc-made] in state [UNPAID], later reported as [PAID]. *)
Definition strikeUp : StrikeApi := {|
  createStrikePaymentQuote := fun _ => inr (JStr "quote-1");
  executeStrikePaymentQuote := fun _ => inr (JObj [("state", JStr "COMPLETED")]);
  createInvoice := fun _ _ => inr (JStr "invoice-1", JStr "UNPAID", JNum 1700000000);
  createQuote := fun _ => inr (JStr "lnbc-made", JNum 1700003600);
  strike_lookupInvoice := fun _ => inr (JStr "PAID");
  strike_getExchangeRates := fun _ => inr (JArr []);
  strike_getAccountDetails := inr (JObj []);
  strike_getBalance := inr (JArr []);
  strike_getTransactions := fun _ _ => inr (JArr []);
|}.

(** Strike refusing every call. *)
Definition strikeDown : StrikeApi :=
  let failed := ErrorOfClass "AxiosError" "Request failed with status code 400" in {|
  createStrikePaymentQuote := fun _ => inl failed;
  executeStrikePaymentQuote := fun _ => inl failed;
  createInvoice := fun _ _ => inl failed;
  createQuote := fun _ => inl failed;
  strike_lookupInvoice := fun _ => inl failed;
  strike_getExchangeRates := fun _ => inl failed;
  strike_getAccountDetails := inl failed;
  strike_getBalance := inl failed;
  strike_getTransactions := fun _ _ => inl failed;
|}.

(** A decoder that knows four invoices: 1500 millisatoshi (1.5 sat),
    2500 sat, 7499.5 sat and 7501 sat; anything else is not an invoice. *)
Definition decode (invoice : JsValue) : Thrown + list DecodedSection :=
  let sections (msat : N) :=
    [ {| name := "lightning_network"; value := 0%N |};
      {| name := "coin_network"; value := 0%N |};
      {| name := "amount"; value := msat |} ] in
  match invoice with
  | JStr s =>
      if String.eqb s "lnbc15n1" then inr (sections 1500%N)
      else if String.eqb s "lnbc25u1" then inr (sections 2500000%N)
      else if String.eqb s "lnbc74995n1" then inr (sections 7499500%N)
      else if String.eqb s "lnbc75010n1" then inr (sections 7501000%N)
      else inl (Error "Not a proper lightning payment request")
  | _ => inl (Error "Lightning Payment Request must be string")
  end.

(** The digits of a number: those of a whole number; for any other number
    its full decimal expansion (a number has a power of two as denominator)
    stands for the shortest digits that the language prints. *)
Definition printNumber (q : Q) : string :=
  let n := Qnum (Qred q) in
  let k := Z.to_nat (Z.log2 (Zpos (Qden (Qred q)))) in
  let digits := pretty (Z.abs n * 5 ^ Z.of_nat k)%Z in
  let len := String.length digits in
  let sign := if (n <? 0)%Z then "-" else EmptyString in
  match k with
  | O => sign +:+ digits
  | _ =>
      sign +:+ (if (len <=? k)%nat then "0" else String.substring 0 (len - k) digits)
           +:+ "." +:+ String.concat EmptyString (replicate (k - len) "0")
           +:+ String.substring (len - k) k digits
  end.

(** The number written by a string of decimal digits; the empty string
    writes 0 and any other string is not a number. *)
Fixpoint digitsToN (s : string) (acc : N) : option N :=
  match s with
  | EmptyString => Some acc
  | String c rest =>
      let d := Ascii.N_of_ascii c in
      if ((48 <=? d) && (d <=? 57))%N then digitsToN rest (10 * acc + (d - 48))%N
      else None
  end.

Definition parseNumber (s : string) : option Q :=
  match digitsToN s 0%N with
  | Some n => Some (theNumberValueFor (inject_Z (Z.of_N n)))
  | None => None
  end.

Definition quote : string :=
  String (Ascii.Ascii false true false false false true false false) EmptyString.

Definition hasNoJson (v : JsValue) : bool :=
  match v with
  | JUndefined | JNative _ => true
  | _ => false
  end.

(** [JSON.stringify], without escapes: a property without a value is left
    out, an array element without a value is [null]. *)
Fixpoint stringify (v : JsValue) : string :=
  match v with
  | JUndefined | JNull | JNaN | JNative _ => "null"
  | JBool true => "true"
  | JBool false => "false"
  | JNum q => printNumber q
  | JStr s => quote +:+ s +:+ quote
  | JArr elems => "[" +:+ String.concat "," (List.map stringify elems) +:+ "]"
  | JObj props =>
      "{" +:+ String.concat ","
                (List.flat_map
                   (fun kv =>
                      match kv with
                      | (k, x) =>
                          if hasNoJson x then []
                          else [quote +:+ k +:+ quote +:+ ":" +:+ stringify x]
                      end)
                   props)
          +:+ "}"
  end.

(** The world in which the payload of every event decrypts and parses to
    [request], the cipher and the signer work, and Strike is [api]. *)
Definition env (request : JsValue) (api : StrikeApi) : Env := {|
  decrypt := fun _ _ ciphertext => inr ciphertext;
  encrypt := fun _ _ plaintext => inr plaintext;
  finalizeEvent := fun _ _ => inr ("connection-pubkey", "response-id", "response-sig");
  JSON_parse := fun _ => inr request;
  JSON_stringify := stringify;
  Date_now := 1700000000499;
  Number_toString := printNumber;
  StringToNumber := parseNumber;
  Function_toString := fun name => "function " +:+ name +:+ "() { [native code] }";
  lightBolt11Decoder_decode := decode;
  strike := api;
|}.

Definition event : NostrEvent := {|
  event_id := "request-id";
  event_pubkey := "connection-pubkey";
  event_content := "ciphertext";
|}.

Definition request (method : string) (params : list (string * JsValue)) : JsValue :=
  JObj [("method", JStr method); ("params", JObj params)].

End Sample.

Module SampleRuns.

(** Strike is up and the request is a payment of [invoice]. *)
Definition pay (invoice : string) : Env :=
  Sample.env (Sample.request "pay_invoice" [("invoice", JStr invoice)]) Sample.strikeUp.

(** Strike is up and the request asks for the balance. *)
Definition balance : Env := Sample.env (Sample.request "get_balance" []) Sample.strikeUp.


(** The world after one payment of the 2500 sat invoice. *)
Definition paid2500 : World :=
  handleNwcRequest Sample.cfg (pay "lnbc25u1") Sample.event initialWorld.

(** The world after the 2500 sat payment, a balance request and the 1.5 sat
    payment. *)
Definition paidTwice : World :=
  handleNwcRequest Sample.cfg (pay "lnbc15n1") Sample.event
    (handleNwcRequest Sample.cfg balance Sample.event paid2500).

(** The same payload, sent by somebody else. *)
Definition stranger : NostrEvent := {|
  event_id := "request-id";
  event_pubkey := "someone-else";
  event_content := "ciphertext";
|}.

(** A payment request without an invoice, while Strike refuses it. *)
Definition payNothing : Env :=
  Sample.env (Sample.request "pay_invoice" []) Sample.strikeDown.

(** A [make_invoice] request without [params]. *)
Definition makeWithoutParams : Env :=
  Sample.env (JObj [("method", JStr "make_invoice")]) Sample.strikeUp.

(** A lookup of the string [constructor]. *)
Definition lookupConstructor : Env :=
  Sample.env (Sample.request "lookup_invoice" [("invoice", JStr "constructor")])
             Sample.strikeUp.

(** The content of the response to the request [c], sent to an idle
    process while Strike is up; [undefined] when the content cannot be
    built. *)
Definition answer (c : JsValue) : JsValue :=
  let env := Sample.env c Sample.strikeUp in
  let l := fst (processRequest Sample.cfg env Sample.event initialWorld) in
  match responseContent Sample.cfg env (requestMethodOf (nwcRequestContent l))
                        (result l) (errorCode l) with
  | inr content => content
  | inl _ => JUndefined
  end.

(** A request without a [method] field. *)
Definition noMethod : JsValue := JObj [("params", JObj [])].

(** A request whose method is the empty string. *)
Definition emptyMethod : JsValue :=
  JObj [("method", JStr EmptyString); ("params", JObj [])].

End SampleRuns.

Module TransactionSamples.

Definition asking (params : list (string * JsValue)) : Env :=
  Sample.env (Sample.request "get_transactions" params) Sample.strikeUp.

(** The outcome of the request and the calls made to Strike. *)
Definition outcome (params : list (string * JsValue)) : option string * list StrikeCall :=
  let r := processRequest Sample.cfg (asking params) Sample.event initialWorld in
  (errorCode (fst r), strikeCalls (snd r)).

End TransactionSamples.

(** ** Vocabulary of the statements *)

(** The payload of [ev] decrypts and parses to [c]. *)
Definition decryptsTo (cfg : Config) (env : Env) (ev : NostrEvent) (c : JsValue) : Prop :=
  exists plaintext,
    decrypt env (NWC_CONNECTION_SECRET cfg) (NWC_SERVICE_PUBKEY cfg) (event_content ev)
      = inr plaintext
    /\ JSON_parse env plaintext = inr c.

(** [c] is a request for [method]. *)
Definition isRequest (c : JsValue) (method : string) : Prop :=
  ownProp c "method" = JStr method.

(** [nwcRequestContent.params?.invoice] *)
Definition invoiceOf (c : JsValue) : JsValue :=
  getPropOpt (ownProp c "params") "invoice".

(** The amount [handlePayInvoiceRequest] derives from a request: the amount
    embedded in the invoice, 0 without an invoice. *)
Definition derivedAmount (env : Env) (c : JsValue) : Thrown + Q :=
  if truthy (invoiceOf c) then extractAmountInSats env (invoiceOf c) else inr 0%Q.

(** The error code a response content carries, [undefined] when it carries
    a result. *)
Definition errorCodeOf (content : JsValue) : JsValue :=
  getPropOpt (ownProp content "error") "code".

(** [q] is a whole number. *)
Definition whole (q : Q) : Prop := exists z : Z, (q == inject_Z z)%Q.

(** [q] is a number of the language: a binary64 value, in lowest terms. *)
Definition isNumber (q : Q) : Prop := theNumberValueFor q = q.

(** [v] can be converted to a string, and so to a property key. *)
Definition convertible (env : Env) (v : JsValue) : Prop :=
  exists s, ToString env v = inr s.

(** The world differs from [w] by its effects only. *)
Definition sameState (w w' : World) : Prop :=
  totalAmountSentInSats w' = totalAmountSentInSats w
  /\ cachedInvoiceResults w' = cachedInvoiceResults w
  /\ cachedInvoiceResults_proto w' = cachedInvoiceResults_proto w.

(** The provider confirmed the payment asked by [c]: the request was
    admitted and both Strike calls resolved. *)
Definition paymentConfirmed (cfg : Config) (env : Env) (ev : NostrEvent) (w : World)
    (c : JsValue) (amount : Q) : Prop :=
  decryptsTo cfg env ev c
  /\ event_pubkey ev = NWC_CONNECTION_PUBKEY cfg
  /\ isRequest c "pay_invoice"
  /\ derivedAmount env c = inr amount
  /\ (Number_add (totalAmountSentInSats w) amount <= TOTAL_MAX_SEND_AMOUNT_IN_SATS cfg)%Q
  /\ exists quoteId receipt,
       createStrikePaymentQuote (strike env) (invoiceOf c) = inr quoteId
       /\ executeStrikePaymentQuote (strike env) quoteId = inr receipt.

(** The worlds the process can be in: it starts in [initialWorld] and
    handles one request after the other. *)
Inductive reachable (cfg : Config) : World -> Prop :=
| reachable_initial : reachable cfg initialWorld
| reachable_step env ev w :
    reachable cfg w -> reachable cfg (handleNwcRequest cfg env ev w).

(** An authenticated [pay_invoice] request with derived amount [amount]
    that ended without an error code. *)
Definition successfulPayment (cfg : Config) (env : Env) (ev : NostrEvent) (w : World)
    (amount : Q) : Prop :=
  exists c,
    decryptsTo cfg env ev c
    /\ event_pubkey ev = NWC_CONNECTION_PUBKEY cfg
    /\ isRequest c "pay_invoice"
    /\ derivedAmount env c = inr amount
    /\ errorCode (fst (processRequest cfg env ev w)) = None.

(** [history cfg w amounts w']: handling some requests in sequence leads
    from [w] to [w'], and [amounts] lists, in order, the derived amounts of
    those that were successful payments. *)
Inductive history (cfg : Config) : World -> list Q -> World -> Prop :=
| history_done w : history cfg w [] w
| history_paid env ev w amount amounts w' :
    successfulPayment cfg env ev w amount ->
    history cfg (handleNwcRequest cfg env ev w) amounts w' ->
    history cfg w (amount :: amounts) w'
| history_other env ev w amounts w' :
    (forall amount, ~ successfulPayment cfg env ev w amount) ->
    history cfg (handleNwcRequest cfg env ev w) amounts w' ->
    history cfg w amounts w'.

Definition supportedMethods : list string :=
  ["pay_invoice"; "make_invoice"; "lookup_invoice"; "get_exchange_rates";
   "get_account_details"; "get_balance"; "get_transactions"].

(** [nwcRequestContent.params?.limit] and [nwcRequestContent.params?.offset] *)
Definition limitOf (c : JsValue) : JsValue := getPropOpt (ownProp c "params") "limit".
Definition offsetOf (c : JsValue) : JsValue := getPropOpt (ownProp c "params") "offset".

(** The record [handleMakeInvoiceRequest] builds and caches. *)
Definition invoiceRecord (invoice description amount createdAt expiresAt state invoiceId
                          : JsValue) : JsValue :=
  JObj [("type", JStr "incoming");
        ("invoice", invoice);
        ("description", description);
        ("amount", amount);
        ("created_at", createdAt);
        ("expires_at", expiresAt);
        ("metadata", JObj [("state", state); ("invoice_id", invoiceId)])].

(** The value of [f] is the same in both worlds. *)
Definition keeps {X : Type} (f : World -> X) (w w' : World) : Prop := f w' = f w.

(** The computation [m] takes every world to one related to it by [R]. *)
Definition preserves (R : World -> World -> Prop) {A : Type} (m : M A) : Prop :=
  forall w, R w (snd (m w)).

(** ** The process as a whole, and the example client *)

(** The events that the subscription of [start] delivers, handled in turn
    from the world [w]: each request is handled to its end before the next
    one arrives, and comes with the outside world of its moment.  [onevent]
    does not wait for [handleNwcRequest]: that no two requests overlap is an
    assumption on the arrivals, not something the program sees to. *)
Definition handledInTurn (cfg : Config) (deliveries : list (Env * NostrEvent))
    (w : World) : World :=
  fold_left (fun w d => handleNwcRequest cfg (fst d) (snd d) w) deliveries w.

(** The calls that move money. *)
Definition isPaymentCall (c : StrikeCall) : bool :=
  match c with
  | CreateStrikePaymentQuote _ | ExecuteStrikePaymentQuote _ => true
  | _ => false
  end.

(** The template [makeNwcResponseEvent] has signed, for the event
    [eventId] and the encrypted content. *)
Definition responseTemplate (cfg : Config) (env : Env) (eventId encryptedContent : string)
  : EventTemplate :=
  {| kind := NWCWalletResponse;
     created_at := nowInSeconds env;
     content := encryptedContent;
     tags := [["p"; AUTHORIZED_PUBKEY cfg]; ["e"; eventId]] |}.

(** The tags [makeNwcResponseEvent] gives the response to [ev]. *)
Definition responseTags (cfg : Config) (ev : NostrEvent) : list (list string) :=
  [["p"; AUTHORIZED_PUBKEY cfg]; ["e"; event_id ev]].

(** What is returned or thrown carries a code of the taxonomy. *)
Definition classified {A : Type} (r : Thrown + A) : Prop :=
  match r with
  | inl err => In (message err) errorTaxonomy
  | inr _ => True
  end.

(** The world [w] after Strike was called with [calls]. *)
Definition afterCalls (w : World) (calls : list StrikeCall) : World :=
  {| totalAmountSentInSats := totalAmountSentInSats w;
     cachedInvoiceResults := cachedInvoiceResults w;
     cachedInvoiceResults_proto := cachedInvoiceResults_proto w;
     strikeCalls := strikeCalls w ++ calls;
     errorLog := errorLog w;
     published := published w |}.

(** The world [w] with [record] cached under [key]. *)
Definition withCached (w : World) (key : string) (record : JsValue) : World :=
  {| totalAmountSentInSats := totalAmountSentInSats w;
     cachedInvoiceResults := <[key := record]> (cachedInvoiceResults w);
     cachedInvoiceResults_proto := cachedInvoiceResults_proto w;
     strikeCalls := strikeCalls w;
     errorLog := errorLog w;
     published := published w |}.

(** The world [w] after [line] was logged as an error. *)
Definition afterErrorLine (w : World) (line : string) : World :=
  snd (logger_error line w).

(** Between [w] and [w'] Strike was called with [calls], in this order. *)
Definition callsSince (w w' : World) (calls : list StrikeCall) : Prop :=
  strikeCalls w' = (strikeCalls w ++ calls)%list.

(** Between [w] and [w'] no payment call was made. *)
Definition noPaymentSince (w w' : World) : Prop :=
  exists calls, callsSince w w' calls /\ existsb isPaymentCall calls = false.

(** Every string cached in [w] is cached in [w']. *)
Definition cacheGrows (w w' : World) : Prop :=
  forall key, is_Some (cachedInvoiceResults w !! key) ->
              is_Some (cachedInvoiceResults w' !! key).

(** The cipher and the signer of [env] never throw. *)
Definition responsesCanBeBuilt (env : Env) : Prop :=
  (forall key pubkey plaintext, exists ciphertext,
      encrypt env key pubkey plaintext = inr ciphertext)
  /\ (forall eventTemplate key, exists signature,
        finalizeEvent env eventTemplate key = inr signature).

(** The response to [ev] can be built: the cipher and the signer never
    throw, and the method of the request, when the request can be read,
    converts to a string. *)
Definition answerable (cfg : Config) (env : Env) (ev : NostrEvent) : Prop :=
  responsesCanBeBuilt env
  /\ forall c, decryptsTo cfg env ev c -> convertible env (requestMethodOf c).

(** Whenever [m] returns, it has logged no error. *)
Definition quiet {A : Type} (m : M A) : Prop :=
  forall w a w', m w = (inr a, w') -> errorLog w' = errorLog w.

(** [m] always throws. *)
Definition neverReturns {A : Type} (m : M A) : Prop :=
  forall w, exists err w', m w = (inl err, w').

(** The plaintext of a response that reports the error [code] with the
    text [message], and of one that carries a result. *)
Definition errorBody (requestMethod : JsValue) (code message : string) : JsValue :=
  JObj [("result_type", requestMethod);
        ("error", JObj [("code", JStr code); ("message", JStr message)])].

Definition resultBody (requestMethod res : JsValue) : JsValue :=
  JObj [("result_type", requestMethod); ("result", res)].

(** [resp] carries [body], stringified and encrypted for the connection. *)
Definition sentAs (cfg : Config) (env : Env) (resp : NwcResponse) (body : JsValue) : Prop :=
  encrypt env (NWC_CONNECTION_SECRET cfg) (NWC_SERVICE_PUBKEY cfg)
          (JSON_stringify env body)
  = inr (content (template resp)).

(** The codes [getErrorMessage] has a text of their own for. *)
Definition explainedCodes : list string :=
  [UNAUTHORIZED; NOT_IMPLEMENTED; QUOTA_EXCEEDED; PAYMENT_FAILED; NOT_FOUND;
   INVALID_PARAMS].

(** The example client of the repository, which publishes one
    [get_exchange_rates] request. *)
Module Example.

(** [process.argv[2] || 'USD'] *)
Definition currency (argv2 : JsValue) : JsValue := js_or argv2 (JStr "USD").

(** The object the client serializes. *)
Definition request (argv2 : JsValue) : JsValue :=
  JObj [("method", JStr "get_exchange_rates");
        ("params", JObj [("currency", currency argv2)])].

(** [run], up to the signed event it hands to the relay; an event has the
    shape of a response event, with its own kind and tags. *)
Definition run (cfg : Config) (env : Env) (argv2 : JsValue) : Thrown + NwcResponse :=
  match encrypt env (NWC_CONNECTION_SECRET cfg) (NWC_SERVICE_PUBKEY cfg)
                (JSON_stringify env (request argv2)) with
  | inl err => inl err
  | inr encryptedContent =>
      let eventTemplate :=
        {| kind := NWCWalletRequest;
           created_at := nowInSeconds env;
           content := encryptedContent;
           tags := [["p"; NWC_SERVICE_PUBKEY cfg]] |} in
      match finalizeEvent env eventTemplate (NWC_CONNECTION_SECRET cfg) with
      | inl err => inl err
      | inr (pk, id, sig) =>
          inr {| template := eventTemplate;
                 response_pubkey := pk; response_id := id; response_sig := sig |}
      end
  end.

(** The signed event, as the subscription of the service receives it. *)
Definition delivered (signedEvent : NwcResponse) : NostrEvent :=
  {| event_id := response_id signedEvent;
     event_pubkey := response_pubkey signedEvent;
     event_content := content (template signedEvent) |}.

End Example.

(** Further deployments, to run the statements below. *)
Module MoreSamples.


(** Strike quotes every payment and then refuses to execute it. *)
Definition strikeQuotesOnly : StrikeApi := {|
  createStrikePaymentQuote := fun _ => inr (JStr "quote-1");
  executeStrikePaymentQuote := fun _ =>
    inl (ErrorOfClass "AxiosError" "Request failed with status code 422");
  createInvoice := createInvoice Sample.strikeUp;
  createQuote := createQuote Sample.strikeUp;
  strike_lookupInvoice := strike_lookupInvoice Sample.strikeUp;
  strike_getExchangeRates := strike_getExchangeRates Sample.strikeUp;
  strike_getAccountDetails := strike_getAccountDetails Sample.strikeUp;
  strike_getBalance := strike_getBalance Sample.strikeUp;
  strike_getTransactions := strike_getTransactions Sample.strikeUp;
|}.

(** The request pays an invoice that decodes without an [amount] section. *)
Definition payAmountless : Env :=
  let base := Sample.env (Sample.request "pay_invoice" [("invoice", JStr "lnbc1")])
                         Sample.strikeUp in {|
  decrypt := decrypt base;
  encrypt := encrypt base;
  finalizeEvent := finalizeEvent base;
  JSON_parse := JSON_parse base;
  JSON_stringify := JSON_stringify base;
  Date_now := Date_now base;
  Number_toString := Number_toString base;
  StringToNumber := StringToNumber base;
  Function_toString := Function_toString base;
  lightBolt11Decoder_decode := fun _ =>
    inr [ {| name := "lightning_network"; value := 0%N |};
          {| name := "coin_network"; value := 0%N |} ];
  strike := strike base;
|}.

(** A request for an invoice of 1000 millisatoshi, and the lookup of an
    invoice string. *)
Definition makeCoffeeRequest : JsValue :=
  Sample.request "make_invoice" [("amount", JNum 1000); ("description", JStr "coffee")].

Definition lookupRequest (invoice : string) : JsValue :=
  Sample.request "lookup_invoice" [("invoice", JStr invoice)].

Definition makeCoffee (api : StrikeApi) : Env := Sample.env makeCoffeeRequest api.

Definition lookup (invoice : string) (api : StrikeApi) : Env :=
  Sample.env (lookupRequest invoice) api.

(** The world after the invoice was made. *)
Definition madeCoffee : World :=
  handleNwcRequest Sample.cfg (makeCoffee Sample.strikeUp) Sample.event initialWorld.

(** Strike naming the invoice it made [__proto__], and the world after that
    invoice was made: the cache inherits from its record. *)
Definition strikeNamesProto : StrikeApi := {|
  createStrikePaymentQuote := createStrikePaymentQuote Sample.strikeUp;
  executeStrikePaymentQuote := executeStrikePaymentQuote Sample.strikeUp;
  createInvoice := createInvoice Sample.strikeUp;
  createQuote := fun _ => inr (JStr "__proto__", JNum 1700003600);
  strike_lookupInvoice := strike_lookupInvoice Sample.strikeUp;
  strike_getExchangeRates := strike_getExchangeRates Sample.strikeUp;
  strike_getAccountDetails := strike_getAccountDetails Sample.strikeUp;
  strike_getBalance := strike_getBalance Sample.strikeUp;
  strike_getTransactions := strike_getTransactions Sample.strikeUp;
|}.

Definition inheritingCoffee : World :=
  handleNwcRequest Sample.cfg (makeCoffee strikeNamesProto) Sample.event initialWorld.

(** The record of that invoice, in state [state]. *)
Definition coffeeRecord (state : string) : JsValue :=
  invoiceRecord (JStr "lnbc-made") (JStr "coffee") (JNum 1000) (JNum 1700000000)
                (JNum 1700003600) (JStr state) (JStr "invoice-1").

(** A request for exchange rates, with the given parameters. *)
Definition rates (params : list (string * JsValue)) : Env :=
  Sample.env (Sample.request "get_exchange_rates" params) Sample.strikeUp.

(** A request for the balance that has no [params] at all. *)
Definition balanceRequest : JsValue := JObj [("method", JStr "get_balance")].

(** The payload of the request cannot be decrypted. *)
Definition garbled : Env :=
  let base := SampleRuns.pay "lnbc25u1" in {|
  decrypt := fun _ _ _ => inl (Error "invalid base64");
  encrypt := encrypt base;
  finalizeEvent := finalizeEvent base;
  JSON_parse := JSON_parse base;
  JSON_stringify := JSON_stringify base;
  Date_now := Date_now base;
  Number_toString := Number_toString base;
  StringToNumber := StringToNumber base;
  Function_toString := Function_toString base;
  lightBolt11Decoder_decode := lightBolt11Decoder_decode base;
  strike := strike base;
|}.

(** The invoice decoder throws an error with the given message. *)
Definition decoderThrows (msg : string) : Env :=
  let base := SampleRuns.pay "lnbc25u1" in {|
  decrypt := decrypt base;
  encrypt := encrypt base;
  finalizeEvent := finalizeEvent base;
  JSON_parse := JSON_parse base;
  JSON_stringify := JSON_stringify base;
  Date_now := Date_now base;
  Number_toString := Number_toString base;
  StringToNumber := StringToNumber base;
  Function_toString := Function_toString base;
  lightBolt11Decoder_decode := fun _ => inl (Error msg);
  strike := strike base;
|}.

(** A ceiling of 2^44 sat. *)
Definition wideCfg : Config := {|
  RELAY_URI := "wss://relay.example";
  TOTAL_MAX_SEND_AMOUNT_IN_SATS := 17592186044416%Q;
  NWC_CONNECTION_PUBKEY := "connection-pubkey";
  NWC_CONNECTION_SECRET := "connection-secret";
  NWC_SERVICE_PUBKEY := "service-pubkey";
  AUTHORIZED_PUBKEY := "authorized-pubkey";
  LOG_LEVEL := "INFO";
  STRIKE_SOURCE_CURRENCY := JStr "USD";
|}.

(** The request pays an invoice of [msat] millisatoshi, and Strike is up. *)
Definition payMsat (msat : N) : Env :=
  let base := Sample.env (Sample.request "pay_invoice" [("invoice", JStr "lnbc")])
                         Sample.strikeUp in {|
  decrypt := decrypt base;
  encrypt := encrypt base;
  finalizeEvent := finalizeEvent base;
  JSON_parse := JSON_parse base;
  JSON_stringify := JSON_stringify base;
  Date_now := Date_now base;
  Number_toString := Number_toString base;
  StringToNumber := StringToNumber base;
  Function_toString := Function_toString base;
  lightBolt11Decoder_decode := fun _ =>
    inr [ {| name := "lightning_network"; value := 0%N |};
          {| name := "coin_network"; value := 0%N |};
          {| name := "amount"; value := msat |} ];
  strike := strike base;
|}.

(** The world after one payment of 2^44 sat under that ceiling. *)
Definition spentToTheCeiling : World :=
  handleNwcRequest wideCfg (payMsat 17592186044416000) Sample.event initialWorld.



(** The world after the invoices of 1060042, 3543489 and 4028760
    millisatoshi have been paid, in this order. *)
Definition paidThrice : World :=
  handleNwcRequest Sample.cfg (payMsat 4028760) Sample.event
    (handleNwcRequest Sample.cfg (payMsat 3543489) Sample.event
       (handleNwcRequest Sample.cfg (payMsat 1060042) Sample.event initialWorld)).

(** Three deliveries: a payment of 2500 sat, a stranger's request and a
    payment of 7501 sat. *)
Definition deliveries : list (Env * NostrEvent) :=
  [(SampleRuns.pay "lnbc25u1", Sample.event);
   (SampleRuns.pay "lnbc25u1", SampleRuns.stranger);
   (SampleRuns.pay "lnbc75010n1", Sample.event)].

End MoreSamples.

Ltac unfold_M :=
  unfold mbind, M_bind, mret, M_ret, throw, try_catch, liftM, getWorld,
    logger_error, callStrike, set_totalAmountSentInSats, relay_publish,
    cache_store in *.

(** ** Rounding to a number *)

Section Rounding.

Local Open Scope Q_scope.

Lemma pow2_pos k : 0 < 2 ^ k.
Proof. apply Qpower_0_lt. reflexivity. Qed.

Lemma pow2_plus a b : 2 ^ (a + b) == 2 ^ a * 2 ^ b.
Proof. apply Qpower_plus. discriminate. Qed.

Lemma pow2_le a b : (a <= b)%Z -> 2 ^ a <= 2 ^ b.
Proof. intros H. apply Qpower_le_compat_l; [exact H | discriminate]. Qed.

Lemma pow2_lt a b : (a < b)%Z -> 2 ^ a < 2 ^ b.
Proof. intros H. apply Qpower_lt_compat_l; [exact H | reflexivity]. Qed.

Lemma pow2_inject k : (0 <= k)%Z -> 2 ^ k == inject_Z (2 ^ k).
Proof. intros H. rewrite Zpower_Qpower by exact H. reflexivity. Qed.

Lemma pow2_succ k : 2 ^ (k + 1) == 2 * 2 ^ k.
Proof. rewrite pow2_plus. change (2 ^ 1) with 2. ring. Qed.

Lemma pow2_pred k : 2 ^ (k - 1) == 2 ^ k / 2.
Proof.
  assert (H : k = (k - 1 + 1)%Z) by lia. rewrite H at 2.
  rewrite pow2_succ. field.
Qed.

Lemma ilog2_spec x : 0 < x -> 2 ^ ilog2 x <= x /\ x < 2 ^ (ilog2 x + 1).
Proof.
  intros Hx. destruct x as [n d]. unfold ilog2. cbn [Qnum Qden].
  assert (Hn : (0 < n)%Z) by (unfold Qlt in Hx; simpl in Hx; lia).
  set (a := Z.log2 n). set (b := Z.log2 (Z.pos d)).
  destruct (Z.log2_spec n Hn) as [Ha1 Ha2]. fold a in Ha1, Ha2.
  destruct (Z.log2_spec (Z.pos d) eq_refl) as [Hb1 Hb2]. fold b in Hb1, Hb2.
  assert (Ha0 : (0 <= a)%Z) by apply Z.log2_nonneg.
  assert (Hb0 : (0 <= b)%Z) by apply Z.log2_nonneg.
  assert (Hlow : 2 ^ (a - b - 1) < n # d).
  { assert (Hd : inject_Z (Z.pos d) < 2 ^ (b + 1)).
    { rewrite pow2_inject by lia. rewrite <- Zlt_Qlt. exact Hb2. }
    assert (Hn' : 2 ^ a <= inject_Z n).
    { rewrite pow2_inject by lia. rewrite <- Zle_Qle. exact Ha1. }
    assert (E : 2 ^ (a - b - 1) * 2 ^ (b + 1) == 2 ^ a).
    { rewrite <- pow2_plus. assert (H : (a - b - 1 + (b + 1) = a)%Z) by lia.
      rewrite H. reflexivity. }
    pose proof (pow2_pos (a - b - 1)) as P1. pose proof (pow2_pos (b + 1)) as P2.
    assert (Hq : n # d == inject_Z n / inject_Z (Z.pos d)) by apply Qmake_Qdiv.
    rewrite Hq. apply Qlt_shift_div_l; [reflexivity|].
    apply Qlt_le_trans with (2 ^ a); [|exact Hn'].
    rewrite <- E. apply Qmult_lt_l; assumption. }
  assert (Hhigh : n # d < 2 ^ (a - b + 1)).
  { assert (Hd : 2 ^ b <= inject_Z (Z.pos d)).
    { rewrite pow2_inject by lia. rewrite <- Zle_Qle. exact Hb1. }
    assert (Hn' : inject_Z n < 2 ^ (a + 1)).
    { rewrite pow2_inject by lia. rewrite <- Zlt_Qlt. exact Ha2. }
    assert (E : 2 ^ (a - b + 1) * 2 ^ b == 2 ^ (a + 1)).
    { rewrite <- pow2_plus. assert (H : (a - b + 1 + b = a + 1)%Z) by lia.
      rewrite H. reflexivity. }
    pose proof (pow2_pos (a - b + 1)) as P1. pose proof (pow2_pos b) as P2.
    assert (Hq : n # d == inject_Z n / inject_Z (Z.pos d)) by apply Qmake_Qdiv.
    rewrite Hq. apply Qlt_shift_div_r; [reflexivity|].
    apply Qlt_le_trans with (2 ^ (a + 1)); [exact Hn'|].
    rewrite <- E. apply Qmult_le_l; assumption. }
  destruct (Qle_bool (2 ^ (a - b)) (n # d)) eqn:Hcmp.
  - apply Qle_bool_iff in Hcmp. split; assumption.
  - assert (Hlt : n # d < 2 ^ (a - b)).
    { apply Qnot_le_lt. intros H. apply Qle_bool_iff in H. congruence. }
    split; [apply Qlt_le_weak; exact Hlow|].
    assert (H : (a - b - 1 + 1 = a - b)%Z) by lia. rewrite H. exact Hlt.
Qed.

Lemma ilog2_unique x k : 2 ^ k <= x -> x < 2 ^ (k + 1) -> ilog2 x = k.
Proof.
  intros H1 H2.
  assert (Hx : 0 < x) by (eapply Qlt_le_trans; [apply (pow2_pos k) | exact H1]).
  destruct (ilog2_spec x Hx) as [H3 H4].
  assert (A : (ilog2 x < k + 1)%Z).
  { apply (Qpower_lt_compat_l_inv 2); [|reflexivity].
    eapply Qle_lt_trans; eassumption. }
  assert (B : (k < ilog2 x + 1)%Z).
  { apply (Qpower_lt_compat_l_inv 2); [|reflexivity].
    eapply Qle_lt_trans; eassumption. }
  lia.
Qed.

Lemma ilog2_le x y : 0 < x -> x <= y -> (ilog2 x <= ilog2 y)%Z.
Proof.
  intros Hx Hxy.
  assert (Hy : 0 < y) by (eapply Qlt_le_trans; eassumption).
  destruct (ilog2_spec x Hx) as [H1 _]. destruct (ilog2_spec y Hy) as [_ H2].
  assert (A : (ilog2 x < ilog2 y + 1)%Z).
  { apply (Qpower_lt_compat_l_inv 2); [|reflexivity].
    eapply Qle_lt_trans; [exact H1|]. eapply Qle_lt_trans; eassumption. }
  lia.
Qed.

Ltac compare_facts :=
  repeat match goal with
         | H : (_ ?= _)%Q = Eq |- _ => apply (proj2 (Qeq_alt _ _)) in H
         | H : (_ ?= _)%Q = Lt |- _ => apply (proj2 (Qlt_alt _ _)) in H
         | H : (_ ?= _)%Q = Gt |- _ => apply (proj2 (Qgt_alt _ _)) in H
         end.

Lemma roundHalfEven_comp x y : x == y -> roundHalfEven x = roundHalfEven y.
Proof.
  intros H. unfold roundHalfEven. rewrite (Qfloor_comp _ _ H).
  assert (E : x - inject_Z (Qfloor y) == y - inject_Z (Qfloor y)) by (rewrite H; reflexivity).
  rewrite (Qcompare_comp _ _ E (1 # 2) (1 # 2) (Qeq_refl _)). reflexivity.
Qed.

Lemma roundHalfEven_inject z : roundHalfEven (inject_Z z) = z.
Proof.
  unfold roundHalfEven. rewrite Qfloor_Z.
  assert (E : (inject_Z z - inject_Z z ?= 1 # 2) = Lt).
  { apply (proj1 (Qlt_alt _ _)). lra. }
  rewrite E. reflexivity.
Qed.

Lemma roundHalfEven_near x :
  inject_Z (roundHalfEven x) - (1 # 2) <= x /\ x <= inject_Z (roundHalfEven x) + (1 # 2).
Proof.
  unfold roundHalfEven.
  pose proof (Qfloor_le x) as Hlo. pose proof (Qlt_floor x) as Hhi.
  rewrite inject_Z_plus in Hhi. change (inject_Z 1) with 1 in Hhi.
  destruct (x - inject_Z (Qfloor x) ?= 1 # 2) eqn:Hc.
  - compare_facts. destruct (Z.even (Qfloor x)).
    + split; lra.
    + rewrite inject_Z_plus. change (inject_Z 1) with 1. split; lra.
  - compare_facts. split; lra.
  - compare_facts. rewrite inject_Z_plus. change (inject_Z 1) with 1. split; lra.
Qed.

Lemma roundHalfEven_le x y : x <= y -> (roundHalfEven x <= roundHalfEven y)%Z.
Proof.
  intros Hxy.
  pose proof (Qfloor_resp_le _ _ Hxy) as Hf.
  destruct (Z.eq_dec (Qfloor x) (Qfloor y)) as [Heq|Hne].
  - unfold roundHalfEven. rewrite Heq.
    destruct (x - inject_Z (Qfloor y) ?= 1 # 2) eqn:Hcx;
      destruct (y - inject_Z (Qfloor y) ?= 1 # 2) eqn:Hcy;
      try (destruct (Z.even (Qfloor y))); try lia;
      compare_facts; exfalso; lra.
  - assert (Hlt : (Qfloor x + 1 <= Qfloor y)%Z) by lia.
    assert (Hx : (roundHalfEven x <= Qfloor x + 1)%Z).
    { unfold roundHalfEven. destruct (x - inject_Z (Qfloor x) ?= 1 # 2);
        try destruct (Z.even (Qfloor x)); lia. }
    assert (Hy : (Qfloor y <= roundHalfEven y)%Z).
    { unfold roundHalfEven. destruct (y - inject_Z (Qfloor y) ?= 1 # 2);
        try destruct (Z.even (Qfloor y)); lia. }
    lia.
Qed.

Lemma ilog2_comp x y : 0 < x -> x == y -> ilog2 x = ilog2 y.
Proof.
  intros Hx H. destruct (ilog2_spec x Hx) as [H1 H2]. symmetry.
  apply ilog2_unique; rewrite <- H; assumption.
Qed.

(** The significand of a positive number lies in [2^52, 2^53). *)
Lemma significand_range x :
  0 < x -> 2 ^ 52 <= x / 2 ^ (ilog2 x - 52) /\ x / 2 ^ (ilog2 x - 52) < 2 ^ 53.
Proof.
  intros Hx. destruct (ilog2_spec x Hx) as [H1 H2].
  pose proof (pow2_pos (ilog2 x - 52)) as Hu.
  assert (E1 : 2 ^ 52 * 2 ^ (ilog2 x - 52) == 2 ^ ilog2 x).
  { rewrite <- pow2_plus. assert (H : (52 + (ilog2 x - 52) = ilog2 x)%Z) by lia.
    rewrite H. reflexivity. }
  assert (E2 : 2 ^ 53 * 2 ^ (ilog2 x - 52) == 2 ^ (ilog2 x + 1)).
  { rewrite <- pow2_plus. assert (H : (53 + (ilog2 x - 52) = ilog2 x + 1)%Z) by lia.
    rewrite H. reflexivity. }
  split.
  - apply Qle_shift_div_l; [exact Hu|]. rewrite E1. exact H1.
  - apply Qlt_shift_div_r; [exact Hu|]. rewrite E2. exact H2.
Qed.

Lemma roundHalfEven_ge x z : inject_Z z <= x -> (z <= roundHalfEven x)%Z.
Proof.
  intros H. pose proof (roundHalfEven_le _ _ H) as Hle.
  rewrite roundHalfEven_inject in Hle. exact Hle.
Qed.

Lemma roundHalfEven_le_int x z : x <= inject_Z z -> (roundHalfEven x <= z)%Z.
Proof.
  intros H. pose proof (roundHalfEven_le _ _ H) as Hle.
  rewrite roundHalfEven_inject in Hle. exact Hle.
Qed.

Lemma rounded_significand_range x :
  0 < x ->
  (2 ^ 52 <= roundHalfEven (x / 2 ^ (ilog2 x - 52)) <= 2 ^ 53)%Z.
Proof.
  intros Hx. destruct (significand_range x Hx) as [H1 H2]. split.
  - apply roundHalfEven_ge. rewrite <- (pow2_inject 52) by lia. exact H1.
  - apply roundHalfEven_le_int. rewrite <- (pow2_inject 53) by lia.
    apply Qlt_le_weak. exact H2.
Qed.

Lemma roundPositive_pos x : 0 < x -> 0 < roundPositive x.
Proof.
  intros Hx. unfold roundPositive.
  destruct (rounded_significand_range x Hx) as [H _].
  apply Qmult_lt_0_compat; [|apply pow2_pos].
  change 0 with (inject_Z 0). rewrite <- Zlt_Qlt. lia.
Qed.

Lemma roundPositive_comp x y : 0 < x -> x == y -> roundPositive x == roundPositive y.
Proof.
  intros Hx H. unfold roundPositive. rewrite (ilog2_comp x y Hx H).
  assert (E : x / 2 ^ (ilog2 y - 52) == y / 2 ^ (ilog2 y - 52)) by (rewrite H; reflexivity).
  rewrite (roundHalfEven_comp _ _ E). reflexivity.
Qed.

Lemma roundPositive_le x y : 0 < x -> x <= y -> roundPositive x <= roundPositive y.
Proof.
  intros Hx Hxy.
  assert (Hy : 0 < y) by (eapply Qlt_le_trans; eassumption).
  pose proof (ilog2_le x y Hx Hxy) as He.
  unfold roundPositive.
  destruct (Z.eq_dec (ilog2 x) (ilog2 y)) as [Heq|Hne].
  - rewrite Heq. apply Qmult_le_compat_r; [|apply Qlt_le_weak, pow2_pos].
    rewrite <- Zle_Qle. apply roundHalfEven_le.
    apply Qmult_le_compat_r; [exact Hxy|].
    apply Qlt_le_weak, Qinv_lt_0_compat, pow2_pos.
  - destruct (rounded_significand_range x Hx) as [_ Hmx].
    destruct (rounded_significand_range y Hy) as [Hmy _].
    apply Qle_trans with (2 ^ 53 * 2 ^ (ilog2 x - 52)).
    { apply Qmult_le_compat_r; [|apply Qlt_le_weak, pow2_pos].
      rewrite (pow2_inject 53) by lia. rewrite <- Zle_Qle. exact Hmx. }
    apply Qle_trans with (2 ^ 52 * 2 ^ (ilog2 y - 52)).
    { rewrite <- !pow2_plus. apply pow2_le. lia. }
    apply Qmult_le_compat_r; [|apply Qlt_le_weak, pow2_pos].
    rewrite (pow2_inject 52) by lia. rewrite <- Zle_Qle. exact Hmy.
Qed.

(** A number whose significand is whole is its own Number value. *)
Lemma roundPositive_exact x m :
  0 < x -> x / 2 ^ (ilog2 x - 52) == inject_Z m -> roundPositive x == x.
Proof.
  intros Hx Hm. unfold roundPositive.
  rewrite (roundHalfEven_comp _ _ Hm), roundHalfEven_inject, <- Hm.
  field. apply Qnot_eq_sym, Qlt_not_eq, pow2_pos.
Qed.

Lemma roundPositive_idempotent x :
  0 < x -> roundPositive (roundPositive x) == roundPositive x.
Proof.
  intros Hx. pose proof (roundPositive_pos x Hx) as Hr.
  destruct (rounded_significand_range x Hx) as [Hlo Hhi].
  set (e := (ilog2 x - 52)%Z) in *. set (m := roundHalfEven (x / 2 ^ e)) in *.
  assert (Er : roundPositive x == inject_Z m * 2 ^ e) by reflexivity.
  pose proof (pow2_pos e) as Hu.
  destruct (Z.eq_dec m (2 ^ 53)) as [Htop|Hnot].
  - assert (El : ilog2 (roundPositive x) = (e + 53)%Z).
    { apply ilog2_unique.
      - rewrite Er, Htop, <- pow2_inject, <- pow2_plus by lia.
        apply pow2_le. lia.
      - rewrite Er, Htop, <- pow2_inject, <- pow2_plus by lia.
        apply pow2_lt. lia. }
    apply (roundPositive_exact _ (2 ^ 52)); [exact Hr|].
    rewrite El, Er, Htop, <- !pow2_inject by lia.
    assert (H : (e + 53 - 52 = 1 + e)%Z) by lia. rewrite H.
    rewrite (pow2_plus 1 e). change (2 ^ 53) with (2 ^ 52 * 2 ^ 1).
    field. apply Qnot_eq_sym, Qlt_not_eq. exact Hu.
  - assert (El : ilog2 (roundPositive x) = (e + 52)%Z).
    { apply ilog2_unique.
      - rewrite Er. rewrite (Z.add_comm e 52), pow2_plus.
        apply Qmult_le_compat_r; [|apply Qlt_le_weak; exact Hu].
        rewrite (pow2_inject 52) by lia. rewrite <- Zle_Qle. exact Hlo.
      - rewrite Er.
        assert (H : (e + 52 + 1 = 53 + e)%Z) by lia. rewrite H, pow2_plus.
        apply Qmult_lt_r; [exact Hu|].
        rewrite (pow2_inject 53) by lia. rewrite <- Zlt_Qlt. lia. }
    apply (roundPositive_exact _ m); [exact Hr|].
    rewrite El, Er. assert (H : (e + 52 - 52 = e)%Z) by lia. rewrite H.
    field. apply Qnot_eq_sym, Qlt_not_eq. exact Hu.
Qed.

Lemma Qnum_pos_iff x : (0 < Qnum x)%Z <-> 0 < x.
Proof. destruct x as [n d]. unfold Qlt. simpl. lia. Qed.

Lemma Qnum_neg_iff x : (Qnum x < 0)%Z <-> x < 0.
Proof. destruct x as [n d]. unfold Qlt. simpl. lia. Qed.

Lemma theNumberValueFor_pos x : 0 < x -> theNumberValueFor x = Qred (roundPositive x).
Proof.
  intros Hx. apply Qnum_pos_iff in Hx. unfold theNumberValueFor.
  destruct (Qnum x); try lia. reflexivity.
Qed.

Lemma theNumberValueFor_neg x :
  x < 0 -> theNumberValueFor x = Qred (- roundPositive (- x)).
Proof.
  intros Hx. apply Qnum_neg_iff in Hx. unfold theNumberValueFor.
  destruct (Qnum x); try lia. reflexivity.
Qed.

Lemma theNumberValueFor_zero x : x == 0 -> theNumberValueFor x = 0.
Proof.
  intros Hx. unfold theNumberValueFor. destruct x as [n d].
  unfold Qeq in Hx. simpl in *. destruct n; try lia. reflexivity.
Qed.

Lemma theNumberValueFor_comp x y : x == y -> theNumberValueFor x = theNumberValueFor y.
Proof.
  intros H. destruct (Q_dec x 0) as [[Hneg|Hpos]|Hzero].
  - rewrite (theNumberValueFor_neg x Hneg), (theNumberValueFor_neg y) by (rewrite <- H; exact Hneg).
    apply Qred_complete. apply Qopp_comp. apply roundPositive_comp; [lra|].
    rewrite H. reflexivity.
  - rewrite (theNumberValueFor_pos x Hpos), (theNumberValueFor_pos y) by (rewrite <- H; exact Hpos).
    apply Qred_complete. apply roundPositive_comp; assumption.
  - rewrite (theNumberValueFor_zero x Hzero), (theNumberValueFor_zero y) by (rewrite <- H; exact Hzero).
    reflexivity.
Qed.

Lemma theNumberValueFor_sign x :
  (0 < x -> 0 < theNumberValueFor x) /\ (x < 0 -> theNumberValueFor x < 0).
Proof.
  split; intros Hx.
  - rewrite (theNumberValueFor_pos x Hx), Qred_correct. apply roundPositive_pos. exact Hx.
  - rewrite (theNumberValueFor_neg x Hx), Qred_correct.
    assert (H : 0 < roundPositive (- x)) by (apply roundPositive_pos; lra). lra.
Qed.

(** Rounding keeps the order. *)
Lemma theNumberValueFor_le x y : x <= y -> theNumberValueFor x <= theNumberValueFor y.
Proof.
  intros Hxy.
  destruct (Q_dec x 0) as [[Hx|Hx]|Hx]; destruct (Q_dec y 0) as [[Hy|Hy]|Hy];
    try (exfalso; lra).
  - rewrite (theNumberValueFor_neg x Hx), (theNumberValueFor_neg y Hy), !Qred_correct.
    assert (H : roundPositive (- y) <= roundPositive (- x))
      by (apply roundPositive_le; lra).
    lra.
  - pose proof (proj2 (theNumberValueFor_sign x) Hx).
    pose proof (proj1 (theNumberValueFor_sign y) Hy). lra.
  - pose proof (proj2 (theNumberValueFor_sign x) Hx).
    rewrite (theNumberValueFor_zero y Hy). lra.
  - rewrite (theNumberValueFor_pos x Hx), (theNumberValueFor_pos y Hy), !Qred_correct.
    apply roundPositive_le; assumption.
  - rewrite (theNumberValueFor_zero x Hx).
    pose proof (proj1 (theNumberValueFor_sign y) Hy). lra.
  - rewrite (theNumberValueFor_zero x Hx), (theNumberValueFor_zero y Hy). lra.
Qed.

(** A Number stays what it is. *)
Lemma theNumberValueFor_idempotent x :
  theNumberValueFor (theNumberValueFor x) = theNumberValueFor x.
Proof.
  destruct (Q_dec x 0) as [[Hx|Hx]|Hx].
  - pose proof (proj2 (theNumberValueFor_sign x) Hx) as Hr.
    rewrite (theNumberValueFor_neg _ Hr).
    rewrite (theNumberValueFor_neg x Hx) at 2. apply Qred_complete.
    apply Qopp_comp.
    assert (Hp : 0 < roundPositive (- x)) by (apply roundPositive_pos; lra).
    apply Qeq_trans with (roundPositive (roundPositive (- x)));
      [|apply roundPositive_idempotent; lra].
    apply roundPositive_comp; [lra|].
    rewrite (theNumberValueFor_neg x Hx), Qred_correct. ring.
  - pose proof (proj1 (theNumberValueFor_sign x) Hx) as Hr.
    rewrite (theNumberValueFor_pos _ Hr).
    rewrite (theNumberValueFor_pos x Hx) at 2. apply Qred_complete.
    apply Qeq_trans with (roundPositive (roundPositive x));
      [|apply roundPositive_idempotent; exact Hx].
    apply roundPositive_comp; [exact Hr|].
    rewrite (theNumberValueFor_pos x Hx), Qred_correct. reflexivity.
  - rewrite (theNumberValueFor_zero x Hx). reflexivity.
Qed.

Lemma Qred_inject_Z z : Qred (inject_Z z) = inject_Z z.
Proof. apply Qred_identity. simpl. apply Z.gcd_1_r. Qed.



(** Whole numbers up to 2^53 are Numbers. *)
Lemma roundPositive_small n :
  (0 < n <= 2 ^ 53)%Z -> roundPositive (inject_Z n) == inject_Z n.
Proof.
  intros [Hn Hmax].
  assert (Hx : 0 < inject_Z n) by (change 0 with (inject_Z 0); rewrite <- Zlt_Qlt; exact Hn).
  destruct (ilog2_spec _ Hx) as [Hlo _].
  assert (Hl : (ilog2 (inject_Z n) <= 53)%Z).
  { apply (Qpower_le_compat_l_inv 2); [|reflexivity].
    eapply Qle_trans; [exact Hlo|]. rewrite (pow2_inject 53) by lia.
    rewrite <- Zle_Qle. exact Hmax. }
  set (e := (ilog2 (inject_Z n) - 52)%Z).
  pose proof (pow2_pos e) as Hu.
  destruct (Z_le_gt_dec e 0) as [He|He].
  - apply (roundPositive_exact _ (n * 2 ^ (- e))); [exact Hx|].
    fold e. rewrite inject_Z_mult, <- (pow2_inject (- e)) by lia.
    assert (E : 2 ^ (- e) * 2 ^ e == 1).
    { rewrite <- pow2_plus. assert (H : (- e + e = 0)%Z) by lia. rewrite H. reflexivity. }
    apply (Qmult_inj_r _ _ (2 ^ e)); [lra|].
    rewrite <- Qmult_assoc, E. field. lra.
  - assert (He1 : e = 1%Z) by lia.
    assert (Hn53 : n = (2 ^ 53)%Z).
    { assert (H : (2 ^ 53 <= n)%Z); [|lia].
      rewrite Zle_Qle, <- (pow2_inject 53) by lia.
      assert (H : ilog2 (inject_Z n) = 53%Z) by lia. rewrite <- H. exact Hlo. }
    apply (roundPositive_exact _ (2 ^ 52)); [exact Hx|].
    fold e. rewrite He1, Hn53. reflexivity.
Qed.

Lemma theNumberValueFor_small n :
  (- 2 ^ 53 <= n <= 2 ^ 53)%Z -> theNumberValueFor (inject_Z n) = inject_Z n.
Proof.
  intros Hn. destruct (Z.lt_trichotomy n 0) as [Hneg|[->|Hpos]].
  - assert (Hx : inject_Z n < 0) by (change 0 with (inject_Z 0); rewrite <- Zlt_Qlt; exact Hneg).
    rewrite (theNumberValueFor_neg _ Hx).
    transitivity (Qred (inject_Z n)); [|apply Qred_inject_Z].
    apply Qred_complete.
    assert (H : roundPositive (- inject_Z n) == inject_Z (- n)).
    { rewrite <- (roundPositive_small (- n)) by lia.
      apply roundPositive_comp; [lra|]. rewrite inject_Z_opp. reflexivity. }
    rewrite H, inject_Z_opp. ring.
  - reflexivity.
  - assert (Hx : 0 < inject_Z n) by (change 0 with (inject_Z 0); rewrite <- Zlt_Qlt; exact Hpos).
    rewrite (theNumberValueFor_pos _ Hx).
    transitivity (Qred (inject_Z n)); [|apply Qred_inject_Z].
    apply Qred_complete. apply roundPositive_small. lia.
Qed.

End Rounding.

(** ** What rounding keeps *)

Section Numbers.

Local Open Scope Q_scope.

Lemma isNumber_theNumberValueFor x : isNumber (theNumberValueFor x).
Proof. apply theNumberValueFor_idempotent. Qed.


Lemma theNumberValueFor_nonneg x : 0 <= x -> 0 <= theNumberValueFor x.
Proof.
  intros Hx. change 0 with (theNumberValueFor 0) at 1.
  apply theNumberValueFor_le. exact Hx.
Qed.


Lemma Number_add_zero t : isNumber t -> Number_add t 0 = t.
Proof.
  intros Ht. unfold Number_add, isNumber in *.
  transitivity (theNumberValueFor t); [|exact Ht].
  apply theNumberValueFor_comp. ring.
Qed.

Lemma Number_add_nonneg t a : 0 <= t -> 0 <= a -> 0 <= Number_add t a.
Proof. intros Ht Ha. apply theNumberValueFor_nonneg. lra. Qed.


Lemma Number_add_exact t a z :
  t + a == inject_Z z -> (- 2 ^ 53 <= z <= 2 ^ 53)%Z -> Number_add t a == t + a.
Proof.
  intros Hsum Hz. unfold Number_add.
  rewrite (theNumberValueFor_comp _ _ Hsum), (theNumberValueFor_small z Hz), Hsum.
  reflexivity.
Qed.

(** Below 2^53 a whole number plus one is a number again. *)
Lemma ceiling_plus_one_kept c z :
  c == inject_Z z -> (- 2 ^ 53 <= z < 2 ^ 53)%Z -> c < theNumberValueFor (c + 1).
Proof.
  intros Hc Hz.
  assert (Hsum : c + 1 == inject_Z (z + 1)).
  { rewrite Hc, inject_Z_plus. reflexivity. }
  rewrite (theNumberValueFor_comp _ _ Hsum), (theNumberValueFor_small (z + 1)) by lia.
  rewrite Hc, <- Zlt_Qlt. lia.
Qed.

End Numbers.

(** ** Conversions *)

Section Conversions.

Variable env : Env.

(** Whatever the conversion to a string throws is the [TypeError] of an
    object that has no primitive value. *)
Lemma ToString_throws v err :
  ToString env v = inl err ->
  err = TypeError "Cannot convert object to primitive value".
Proof.
  revert err. induction v as [| |b|q| |s|elems IH|props|name]
    using JsValue_elements_ind; intros err; try discriminate.
  - destruct b; discriminate.
  - cbn [ToString]. induction IH as [|e rest He _ IHrest]; [discriminate|].
    cbn [joinElements]. fold (joinElements (ToString env) rest).
    destruct (nullish e).
    + destruct rest as [|e' rest']; [discriminate|].
      destruct (joinElements (ToString env) (e' :: rest')) as [err'|t];
        [|discriminate].
      intros [= <-]. apply IHrest. reflexivity.
    + destruct (ToString env e) as [err'|s'] eqn:Hs.
      { intros [= <-]. apply He. reflexivity. }
      destruct rest as [|e' rest']; [discriminate|].
      destruct (joinElements (ToString env) (e' :: rest')) as [err'|t];
        [|discriminate].
      intros [= <-]. apply IHrest. reflexivity.
  - cbn [ToString]. destruct (lookupProp "toString" props); [|discriminate].
    intros [= <-]. reflexivity.
Qed.

Lemma ToNumber_throws v err :
  ToNumber env v = inl err ->
  err = TypeError "Cannot convert object to primitive value".
Proof.
  unfold ToNumber. destruct v; try discriminate;
    destruct (ToString env _) as [e|s] eqn:Hs; try discriminate;
    intros [= <-]; apply (ToString_throws _ _ Hs).
Qed.

(** What converts to a number converts to a string. *)
Lemma ToNumber_convertible v n : ToNumber env v = inr n -> convertible env v.
Proof.
  unfold ToNumber, convertible. destruct v; try (intros _; eexists; reflexivity).
  - destruct b; intros _; eexists; reflexivity.
  - destruct (ToString env (JArr elems)) as [e|s]; [discriminate|]. eauto.
  - destruct (ToString env (JObj props)) as [e|s]; [discriminate|]. eauto.
Qed.

End Conversions.

(** ** Generic facts about the pipeline *)

Section Facts.

Variable cfg : Config.
Variable env : Env.

Lemma isRequest_getProp c method :
  isRequest c method -> getProp c "method" = inr (JStr method).
Proof.
  unfold isRequest, getProp. destruct c; simpl; try discriminate.
  intros ->. reflexivity.
Qed.

Lemma isRequest_params c method :
  isRequest c method -> getProp c "params" = inr (ownProp c "params").
Proof.
  unfold isRequest, getProp. destruct c; simpl; try discriminate. reflexivity.
Qed.

Lemma decryptNwcRequestContent_ok ev c w :
  decryptsTo cfg env ev c ->
  decryptNwcRequestContent cfg env (event_content ev) w = (inr c, w).
Proof.
  intros (plaintext & Hd & Hp). unfold decryptNwcRequestContent. unfold_M.
  rewrite Hd, Hp. reflexivity.
Qed.

(** An authenticated request goes to the dispatcher and nothing else
    happens in the first [try] block. *)
Lemma processRequest_dispatch ev c w :
  decryptsTo cfg env ev c ->
  event_pubkey ev = NWC_CONNECTION_PUBKEY cfg ->
  processRequest cfg env ev w =
    match dispatch cfg env c w with
    | (inl err, w2) =>
        ({| errorCode := Some (message err); result := JNull;
            nwcRequestContent := c |}, w2)
    | (inr (code, res), w2) =>
        ({| errorCode := code; result := res; nwcRequestContent := c |}, w2)
    end.
Proof.
  intros Hd Hp. unfold processRequest.
  rewrite (decryptNwcRequestContent_ok _ _ _ Hd).
  rewrite Hp, String.eqb_refl. simpl. unfold_M. reflexivity.
Qed.

(** Response construction touches neither the state nor Strike. *)
Lemma respond_frame ev l w :
  let w' := snd (respond cfg env ev l w) in
  sameState w w' /\ strikeCalls w' = strikeCalls w.
Proof.
  unfold respond, makeNwcResponseEvent, sameState. unfold_M. simpl.
  destruct (responseContent cfg env _ _ _) as [err|body]; simpl; [tauto|].
  destruct (encrypt env _ _ _) as [err|ct]; simpl; [tauto|].
  destruct (finalizeEvent env _ _) as [err|[[pk id] sg]]; simpl; tauto.
Qed.

Lemma handleNwcRequest_eq ev w :
  handleNwcRequest cfg env ev w
  = snd (respond cfg env ev (fst (processRequest cfg env ev w))
                            (snd (processRequest cfg env ev w))).
Proof.
  unfold handleNwcRequest. destruct (processRequest cfg env ev w). reflexivity.
Qed.

Lemma Qgtb_true a b : Qgtb a b = true <-> (b < a)%Q.
Proof.
  unfold Qgtb. rewrite negb_true_iff, <- not_true_iff_false, Qle_bool_iff.
  split; [apply Qnot_le_lt | apply Qlt_not_le].
Qed.

Lemma Qgtb_false a b : Qgtb a b = false <-> (a <= b)%Q.
Proof.
  unfold Qgtb. rewrite negb_false_iff, Qle_bool_iff. reflexivity.
Qed.

(** What [handlePayInvoiceRequest] does once the amount is derived. *)
Lemma handlePayInvoiceRequest_rejects c amount w :
  isRequest c "pay_invoice" ->
  derivedAmount env c = inr amount ->
  (TOTAL_MAX_SEND_AMOUNT_IN_SATS cfg < Number_add (totalAmountSentInSats w) amount)%Q ->
  handlePayInvoiceRequest cfg env c w = (inl (Error QUOTA_EXCEEDED), w).
Proof.
  intros Hm Ha Hq. unfold handlePayInvoiceRequest. unfold_M.
  rewrite (isRequest_params _ _ Hm). fold (invoiceOf c).
  unfold derivedAmount in Ha.
  destruct (truthy (invoiceOf c)).
  - rewrite Ha. apply Qgtb_true in Hq. rewrite Hq. reflexivity.
  - injection Ha as <-. apply Qgtb_true in Hq. rewrite Hq. reflexivity.
Qed.

Lemma dispatch_pay_invoice c w :
  isRequest c "pay_invoice" ->
  dispatch cfg env c w =
    match handlePayInvoiceRequest cfg env c w with
    | (inl err, w') => (inl err, w')
    | (inr res, w') => (inr (None, res), w')
    end.
Proof.
  intros Hm. unfold dispatch. unfold_M.
  rewrite (isRequest_getProp _ _ Hm). reflexivity.
Qed.

End Facts.

(** ** C1: a payment over the quota *)

(** C1. A [pay_invoice] request is refused with [QUOTA_EXCEEDED] whenever
    the sum the program computes, the derived amount (the amount embedded in
    its invoice) added to [totalAmountSentInSats] and rounded to a number,
    exceeds [TOTAL_MAX_SEND_AMOUNT_IN_SATS]; the computed sum is the exact one
    when that is a whole number up to 2^53.  No function of [strike.js] is
    called and the total is unchanged, both when the handler returns and when
    the response has been sent. *)
Theorem pay_invoice_over_quota cfg env ev w c amount :
  decryptsTo cfg env ev c ->
  event_pubkey ev = NWC_CONNECTION_PUBKEY cfg ->
  isRequest c "pay_invoice" ->
  derivedAmount env c = inr amount ->
  (TOTAL_MAX_SEND_AMOUNT_IN_SATS cfg < Number_add (totalAmountSentInSats w) amount)%Q
  \/ (exists z, (totalAmountSentInSats w + amount == inject_Z z)%Q
                /\ (- 2 ^ 53 <= z <= 2 ^ 53)%Z
                /\ (TOTAL_MAX_SEND_AMOUNT_IN_SATS cfg < totalAmountSentInSats w + amount)%Q) ->
  processRequest cfg env ev w
    = ({| errorCode := Some QUOTA_EXCEEDED; result := JNull; nwcRequestContent := c |}, w)
  /\ strikeCalls (handleNwcRequest cfg env ev w) = strikeCalls w
  /\ totalAmountSentInSats (handleNwcRequest cfg env ev w) = totalAmountSentInSats w.
Proof.
  intros Hd Hp Hm Ha Hover.
  assert (Hq : (TOTAL_MAX_SEND_AMOUNT_IN_SATS cfg
                < Number_add (totalAmountSentInSats w) amount)%Q).
  { destruct Hover as [Hq | (z & Hsum & Hz & Hq)]; [exact Hq|].
    rewrite (Number_add_exact _ _ z Hsum Hz). exact Hq. }
  assert (Hproc : processRequest cfg env ev w
    = ({| errorCode := Some QUOTA_EXCEEDED; result := JNull;
          nwcRequestContent := c |}, w)).
  { rewrite (processRequest_dispatch _ _ _ _ _ Hd Hp).
    rewrite (dispatch_pay_invoice _ _ _ _ Hm).
    rewrite (handlePayInvoiceRequest_rejects _ _ _ _ _ Hm Ha Hq). reflexivity. }
  split; [exact Hproc|].
  rewrite handleNwcRequest_eq, Hproc. simpl.
  destruct (respond_frame cfg env ev
              {| errorCode := Some QUOTA_EXCEEDED; result := JNull;
                 nwcRequestContent := c |} w) as [(Ht & _ & _) Hc].
  split; assumption.
Qed.

(** On the sample deployment: 2500 sat are spent, 7501 sat are asked. *)
Lemma pay_invoice_over_quota_witness :
  processRequest Sample.cfg (SampleRuns.pay "lnbc75010n1") Sample.event SampleRuns.paid2500
    = ({| errorCode := Some QUOTA_EXCEEDED; result := JNull;
          nwcRequestContent :=
            Sample.request "pay_invoice" [("invoice", JStr "lnbc75010n1")] |},
       SampleRuns.paid2500)
  /\ strikeCalls (handleNwcRequest Sample.cfg (SampleRuns.pay "lnbc75010n1") Sample.event
                                   SampleRuns.paid2500)
     = strikeCalls SampleRuns.paid2500
  /\ totalAmountSentInSats
       (handleNwcRequest Sample.cfg (SampleRuns.pay "lnbc75010n1") Sample.event
                         SampleRuns.paid2500)
     = totalAmountSentInSats SampleRuns.paid2500.
Proof.
  apply (pay_invoice_over_quota Sample.cfg (SampleRuns.pay "lnbc75010n1") Sample.event
           SampleRuns.paid2500
           (Sample.request "pay_invoice" [("invoice", JStr "lnbc75010n1")])
           7501%Q).
  - exists "ciphertext". split; reflexivity.
  - reflexivity.
  - reflexivity.
  - vm_compute. reflexivity.
  - left. vm_compute. reflexivity.
Defined.

(** C1 as stated fails where the sum is rounded away.  With a ceiling of
    2^44 sat that has been spent to the last satoshi, a request for one
    millisatoshi more exceeds the ceiling, but the sum the program computes
    is 2^44 again: the request is admitted, both Strike calls are made, and
    the total stays where it was. *)
Lemma pay_invoice_over_quota_rounded_away :
  let w := MoreSamples.spentToTheCeiling in
  let env := MoreSamples.payMsat 1 in
  let amount := Number_divide 1 1000 in
  let w1 := snd (processRequest MoreSamples.wideCfg env Sample.event w) in
  totalAmountSentInSats w = TOTAL_MAX_SEND_AMOUNT_IN_SATS MoreSamples.wideCfg
  /\ derivedAmount env (Sample.request "pay_invoice" [("invoice", JStr "lnbc")])
     = inr amount
  /\ (TOTAL_MAX_SEND_AMOUNT_IN_SATS MoreSamples.wideCfg
      < totalAmountSentInSats w + amount)%Q
  /\ errorCode (fst (processRequest MoreSamples.wideCfg env Sample.event w)) = None
  /\ strikeCalls w1
     = (strikeCalls w ++ [CreateStrikePaymentQuote (JStr "lnbc");
                          ExecuteStrikePaymentQuote (JStr "quote-1")])%list
  /\ totalAmountSentInSats w1 = totalAmountSentInSats w.
Proof.
  cbv zeta. repeat split; vm_compute; reflexivity.
Qed.

(** ** Frame reasoning: what a computation leaves alone *)

Section Preserves.

Variable R : World -> World -> Prop.
Hypothesis R_refl : forall w, R w w.
Hypothesis R_trans : forall w1 w2 w3, R w1 w2 -> R w2 w3 -> R w1 w3.

Lemma preserves_ret {A : Type} (a : A) : preserves R (mret a).
Proof. intros w. apply R_refl. Qed.

Lemma preserves_throw {A : Type} (err : Thrown) : preserves R (@throw A err).
Proof. intros w. apply R_refl. Qed.

Lemma preserves_liftM {A : Type} (r : Thrown + A) : preserves R (liftM r).
Proof. intros w. apply R_refl. Qed.

Lemma preserves_getWorld : preserves R getWorld.
Proof. intros w. apply R_refl. Qed.

Lemma preserves_bind {A B : Type} (m : M A) (f : A -> M B) :
  preserves R m -> (forall a, preserves R (f a)) -> preserves R (m ≫= f).
Proof.
  intros Hm Hf w. specialize (Hm w). unfold mbind, M_bind.
  destruct (m w) as [[err|a] w1]; simpl in *; [assumption|].
  eapply R_trans; [eassumption | apply Hf].
Qed.

Lemma preserves_try_catch {A : Type} (body : M A) (handler : Thrown -> M A) :
  preserves R body -> (forall err, preserves R (handler err)) ->
  preserves R (try_catch body handler).
Proof.
  intros Hb Hh w. specialize (Hb w). unfold try_catch.
  destruct (body w) as [[err|a] w1]; simpl in *; [|assumption].
  eapply R_trans; [eassumption | apply Hh].
Qed.

End Preserves.

Lemma keeps_refl {X : Type} (f : World -> X) w : keeps f w w.
Proof. reflexivity. Qed.

Lemma keeps_trans {X : Type} (f : World -> X) w1 w2 w3 :
  keeps f w1 w2 -> keeps f w2 w3 -> keeps f w1 w3.
Proof. unfold keeps. congruence. Qed.

(** Decomposes a frame goal along the structure of the computation; the
    primitive effects are left to [prim]. *)
Ltac frame_with R_refl R_trans prim :=
  repeat first
    [ apply (preserves_bind _ R_trans); [|intros]
    | apply (preserves_try_catch _ R_trans); [|intros]
    | apply (preserves_ret _ R_refl)
    | apply (preserves_throw _ R_refl)
    | apply (preserves_liftM _ R_refl)
    | apply (preserves_getWorld _ R_refl)
    | match goal with
      | |- preserves _ (let '(_, _) := ?x in _) => destruct x
      | |- preserves _ (if ?b then _ else _) => destruct b
      | |- preserves _ (match ?x with _ => _ end) => destruct x
      end
    | prim ].

Ltac frame_keeps f :=
  frame_with (keeps_refl f) (keeps_trans f) ltac:(intros ?; reflexivity).

Section Frames.

Variable cfg : Config.
Variable env : Env.

Lemma decryptNwcRequestContent_keeps {X : Type} (f : World -> X) content :
  (forall w line, f (snd (logger_error line w)) = f w) ->
  preserves (keeps f) (decryptNwcRequestContent cfg env content).
Proof.
  intros Hlog. unfold decryptNwcRequestContent.
  frame_with (keeps_refl f) (keeps_trans f) ltac:(intros ?; apply Hlog).
Qed.

Lemma dispatch_keeps_published c :
  preserves (keeps published) (dispatch cfg env c).
Proof.
  unfold dispatch, handlePayInvoiceRequest, handleMakeInvoiceRequest,
    handleLookupInvoiceRequest, handleGetExchangeRatesRequest,
    handleGetAccountDetailsRequest, handleGetBalanceRequest,
    handleGetTransactionsRequest, payInvoice, makeInvoice, lookupInvoice,
    getExchangeRates, getAccountDetails, getBalance, getTransactions,
    cache_set, cache_mutated.
  frame_keeps published.
Qed.

End Frames.

(** ** C2 and C3: one response per message, and the sender check *)

Section Responses.

Variable cfg : Config.
Variable env : Env.

Lemma processRequest_keeps_published ev w :
  published (snd (processRequest cfg env ev w)) = published w.
Proof.
  unfold processRequest.
  pose proof (decryptNwcRequestContent_keeps cfg env published (event_content ev)
                (fun _ _ => eq_refl) w) as Hd.
  destruct (decryptNwcRequestContent cfg env (event_content ev) w) as [[err|c] w1];
    simpl in *; [exact Hd|].
  match goal with
  | |- context [let '(_, _) := ?m w1 in _] =>
      assert (Hg : preserves (keeps published) m)
  end.
  { apply (preserves_bind _ (keeps_trans published));
      [frame_keeps published | intros; apply dispatch_keeps_published]. }
  specialize (Hg w1).
  match goal with
  | |- context [let '(_, _) := ?m w1 in _] => destruct (m w1) as [[err|[code res]] w2]
  end; simpl in *; unfold keeps in *; congruence.
Qed.

(** [makeNwcResponseEvent], step by step: the content, its encryption, the
    signature. *)
Lemma makeNwcResponseEvent_eq eventId requestMethod res code w :
  makeNwcResponseEvent cfg env eventId requestMethod res code w =
    match responseContent cfg env requestMethod res code with
    | inl err => (inl err, w)
    | inr body =>
        match encrypt env (NWC_CONNECTION_SECRET cfg) (NWC_SERVICE_PUBKEY cfg)
                      (JSON_stringify env body) with
        | inl err => (inl err, w)
        | inr ciphertext =>
            match finalizeEvent env (responseTemplate cfg env eventId ciphertext)
                                (NWC_CONNECTION_SECRET cfg) with
            | inl err => (inl err, w)
            | inr (pk, id, sig) =>
                (inr {| template := responseTemplate cfg env eventId ciphertext;
                        response_pubkey := pk; response_id := id;
                        response_sig := sig |}, w)
            end
        end
    end.
Proof.
  unfold makeNwcResponseEvent, responseTemplate. unfold_M.
  destruct (responseContent cfg env requestMethod res code) as [err|body];
    [reflexivity|].
  destruct (encrypt env _ _ _) as [err|ct]; [reflexivity|].
  destruct (finalizeEvent env _ _) as [err|[[pk id] sg]]; reflexivity.
Qed.

(** The response that is built, when it is built. *)
Lemma makeNwcResponseEvent_inr eventId requestMethod res code w resp w' :
  makeNwcResponseEvent cfg env eventId requestMethod res code w = (inr resp, w') ->
  w' = w
  /\ kind (template resp) = NWCWalletResponse
  /\ tags (template resp) = [["p"; AUTHORIZED_PUBKEY cfg]; ["e"; eventId]]
  /\ exists body,
       responseContent cfg env requestMethod res code = inr body
       /\ encrypt env (NWC_CONNECTION_SECRET cfg) (NWC_SERVICE_PUBKEY cfg)
            (JSON_stringify env body)
          = inr (content (template resp)).
Proof.
  rewrite makeNwcResponseEvent_eq.
  destruct (responseContent cfg env requestMethod res code) as [err|body];
    [discriminate|].
  destruct (encrypt env _ _ _) as [err|ct] eqn:Henc; [discriminate|].
  destruct (finalizeEvent env _ _) as [err|[[pk id] sg]]; [discriminate|].
  intros [= <- <-]. simpl. repeat split. exists body. split; [reflexivity|exact Henc].
Qed.

Lemma makeNwcResponseEvent_world eventId requestMethod res code w :
  snd (makeNwcResponseEvent cfg env eventId requestMethod res code w) = w.
Proof.
  rewrite makeNwcResponseEvent_eq.
  destruct (responseContent cfg env requestMethod res code) as [err|body];
    [reflexivity|].
  destruct (encrypt env _ _ _) as [err|ct]; [reflexivity|].
  destruct (finalizeEvent env _ _) as [err|[[pk id] sg]]; reflexivity.
Qed.

(** The content of a response cannot be built only when the text of the
    [NOT_IMPLEMENTED] message cannot: the method of the request does not
    convert to a string. *)
Lemma responseContent_inl requestMethod res code err :
  responseContent cfg env requestMethod res code = inl err ->
  code = Some NOT_IMPLEMENTED /\ ToString env requestMethod = inl err.
Proof.
  unfold responseContent, getErrorMessage.
  destruct code as [code|]; [|discriminate].
  destruct (truthy (JStr code)); [|discriminate].
  destruct (String.eqb code UNAUTHORIZED); [discriminate|].
  destruct (String.eqb_spec code NOT_IMPLEMENTED) as [->|_].
  - destruct (ToString env requestMethod) as [e|method]; [|discriminate].
    intros [= <-]. split; reflexivity.
  - repeat match goal with
           | |- context [if ?b then _ else _] => destruct b
           end; discriminate.
Qed.

Lemma responseContent_error requestMethod res code message :
  code <> EmptyString ->
  getErrorMessage cfg env requestMethod code = inr message ->
  responseContent cfg env requestMethod res (Some code)
  = inr (errorBody requestMethod code message).
Proof.
  intros Hcode Hmessage. unfold responseContent, truthy.
  apply String.eqb_neq in Hcode. rewrite Hcode, Hmessage. reflexivity.
Qed.

(** A request from any other sender stops at the sender check, or before
    it when its payload does not decrypt. *)
Lemma processRequest_unauthorized ev w :
  event_pubkey ev <> NWC_CONNECTION_PUBKEY cfg ->
  exists c line,
    processRequest cfg env ev w
    = ({| errorCode := Some UNAUTHORIZED; result := JNull; nwcRequestContent := c |},
       snd (logger_error line w)).
Proof.
  intros Hne. apply String.eqb_neq in Hne.
  unfold processRequest, decryptNwcRequestContent. unfold_M.
  destruct (decrypt env _ _ _) as [err|plaintext].
  { eexists JNull, _. reflexivity. }
  destruct (JSON_parse env plaintext) as [err|c].
  { eexists JNull, _. reflexivity. }
  rewrite Hne. simpl. eexists c, _. reflexivity.
Qed.

(** The second [try] block: the response is built and published, or its
    construction throws and the failure is logged. *)
Lemma respond_spec ev l w1 :
  let requestMethod := requestMethodOf (nwcRequestContent l) in
  (exists resp,
     makeNwcResponseEvent cfg env (event_id ev) requestMethod (result l) (errorCode l) w1
       = (inr resp, w1)
     /\ snd (respond cfg env ev l w1) = snd (relay_publish resp w1))
  \/ (exists err,
     makeNwcResponseEvent cfg env (event_id ev) requestMethod (result l) (errorCode l) w1
       = (inl err, w1)
     /\ snd (respond cfg env ev l w1)
        = snd (logger_error ("Failed to publish NWC response " +:+ errToString err) w1)).
Proof.
  intros requestMethod.
  pose proof (makeNwcResponseEvent_world (event_id ev) requestMethod
                (result l) (errorCode l) w1) as Hworld.
  unfold respond. fold requestMethod. unfold try_catch, mbind, M_bind.
  destruct (makeNwcResponseEvent cfg env (event_id ev) requestMethod
              (result l) (errorCode l) w1) as [[err|resp] w2];
    simpl in Hworld; subst w2.
  - right. exists err. split; reflexivity.
  - left. exists resp. split; [reflexivity|].
    unfold relay_publish. reflexivity.
Qed.

End Responses.





(** ** The payment handler *)

Section Payments.

Variable cfg : Config.
Variable env : Env.

(** The amount derived from a request is never negative. *)
Lemma derivedAmount_nonneg c amount :
  derivedAmount env c = inr amount -> (0 <= amount)%Q.
Proof.
  unfold derivedAmount, extractAmountInSats.
  destruct (truthy (invoiceOf c)); [|intros [= <-]; apply Qle_refl].
  destruct (lightBolt11Decoder_decode env (invoiceOf c)) as [err|sections];
    [discriminate|].
  destruct (List.find _ sections) as [s|]; [|discriminate].
  intros [= <-]. unfold Number_divide. apply theNumberValueFor_nonneg.
  assert (H : (0 <= theNumberValueFor (inject_Z (Z.of_N (value s))))%Q).
  { apply theNumberValueFor_nonneg. change 0%Q with (inject_Z 0).
    rewrite <- Zle_Qle. lia. }
  apply Qle_shift_div_l; [reflexivity|]. lra.
Qed.

(** The amount derived from a request is a number. *)
Lemma derivedAmount_isNumber c amount :
  derivedAmount env c = inr amount -> isNumber amount.
Proof.
  unfold derivedAmount, extractAmountInSats.
  destruct (truthy (invoiceOf c)); [|intros [= <-]; reflexivity].
  destruct (lightBolt11Decoder_decode env (invoiceOf c)) as [err|sections];
    [discriminate|].
  destruct (List.find _ sections) as [s|]; [|discriminate].
  intros [= <-]. apply isNumber_theNumberValueFor.
Qed.

Lemma handlePayInvoiceRequest_underivable c err w :
  isRequest c "pay_invoice" ->
  derivedAmount env c = inl err ->
  handlePayInvoiceRequest cfg env c w = (inl err, w).
Proof.
  intros Hm Ha. unfold handlePayInvoiceRequest. unfold_M.
  rewrite (isRequest_params _ _ Hm). fold (invoiceOf c).
  unfold derivedAmount in Ha.
  destruct (truthy (invoiceOf c)); [|discriminate].
  rewrite Ha. reflexivity.
Qed.

(** An admitted payment: the provider is called with the invoice of the
    request; the total moves only when both calls have resolved. *)
Lemma handlePayInvoiceRequest_admitted c amount w :
  isRequest c "pay_invoice" ->
  derivedAmount env c = inr amount ->
  (Number_add (totalAmountSentInSats w) amount <= TOTAL_MAX_SEND_AMOUNT_IN_SATS cfg)%Q ->
  handlePayInvoiceRequest cfg env c w =
    match payInvoice env (invoiceOf c) w with
    | (inr receipt, w1) =>
        (inr (JObj [("preimage", JStr "gfy")]),
         snd (set_totalAmountSentInSats (Number_add (totalAmountSentInSats w) amount) w1))
    | (inl err, w1) =>
        (inl (Error PAYMENT_FAILED),
         snd (logger_error ("Error making payment: " +:+ errToString err) w1))
    end.
Proof.
  intros Hm Ha Hq. unfold handlePayInvoiceRequest.
  unfold mbind at 1, M_bind at 1, liftM at 1.
  rewrite (isRequest_params _ _ Hm). fold (invoiceOf c).
  apply Qgtb_false in Hq.
  assert (Hamount :
    (if truthy (invoiceOf c)
     then liftM (extractAmountInSats env (invoiceOf c)) else mret 0%Q) w
    = (inr amount, w)).
  { unfold derivedAmount in Ha. destruct (truthy (invoiceOf c)).
    - unfold liftM. rewrite Ha. reflexivity.
    - injection Ha as <-. reflexivity. }
  unfold mbind at 1, M_bind at 1. rewrite Hamount.
  unfold mbind at 1, M_bind at 1, getWorld at 1. rewrite Hq.
  unfold payInvoice. unfold_M.
  destruct (createStrikePaymentQuote (strike env) (invoiceOf c)) as [err|quoteId];
    [reflexivity|].
  destruct (executeStrikePaymentQuote (strike env) quoteId) as [err|receipt];
    reflexivity.
Qed.

(** The six other handlers never touch the total. *)
Lemma other_handlers_keep_total c :
  preserves (keeps totalAmountSentInSats) (handleMakeInvoiceRequest env c)
  /\ preserves (keeps totalAmountSentInSats) (handleLookupInvoiceRequest env c)
  /\ preserves (keeps totalAmountSentInSats) (handleGetExchangeRatesRequest cfg env c)
  /\ preserves (keeps totalAmountSentInSats) (handleGetAccountDetailsRequest env)
  /\ preserves (keeps totalAmountSentInSats) (handleGetBalanceRequest env)
  /\ preserves (keeps totalAmountSentInSats) (handleGetTransactionsRequest env c).
Proof.
  unfold handleMakeInvoiceRequest, handleLookupInvoiceRequest,
    handleGetExchangeRatesRequest, handleGetAccountDetailsRequest,
    handleGetBalanceRequest, handleGetTransactionsRequest, makeInvoice,
    lookupInvoice, getExchangeRates, getAccountDetails, getBalance,
    getTransactions, cache_set, cache_mutated.
  repeat split; frame_keeps totalAmountSentInSats.
Qed.

End Payments.

(** ** How one request moves the total *)

Section Totals.

Variable cfg : Config.
Variable env : Env.

Lemma decryptsTo_fun ev c c' :
  decryptsTo cfg env ev c -> decryptsTo cfg env ev c' -> c = c'.
Proof.
  intros (p & Hd & Hp) (p' & Hd' & Hp'). congruence.
Qed.

Lemma isRequest_strictEqStr c method :
  isRequest c method -> strictEqStr (ownProp c "method") method = true.
Proof.
  unfold isRequest. intros ->. simpl. apply String.eqb_refl.
Qed.

Lemma strictEqStr_isRequest c method :
  strictEqStr (ownProp c "method") method = true -> isRequest c method.
Proof.
  unfold isRequest. destruct (ownProp c "method"); simpl; try discriminate.
  intros H. apply String.eqb_eq in H. congruence.
Qed.

Lemma dispatch_other_keeps_total c :
  strictEqStr (ownProp c "method") "pay_invoice" = false ->
  preserves (keeps totalAmountSentInSats) (dispatch cfg env c).
Proof.
  intros Hnot w.
  destruct (other_handlers_keep_total cfg env c) as (H1 & H2 & H3 & H4 & H5 & H6).
  unfold dispatch, getProp.
  destruct (nullish c); [reflexivity|].
  unfold mbind at 1, M_bind at 1, liftM at 1. rewrite Hnot.
  revert w.
  match goal with
  | |- forall w, keeps ?f w (snd (?m w)) => change (preserves (keeps f) m)
  end.
  repeat match goal with
         | |- preserves _ (if ?b then _ else _) => destruct b
         end.
  all: try (apply (preserves_bind _ (keeps_trans totalAmountSentInSats));
            [assumption
            |intros; apply (preserves_ret _ (keeps_refl totalAmountSentInSats))]).
  apply (preserves_ret _ (keeps_refl totalAmountSentInSats)).
Qed.

Lemma decrypt_or_not ev :
  (exists c, decryptsTo cfg env ev c)
  \/ (forall c, ~ decryptsTo cfg env ev c).
Proof.
  unfold decryptsTo.
  destruct (decrypt env (NWC_CONNECTION_SECRET cfg) (NWC_SERVICE_PUBKEY cfg)
              (event_content ev)) as [err|plaintext] eqn:Hd.
  { right. intros c (p & H & _). discriminate. }
  destruct (JSON_parse env plaintext) as [err|c] eqn:Hp.
  { right. intros c (p & H & H'). congruence. }
  left. exists c, plaintext. auto.
Qed.

Lemma processRequest_undecryptable ev w :
  (forall c, ~ decryptsTo cfg env ev c) ->
  exists line,
    processRequest cfg env ev w
    = ({| errorCode := Some UNAUTHORIZED; result := JNull; nwcRequestContent := JNull |},
       snd (logger_error line w)).
Proof.
  intros Hnone. unfold processRequest, decryptNwcRequestContent. unfold_M.
  destruct (decrypt env _ _ _) as [err|plaintext] eqn:Hd.
  { eexists. reflexivity. }
  destruct (JSON_parse env plaintext) as [err|c] eqn:Hp.
  { eexists. reflexivity. }
  exfalso. apply (Hnone c). exists plaintext. auto.
Qed.

(** One request either is a confirmed payment, which adds its amount to the
    total after the two Strike calls, or leaves the total as it was; an
    authenticated [pay_invoice] request of the second kind has failed. *)
Lemma processRequest_total ev w :
  let l := fst (processRequest cfg env ev w) in
  let w1 := snd (processRequest cfg env ev w) in
  (exists c amount,
     paymentConfirmed cfg env ev w c amount
     /\ l = {| errorCode := None; result := JObj [("preimage", JStr "gfy")];
               nwcRequestContent := c |}
     /\ totalAmountSentInSats w1 = (Number_add (totalAmountSentInSats w) amount)
     /\ exists quoteId,
          strikeCalls w1
          = (strikeCalls w ++ [CreateStrikePaymentQuote (invoiceOf c);
                               ExecuteStrikePaymentQuote quoteId])%list)
  \/ (totalAmountSentInSats w1 = totalAmountSentInSats w
      /\ forall c, decryptsTo cfg env ev c ->
                   event_pubkey ev = NWC_CONNECTION_PUBKEY cfg ->
                   isRequest c "pay_invoice" -> errorCode l <> None).
Proof.
  cbv zeta.
  destruct (decrypt_or_not ev) as [[c Hd]|Hnone].
  2: { destruct (processRequest_undecryptable ev w Hnone) as (line & ->).
       right. split; [reflexivity|]. intros c Hd. destruct (Hnone c Hd). }
  destruct (String.eqb_spec (event_pubkey ev) (NWC_CONNECTION_PUBKEY cfg)) as [Hp|Hp].
  2: { destruct (processRequest_unauthorized cfg env ev w Hp) as (c' & line & ->).
       right. split; [reflexivity|]. intros; contradiction. }
  rewrite (processRequest_dispatch cfg env ev c w Hd Hp).
  destruct (strictEqStr (ownProp c "method") "pay_invoice") eqn:Hpay.
  - apply strictEqStr_isRequest in Hpay.
    rewrite (dispatch_pay_invoice cfg env c w Hpay).
    destruct (derivedAmount env c) as [err|amount] eqn:Ha.
    { rewrite (handlePayInvoiceRequest_underivable cfg env c err w Hpay Ha).
      right. simpl. split; [reflexivity|discriminate]. }
    destruct (Qlt_le_dec (TOTAL_MAX_SEND_AMOUNT_IN_SATS cfg)
                (Number_add (totalAmountSentInSats w) amount)) as [Hover|Hadmit].
    { rewrite (handlePayInvoiceRequest_rejects cfg env c amount w Hpay Ha Hover).
      right. simpl. split; [reflexivity|discriminate]. }
    rewrite (handlePayInvoiceRequest_admitted cfg env c amount w Hpay Ha Hadmit).
    unfold payInvoice. unfold_M.
    destruct (createStrikePaymentQuote (strike env) (invoiceOf c))
      as [err|quoteId] eqn:Hcreate.
    { right. simpl. split; [reflexivity|discriminate]. }
    destruct (executeStrikePaymentQuote (strike env) quoteId)
      as [err|receipt] eqn:Hexec.
    { right. simpl. split; [reflexivity|discriminate]. }
    left. exists c, amount. simpl. repeat split; try assumption.
    + exists quoteId, receipt. auto.
    + exists quoteId. rewrite <- app_assoc. reflexivity.
  - right. pose proof (dispatch_other_keeps_total c Hpay w) as Hkeep.
    unfold keeps in Hkeep.
    destruct (dispatch cfg env c w) as [[err|[code res]] w2]; simpl in *.
    + split; [assumption|discriminate].
    + split; [assumption|]. intros c' Hd' _ Hm.
      rewrite (decryptsTo_fun ev c' c Hd' Hd) in Hm.
      apply isRequest_strictEqStr in Hm. congruence.
Qed.

End Totals.

(** ** C7 and C8: the running total *)

Section RunningTotal.

Variable cfg : Config.

Lemma handleNwcRequest_total env ev w :
  totalAmountSentInSats (handleNwcRequest cfg env ev w)
  = totalAmountSentInSats (snd (processRequest cfg env ev w)).
Proof.
  rewrite handleNwcRequest_eq.
  destruct (respond_frame cfg env ev (fst (processRequest cfg env ev w))
              (snd (processRequest cfg env ev w))) as [(Ht & _) _].
  exact Ht.
Qed.

Lemma successfulPayment_total env ev w amount :
  successfulPayment cfg env ev w amount ->
  totalAmountSentInSats (handleNwcRequest cfg env ev w)
  = (Number_add (totalAmountSentInSats w) amount).
Proof.
  intros (c & Hd & Hp & Hm & Ha & Hok). rewrite handleNwcRequest_total.
  destruct (processRequest_total cfg env ev w) as
    [(c' & amount' & Hconf & _ & Ht & _) | (_ & Hfail)].
  - destruct Hconf as (Hd' & _ & _ & Ha' & _).
    rewrite (decryptsTo_fun cfg env ev c' c Hd' Hd) in Ha'.
    assert (amount' = amount) by congruence. subst amount'. exact Ht.
  - destruct (Hfail c Hd Hp Hm Hok).
Qed.

Lemma other_request_total env ev w :
  (forall amount, ~ successfulPayment cfg env ev w amount) ->
  totalAmountSentInSats (handleNwcRequest cfg env ev w) = totalAmountSentInSats w.
Proof.
  intros Hother. rewrite handleNwcRequest_total.
  destruct (processRequest_total cfg env ev w) as
    [(c & amount & Hconf & Hl & _) | (Ht & _)]; [|exact Ht].
  destruct Hconf as (Hd & Hp & Hm & Ha & _).
  destruct (Hother amount). exists c. rewrite Hl. auto.
Qed.

Lemma history_total w amounts w' :
  history cfg w amounts w' ->
  totalAmountSentInSats w' = fold_left Number_add amounts (totalAmountSentInSats w).
Proof.
  induction 1 as [w | env ev w amount amounts w' Hpaid _ IH
                    | env ev w amounts w' Hother _ IH].
  - reflexivity.
  - rewrite IH, (successfulPayment_total _ _ _ _ Hpaid). reflexivity.
  - rewrite IH, (other_request_total _ _ _ Hother). reflexivity.
Qed.

(** The amounts of a history are those of invoices: none is negative. *)
Lemma history_amounts w amounts w' :
  history cfg w amounts w' -> Forall (fun amount => (0 <= amount)%Q) amounts.
Proof.
  induction 1 as [w | env ev w amount amounts w' Hpaid _ IH
                    | env ev w amounts w' Hother _ IH];
    [constructor| |exact IH].
  constructor; [|exact IH].
  destruct Hpaid as (c & _ & _ & _ & Ha & _).
  apply (derivedAmount_nonneg env c amount Ha).
Qed.

End RunningTotal.

(** Sums of whole numbers are exact as long as they stay below 2^53. *)
Section ExactSums.

Local Open Scope Q_scope.

Lemma fold_Qplus_comp amounts t t' :
  t == t' -> fold_left Qplus amounts t == fold_left Qplus amounts t'.
Proof.
  revert t t'. induction amounts as [|a rest IH]; intros t t' Ht; [exact Ht|].
  simpl. apply IH. rewrite Ht. reflexivity.
Qed.

Lemma fold_Qplus_le amounts t :
  Forall (fun amount => 0 <= amount) amounts -> t <= fold_left Qplus amounts t.
Proof.
  revert t. induction amounts as [|a rest IH]; intros t Hpos; [apply Qle_refl|].
  apply Forall_cons in Hpos as [Ha Hrest]. simpl.
  eapply Qle_trans; [|apply IH; exact Hrest]. lra.
Qed.

Lemma fold_Number_add_exact amounts t :
  whole t -> 0 <= t ->
  Forall whole amounts ->
  Forall (fun amount => 0 <= amount) amounts ->
  fold_left Qplus amounts t <= inject_Z (2 ^ 53) ->
  fold_left Number_add amounts t == fold_left Qplus amounts t.
Proof.
  revert t. induction amounts as [|a rest IH]; intros t Ht Hpos Hwhole Hnonneg Hmax;
    [reflexivity|].
  apply Forall_cons in Hwhole as [Ha Hrest].
  apply Forall_cons in Hnonneg as [Ha0 Hrest0].
  cbn [fold_left] in *.
  destruct Ht as [z Hz]. destruct Ha as [z' Hz'].
  assert (Hsum : t + a == inject_Z (z + z')).
  { rewrite inject_Z_plus, Hz, Hz'. reflexivity. }
  pose proof (fold_Qplus_le rest (t + a) Hrest0) as Hle.
  assert (Hrange : (- 2 ^ 53 <= z + z' <= 2 ^ 53)%Z).
  { split.
    - assert (H : inject_Z 0 <= inject_Z (z + z')).
      { rewrite <- Hsum. change (inject_Z 0) with 0. lra. }
      rewrite <- Zle_Qle in H. lia.
    - rewrite Zle_Qle, <- Hsum. lra. }
  pose proof (Number_add_exact t a (z + z') Hsum Hrange) as Hexact.
  rewrite <- (fold_Qplus_comp rest _ _ Hexact).
  apply IH; try assumption.
  - exists (z + z')%Z. rewrite Hexact. exact Hsum.
  - rewrite Hexact. lra.
  - rewrite (fold_Qplus_comp rest _ _ Hexact). exact Hmax.
Qed.

End ExactSums.

(** C7. Starting from a total of zero, after a sequence of requests, handled
    in turn, whose successful payments had the derived amounts
    [a1, ..., aN], in this order, [totalAmountSentInSats] is the sum the
    program has accumulated: each amount added in its turn and the result
    rounded to a number.  It is [a1 + ... + aN] when the amounts are whole
    and their sum is at most 2^53.  A following [pay_invoice] request whose
    derived amount is the ceiling minus the total plus one is rejected with
    [QUOTA_EXCEEDED], without any call to Strike and without moving the
    total, provided that the ceiling plus one is not rounded back to the
    ceiling, as is the case for every whole ceiling below 2^53. *)
Theorem total_is_sum_of_payments cfg w0 amounts w :
  totalAmountSentInSats w0 = 0%Q ->
  history cfg w0 amounts w ->
  totalAmountSentInSats w = fold_left Number_add amounts 0%Q
  /\ (Forall whole amounts ->
      (fold_left Qplus amounts 0 <= inject_Z (2 ^ 53))%Q ->
      (totalAmountSentInSats w == fold_left Qplus amounts 0)%Q)
  /\ forall env ev c amount,
       decryptsTo cfg env ev c ->
       event_pubkey ev = NWC_CONNECTION_PUBKEY cfg ->
       isRequest c "pay_invoice" ->
       derivedAmount env c = inr amount ->
       (amount == TOTAL_MAX_SEND_AMOUNT_IN_SATS cfg - totalAmountSentInSats w + 1)%Q ->
       (TOTAL_MAX_SEND_AMOUNT_IN_SATS cfg
        < theNumberValueFor (TOTAL_MAX_SEND_AMOUNT_IN_SATS cfg + 1))%Q
       \/ (exists z, (TOTAL_MAX_SEND_AMOUNT_IN_SATS cfg == inject_Z z)%Q
                     /\ (- 2 ^ 53 <= z < 2 ^ 53)%Z) ->
       processRequest cfg env ev w
         = ({| errorCode := Some QUOTA_EXCEEDED; result := JNull;
               nwcRequestContent := c |}, w)
       /\ strikeCalls (handleNwcRequest cfg env ev w) = strikeCalls w
       /\ totalAmountSentInSats (handleNwcRequest cfg env ev w)
          = totalAmountSentInSats w.
Proof.
  intros Hzero Hhist.
  assert (Htotal : totalAmountSentInSats w = fold_left Number_add amounts 0%Q).
  { rewrite (history_total cfg _ _ _ Hhist), Hzero. reflexivity. }
  split; [exact Htotal|]. split.
  - intros Hwhole Hmax. rewrite Htotal.
    apply fold_Number_add_exact; try assumption.
    + exists 0%Z. reflexivity.
    + apply Qle_refl.
    + apply (history_amounts cfg _ _ _ Hhist).
  - intros env ev c amount Hd Hp Hm Ha Hamount Hceiling.
    assert (Hnext : (TOTAL_MAX_SEND_AMOUNT_IN_SATS cfg
                     < theNumberValueFor (TOTAL_MAX_SEND_AMOUNT_IN_SATS cfg + 1))%Q).
    { destruct Hceiling as [Hnext | (z & Hwhole & Hz)]; [exact Hnext|].
      apply (ceiling_plus_one_kept _ z Hwhole Hz). }
    assert (Hover : (TOTAL_MAX_SEND_AMOUNT_IN_SATS cfg
                     < Number_add (totalAmountSentInSats w) amount)%Q).
    { unfold Number_add.
      rewrite (theNumberValueFor_comp _ (TOTAL_MAX_SEND_AMOUNT_IN_SATS cfg + 1));
        [exact Hnext|].
      rewrite Hamount. ring. }
    assert (Hproc : processRequest cfg env ev w
      = ({| errorCode := Some QUOTA_EXCEEDED; result := JNull;
            nwcRequestContent := c |}, w)).
    { rewrite (processRequest_dispatch _ _ _ _ _ Hd Hp).
      rewrite (dispatch_pay_invoice _ _ _ _ Hm).
      rewrite (handlePayInvoiceRequest_rejects _ _ _ _ _ Hm Ha Hover). reflexivity. }
    split; [exact Hproc|].
    rewrite handleNwcRequest_eq, Hproc. simpl.
    destruct (respond_frame cfg env ev
                {| errorCode := Some QUOTA_EXCEEDED; result := JNull;
                   nwcRequestContent := c |} w) as [(Ht & _ & _) Hc].
    split; assumption.
Qed.

(** On the sample deployment: 2500 sat and 1.5 sat are paid, with a balance
    request in between; 7499.5 sat are asked next. *)
Lemma total_is_sum_of_payments_witness :
  totalAmountSentInSats SampleRuns.paidTwice
    = fold_left Number_add [2500%Q; (3 # 2)%Q] 0%Q
  /\ processRequest Sample.cfg (SampleRuns.pay "lnbc74995n1") Sample.event
                    SampleRuns.paidTwice
     = ({| errorCode := Some QUOTA_EXCEEDED; result := JNull;
           nwcRequestContent :=
             Sample.request "pay_invoice" [("invoice", JStr "lnbc74995n1")] |},
        SampleRuns.paidTwice).
Proof.
  assert (Hhist : history Sample.cfg initialWorld [2500%Q; (3 # 2)%Q]
                    SampleRuns.paidTwice).
  { unfold SampleRuns.paidTwice, SampleRuns.paid2500.
    apply (history_paid Sample.cfg (SampleRuns.pay "lnbc25u1") Sample.event).
    { eexists. split; [exists "ciphertext"; split; reflexivity|].
      repeat split; vm_compute; reflexivity. }
    apply (history_other Sample.cfg SampleRuns.balance Sample.event).
    { intros amount (c & (p & _ & Hp) & _ & Hm & _).
      injection Hp as <-. discriminate Hm. }
    apply (history_paid Sample.cfg (SampleRuns.pay "lnbc15n1") Sample.event).
    { eexists. split; [exists "ciphertext"; split; reflexivity|].
      repeat split; vm_compute; reflexivity. }
    apply history_done. }
  destruct (total_is_sum_of_payments Sample.cfg initialWorld _ SampleRuns.paidTwice
              eq_refl Hhist) as (Hsum & _ & Hnext).
  split; [exact Hsum|].
  apply (Hnext (SampleRuns.pay "lnbc74995n1") Sample.event
               (Sample.request "pay_invoice" [("invoice", JStr "lnbc74995n1")])
               (14999 # 2)%Q).
  - exists "ciphertext". split; reflexivity.
  - reflexivity.
  - reflexivity.
  - vm_compute. reflexivity.
  - vm_compute. reflexivity.
  - right. exists 10000%Z. split; [reflexivity|]. split; [discriminate|reflexivity].
Defined.

(** C7 as stated fails on "exactly": after the invoices of 1060042, 3543489
    and 4028760 millisatoshi are paid, in this order, the total is not the
    sum of the three derived amounts, and is not 8632.291. *)
Lemma total_is_not_the_exact_sum :
  let a1 := Number_divide 1060042 1000 in
  let a2 := Number_divide 3543489 1000 in
  let a3 := Number_divide 4028760 1000 in
  history Sample.cfg initialWorld [a1; a2; a3] MoreSamples.paidThrice
  /\ totalAmountSentInSats MoreSamples.paidThrice
     = Number_add (Number_add (Number_add 0 a1) a2) a3
  /\ ~ (totalAmountSentInSats MoreSamples.paidThrice == a1 + a2 + a3)%Q
  /\ ~ (totalAmountSentInSats MoreSamples.paidThrice == 8632291 # 1000)%Q.
Proof.
  cbv zeta. split; [|split; [vm_compute; reflexivity|split; vm_compute; discriminate]].
  unfold MoreSamples.paidThrice.
  apply (history_paid Sample.cfg (MoreSamples.payMsat 1060042) Sample.event).
  { eexists. split; [exists "ciphertext"; split; reflexivity|].
    repeat split; vm_compute; reflexivity. }
  apply (history_paid Sample.cfg (MoreSamples.payMsat 3543489) Sample.event).
  { eexists. split; [exists "ciphertext"; split; reflexivity|].
    repeat split; vm_compute; reflexivity. }
  apply (history_paid Sample.cfg (MoreSamples.payMsat 4028760) Sample.event).
  { eexists. split; [exists "ciphertext"; split; reflexivity|].
    repeat split; vm_compute; reflexivity. }
  apply history_done.
Qed.




(** ** C10: a payment request without an invoice *)

(** C10. For a [pay_invoice] request without [params.invoice] the derived
    amount is 0; when the total, a number, is at or below the ceiling the
    request is admitted and [createStrikePaymentQuote] is called with the
    absent invoice; when that payment fails the outcome is [PAYMENT_FAILED]
    and the state is untouched; in no case is the outcome
    [INVALID_PARAMS]. *)
Theorem pay_without_invoice cfg env ev w c :
  decryptsTo cfg env ev c ->
  event_pubkey ev = NWC_CONNECTION_PUBKEY cfg ->
  isRequest c "pay_invoice" ->
  invoiceOf c = JUndefined ->
  let l := fst (processRequest cfg env ev w) in
  let w1 := snd (processRequest cfg env ev w) in
  derivedAmount env c = inr 0%Q
  /\ (isNumber (totalAmountSentInSats w) ->
      (totalAmountSentInSats w <= TOTAL_MAX_SEND_AMOUNT_IN_SATS cfg)%Q ->
      (exists calls,
         strikeCalls w1
         = (strikeCalls w ++ CreateStrikePaymentQuote JUndefined :: calls)%list)
      /\ errorCode l <> Some QUOTA_EXCEEDED
      /\ forall err, fst (payInvoice env JUndefined w) = inl err ->
           errorCode l = Some PAYMENT_FAILED /\ result l = JNull /\ sameState w w1)
  /\ errorCode l <> Some INVALID_PARAMS.
Proof.
  intros Hd Hp Hm Hinv. cbv zeta.
  assert (Ha : derivedAmount env c = inr 0%Q).
  { unfold derivedAmount. rewrite Hinv. reflexivity. }
  rewrite (processRequest_dispatch _ _ _ _ _ Hd Hp).
  rewrite (dispatch_pay_invoice _ _ _ _ Hm).
  split; [exact Ha|]. split.
  - intros Hnumber Hle.
    assert (Hadmit : (Number_add (totalAmountSentInSats w) 0
                      <= TOTAL_MAX_SEND_AMOUNT_IN_SATS cfg)%Q).
    { rewrite (Number_add_zero _ Hnumber). exact Hle. }
    rewrite (handlePayInvoiceRequest_admitted _ _ _ _ _ Hm Ha Hadmit), Hinv.
    unfold payInvoice, sameState. unfold_M.
    destruct (createStrikePaymentQuote (strike env) JUndefined) as [err|quoteId].
    { simpl. repeat split; try discriminate; eauto. }
    destruct (executeStrikePaymentQuote (strike env) quoteId) as [err|receipt];
      simpl; rewrite <- app_assoc; simpl;
      repeat split; try discriminate; eauto.
  - destruct (Qlt_le_dec (TOTAL_MAX_SEND_AMOUNT_IN_SATS cfg)
                (Number_add (totalAmountSentInSats w) 0)) as [Hover|Hadmit].
    { rewrite (handlePayInvoiceRequest_rejects _ _ _ _ _ Hm Ha Hover).
      simpl. discriminate. }
    rewrite (handlePayInvoiceRequest_admitted _ _ _ _ _ Hm Ha Hadmit).
    destruct (payInvoice env (invoiceOf c) w) as [[err|receipt] w2];
      simpl; discriminate.
Qed.

(** On the sample deployment, while Strike refuses the payment. *)
Lemma pay_without_invoice_witness :
  errorCode (fst (processRequest Sample.cfg SampleRuns.payNothing Sample.event
                                 initialWorld))
  = Some PAYMENT_FAILED.
Proof.
  destruct (pay_without_invoice Sample.cfg SampleRuns.payNothing Sample.event
              initialWorld (Sample.request "pay_invoice" []))
    as (_ & Hadmitted & _).
  - exists "ciphertext". split; reflexivity.
  - reflexivity.
  - reflexivity.
  - reflexivity.
  - destruct Hadmitted as (_ & _ & Hfailed).
    + reflexivity.
    + vm_compute. discriminate.
    + apply (Hfailed (ErrorOfClass "AxiosError" "Request failed with status code 400")). reflexivity.
Defined.

(** ** C4: what reaches the response builder *)

Section Unclassified.

Variable cfg : Config.
Variable env : Env.

Lemma dispatch_make_invoice c w :
  isRequest c "make_invoice" ->
  dispatch cfg env c w =
    match handleMakeInvoiceRequest env c w with
    | (inl err, w') => (inl err, w')
    | (inr res, w') => (inr (None, res), w')
    end.
Proof.
  intros Hm. unfold dispatch. unfold_M.
  rewrite (isRequest_getProp _ _ Hm). reflexivity.
Qed.

(** The destructuring of [params] in [handleMakeInvoiceRequest] stands
    before its [try]: without [params] the [TypeError] of the runtime leaves
    the handler as it is, and its message becomes the error code. *)
Lemma make_invoice_without_params ev c w :
  decryptsTo cfg env ev c ->
  event_pubkey ev = NWC_CONNECTION_PUBKEY cfg ->
  isRequest c "make_invoice" ->
  ownProp c "params" = JUndefined ->
  processRequest cfg env ev w
  = ({| errorCode :=
          Some "Cannot destructure property 'amount' of 'nwcRequestContent.params' as it is undefined.";
        result := JNull; nwcRequestContent := c |}, w).
Proof.
  intros Hd Hp Hm Hparams.
  rewrite (processRequest_dispatch _ _ _ _ _ Hd Hp).
  rewrite (dispatch_make_invoice _ _ Hm).
  unfold handleMakeInvoiceRequest. unfold_M.
  rewrite (isRequest_params _ _ Hm), Hparams. reflexivity.
Qed.

End Unclassified.

(** C4, at the failing input: an authenticated [make_invoice] request
    without [params] ends with an error code that is none of the seven codes
    of the taxonomy, and this code is what the response carries. *)
Theorem make_invoice_without_params_unclassified :
  exists code,
    errorCode (fst (processRequest Sample.cfg SampleRuns.makeWithoutParams
                                   Sample.event initialWorld))
      = Some code
    /\ ~ In code errorTaxonomy
    /\ errorCodeOf (SampleRuns.answer (JObj [("method", JStr "make_invoice")]))
       = JStr code.
Proof.
  unfold SampleRuns.answer. cbv zeta.
  fold SampleRuns.makeWithoutParams.
  rewrite (make_invoice_without_params Sample.cfg SampleRuns.makeWithoutParams
             Sample.event (JObj [("method", JStr "make_invoice")]) initialWorld).
  - eexists. split; [reflexivity|]. split; [|reflexivity].
    unfold errorTaxonomy. simpl. intros H.
    repeat (destruct H as [H|H]; [discriminate H|]). exact H.
  - exists "ciphertext". split; reflexivity.
  - reflexivity.
  - reflexivity.
  - reflexivity.
Qed.

(** ** C6: methods that are not supported *)

Section Unsupported.

Variable cfg : Config.
Variable env : Env.

Lemma strictEqStr_false v literal :
  v <> JStr literal -> strictEqStr v literal = false.
Proof.
  destruct v; simpl; try reflexivity.
  intros Hne. apply String.eqb_neq. congruence.
Qed.

Lemma dispatch_unsupported c w :
  nullish c = false ->
  (forall method, In method supportedMethods -> ownProp c "method" <> JStr method) ->
  dispatch cfg env c w = (inr (Some NOT_IMPLEMENTED, JNull), w).
Proof.
  intros Hc Hnone. unfold dispatch, getProp. rewrite Hc. unfold_M.
  rewrite !strictEqStr_false; [reflexivity|..];
    apply Hnone; unfold supportedMethods; simpl; tauto.
Qed.

(** A request that cannot be decrypted is answered under ["unknown"]. *)
Lemma undecryptable_reported_unknown ev w :
  (forall c, ~ decryptsTo cfg env ev c) ->
  requestMethodOf (nwcRequestContent (fst (processRequest cfg env ev w)))
  = JStr "unknown".
Proof.
  intros Hnone. destruct (processRequest_undecryptable cfg env ev w Hnone) as (line & ->).
  reflexivity.
Qed.

End Unsupported.

(** C6, as the code has it.  An authenticated request whose [method] is
    none of the seven supported names (an absent, [null] or empty-string
    method included) ends with [NOT_IMPLEMENTED], not [UNAUTHORIZED]; no
    handler runs: no function of [strike.js] is called, nothing is logged and
    the state is untouched.  The result type of the response is the method
    itself, the empty string included, except that an absent or [null]
    method is reported as ["unknown"], the result type of a request that
    could not be decrypted; the message names the method, as the string it
    converts to, which a string, absent or [null] method always does. *)
Theorem unsupported_method_not_implemented cfg env ev w c :
  decryptsTo cfg env ev c ->
  event_pubkey ev = NWC_CONNECTION_PUBKEY cfg ->
  nullish c = false ->
  (forall method, In method supportedMethods -> ownProp c "method" <> JStr method) ->
  let method := ownProp c "method" in
  let requestMethod := if nullish method then JStr "unknown" else method in
  processRequest cfg env ev w
    = ({| errorCode := Some NOT_IMPLEMENTED; result := JNull; nwcRequestContent := c |}, w)
  /\ errorCode (fst (processRequest cfg env ev w)) <> Some UNAUTHORIZED
  /\ sameState w (handleNwcRequest cfg env ev w)
  /\ strikeCalls (handleNwcRequest cfg env ev w) = strikeCalls w
  /\ (forall name,
        ToString env requestMethod = inr name ->
        responseContent cfg env (requestMethodOf c) JNull (Some NOT_IMPLEMENTED)
        = inr (JObj [("result_type", requestMethod);
                     ("error",
                      JObj [("code", JStr NOT_IMPLEMENTED);
                            ("message", JStr (name +:+ " not currently supported."))])]))
  /\ (nullish method = true \/ (exists s, method = JStr s) ->
      exists name, ToString env requestMethod = inr name)
  /\ (forall ev' w',
        (forall c', ~ decryptsTo cfg env ev' c') ->
        requestMethodOf (nwcRequestContent (fst (processRequest cfg env ev' w')))
        = JStr "unknown").
Proof.
  intros Hd Hp Hc Hnone. cbv zeta.
  assert (Hproc : processRequest cfg env ev w
    = ({| errorCode := Some NOT_IMPLEMENTED; result := JNull;
          nwcRequestContent := c |}, w)).
  { rewrite (processRequest_dispatch _ _ _ _ _ Hd Hp).
    rewrite (dispatch_unsupported cfg env c w Hc Hnone). reflexivity. }
  split; [exact Hproc|]. split; [rewrite Hproc; discriminate|].
  rewrite handleNwcRequest_eq, Hproc. cbn [fst snd].
  destruct (respond_frame cfg env ev
              {| errorCode := Some NOT_IMPLEMENTED; result := JNull;
                 nwcRequestContent := c |} w) as [Hs Hcalls].
  split; [exact Hs|]. split; [exact Hcalls|]. split; [|split].
  - intros name Hname.
    assert (Hmethod : requestMethodOf c
                      = if nullish (ownProp c "method") then JStr "unknown"
                        else ownProp c "method").
    { unfold requestMethodOf, js_coalesce, getPropOpt. rewrite Hc. reflexivity. }
    rewrite Hmethod. unfold responseContent, getErrorMessage. cbn. rewrite Hname.
    reflexivity.
  - intros [Hnull | [s Hs']].
    + rewrite Hnull. eexists. reflexivity.
    + rewrite Hs'. eexists. reflexivity.
  - intros ev' w'. apply undecryptable_reported_unknown.
Qed.

(** On the sample deployment, for the empty-string method. *)
Lemma unsupported_method_not_implemented_witness :
  processRequest Sample.cfg (Sample.env SampleRuns.emptyMethod Sample.strikeUp)
                 Sample.event initialWorld
  = ({| errorCode := Some NOT_IMPLEMENTED; result := JNull;
        nwcRequestContent := SampleRuns.emptyMethod |}, initialWorld).
Proof.
  apply (unsupported_method_not_implemented Sample.cfg
           (Sample.env SampleRuns.emptyMethod Sample.strikeUp)
           Sample.event initialWorld SampleRuns.emptyMethod).
  - exists "ciphertext". split; reflexivity.
  - reflexivity.
  - reflexivity.
  - intros method Hin. unfold supportedMethods in Hin. simpl in Hin.
    repeat (destruct Hin as [<-|Hin]; [discriminate|]). destruct Hin.
Defined.

(** C6 as stated fails on the absent method: it is answered under the
    result type ["unknown"], not under the empty string, and not as the
    empty-string method is answered. *)
Lemma absent_method_reported_unknown :
  errorCodeOf (SampleRuns.answer SampleRuns.noMethod) = JStr NOT_IMPLEMENTED
  /\ ownProp (SampleRuns.answer SampleRuns.noMethod) "result_type"
     = JStr "unknown"
  /\ ownProp (SampleRuns.answer SampleRuns.emptyMethod) "result_type"
     = JStr EmptyString
  /\ SampleRuns.answer SampleRuns.noMethod
     <> SampleRuns.answer SampleRuns.emptyMethod.
Proof.
  split; [reflexivity|]. split; [reflexivity|]. split; [reflexivity|].
  vm_compute. discriminate.
Qed.

(** ** C5: the bounds of [get_transactions] *)

Section Transactions.

Variable cfg : Config.
Variable env : Env.

Lemma dispatch_get_transactions c w :
  isRequest c "get_transactions" ->
  dispatch cfg env c w =
    match handleGetTransactionsRequest env c w with
    | (inl err, w') => (inl err, w')
    | (inr res, w') => (inr (None, res), w')
    end.
Proof.
  intros Hm. unfold dispatch. unfold_M.
  rewrite (isRequest_getProp _ _ Hm). reflexivity.
Qed.

(** With numbers for the effective limit and offset, the handler checks the
    bounds and then, and only then, asks Strike. *)
Lemma handleGetTransactionsRequest_numbers c w limit offset :
  isRequest c "get_transactions" ->
  js_or (limitOf c) (JNum 10) = JNum limit ->
  js_or (offsetOf c) (JNum 0) = JNum offset ->
  handleGetTransactionsRequest env c w =
    if Qle_bool 1 limit && Qle_bool limit 100 && Qle_bool 0 offset
    then
      let w1 := snd (callStrike (A := JsValue)
                       (GetTransactions (JNum limit) (JNum offset)) (inr JNull) w) in
      match strike_getTransactions (strike env) (JNum limit) (JNum offset) with
      | inr transactions => (inr transactions, w1)
      | inl err =>
          if String.eqb (message err) INVALID_PARAMS then (inl err, w1)
          else (inl (Error INTERNAL),
                snd (logger_error ("Error getting transactions: " +:+ errToString err) w1))
      end
    else (inl (Error INVALID_PARAMS), w).
Proof.
  intros Hm Hlimit Hoffset. unfold handleGetTransactionsRequest.
  unfold try_catch, mbind at 1, M_bind at 1, liftM at 1.
  rewrite (isRequest_params _ _ Hm). fold (limitOf c) (offsetOf c).
  rewrite Hlimit, Hoffset.
  unfold isNaN, js_lt, js_gt, ToNumber, orElse, throw.
  destruct (Qle_bool 1 limit); cbn [negb andb]; [|reflexivity].
  destruct (Qle_bool limit 100); cbn [negb andb]; [|reflexivity].
  destruct (Qle_bool 0 offset); cbn [negb andb]; [|reflexivity].
  unfold getTransactions. unfold_M. cbn [snd ToString].
  destruct (strike_getTransactions (strike env) (JNum limit) (JNum offset))
    as [err|transactions]; [|reflexivity].
  destruct (String.eqb (message err) INVALID_PARAMS); reflexivity.
Qed.

End Transactions.

(** C5, as the code has it.  For an authenticated [get_transactions]
    request whose [limit] is absent (then 10) or a number other than zero,
    and whose [offset] is absent (then 0) or a number: when the limit lies in
    [1, 100] and the offset is not negative, whole or not, the request is
    accepted, that is [getTransactions] is called once with them and its
    answer is the result; otherwise the outcome is [INVALID_PARAMS] and
    nothing was called, logged or changed.  In particular [limit = 101] and
    [offset = -1] are refused, [limit = 1] and [limit = 100] are accepted. *)
Theorem get_transactions_bounds cfg env ev w c limit offset :
  decryptsTo cfg env ev c ->
  event_pubkey ev = NWC_CONNECTION_PUBKEY cfg ->
  isRequest c "get_transactions" ->
  (limitOf c = JUndefined /\ limit = 10%Q) \/ (limitOf c = JNum limit /\ ~ (limit == 0)%Q) ->
  (offsetOf c = JUndefined /\ offset = 0%Q) \/ offsetOf c = JNum offset ->
  let l := fst (processRequest cfg env ev w) in
  let w1 := snd (processRequest cfg env ev w) in
  let passedOffset := js_or (offsetOf c) (JNum 0) in
  ((1 <= limit)%Q /\ (limit <= 100)%Q /\ (0 <= offset)%Q ->
     strikeCalls w1 = (strikeCalls w ++ [GetTransactions (JNum limit) passedOffset])%list
     /\ sameState w w1
     /\ (forall transactions,
           strike_getTransactions (strike env) (JNum limit) passedOffset = inr transactions ->
           errorCode l = None /\ result l = transactions)
     /\ (forall err,
           strike_getTransactions (strike env) (JNum limit) passedOffset = inl err ->
           message err <> INVALID_PARAMS ->
           errorCode l = Some INTERNAL /\ result l = JNull))
  /\ (~ ((1 <= limit)%Q /\ (limit <= 100)%Q /\ (0 <= offset)%Q) ->
      processRequest cfg env ev w
      = ({| errorCode := Some INVALID_PARAMS; result := JNull;
            nwcRequestContent := c |}, w)).
Proof.
  intros Hd Hp Hm Hlimit Hoffset. cbv zeta.
  assert (Hl : js_or (limitOf c) (JNum 10) = JNum limit).
  { destruct Hlimit as [ [-> ->] | [-> Hnz] ]; [reflexivity|].
    unfold js_or, truthy.
    destruct (Qeq_bool limit 0) eqn:Hz; [|reflexivity].
    apply Qeq_bool_iff in Hz. contradiction. }
  assert (Ho : exists offset', js_or (offsetOf c) (JNum 0) = JNum offset'
                               /\ (offset' == offset)%Q).
  { destruct Hoffset as [ [-> ->] | -> ]; [exists 0%Q; split; reflexivity|].
    unfold js_or, truthy.
    destruct (Qeq_bool offset 0) eqn:Hz.
    - apply Qeq_bool_iff in Hz. exists 0%Q. split; [reflexivity|]. symmetry. exact Hz.
    - exists offset. split; reflexivity. }
  destruct Ho as (offset' & Ho & Heq).
  rewrite (processRequest_dispatch _ _ _ _ _ Hd Hp).
  rewrite (dispatch_get_transactions cfg env c w Hm).
  rewrite (handleGetTransactionsRequest_numbers env c w limit offset' Hm Hl Ho).
  rewrite Ho.
  destruct (Qle_bool 1 limit && Qle_bool limit 100 && Qle_bool 0 offset') eqn:Hb.
  - split; [|intros Hnot; exfalso; apply Hnot;
             apply andb_prop in Hb as [Hb H3]; apply andb_prop in Hb as [H1 H2];
             apply Qle_bool_iff in H1, H2, H3; rewrite <- Heq; auto].
    intros _. unfold sameState. unfold_M. cbn [snd].
    destruct (strike_getTransactions (strike env) (JNum limit) (JNum offset'))
      as [err|transactions].
    + destruct (String.eqb (message err) INVALID_PARAMS) eqn:Hmsg; simpl;
        (split; [reflexivity|]); (split; [tauto|]); (split; [discriminate|]).
      * intros err' [= <-] Hne. apply String.eqb_eq in Hmsg. contradiction.
      * intros err' _ _. split; reflexivity.
    + simpl. split; [reflexivity|]. split; [tauto|].
      split; [intros t [= <-]; split; reflexivity | discriminate].
  - split; [|reflexivity].
    intros (H1 & H2 & H3). rewrite <- Heq in H3.
    apply Qle_bool_iff in H1, H2, H3. rewrite H1, H2, H3 in Hb. discriminate.
Qed.

(** On the sample deployment: [limit = 101] and [offset = -1] are refused,
    [limit = 100] is passed to Strike. *)
Lemma get_transactions_bounds_witness :
  TransactionSamples.outcome [("limit", JNum 101)] = (Some INVALID_PARAMS, [])
  /\ TransactionSamples.outcome [("offset", JNum (-1))] = (Some INVALID_PARAMS, [])
  /\ strikeCalls (snd (processRequest Sample.cfg
                         (TransactionSamples.asking [("limit", JNum 100)])
                         Sample.event initialWorld))
     = [GetTransactions (JNum 100) (JNum 0)].
Proof.
  assert (Hd : forall params,
    decryptsTo Sample.cfg (TransactionSamples.asking params) Sample.event
               (Sample.request "get_transactions" params)).
  { intros params. exists "ciphertext". split; reflexivity. }
  split; [|split].
  - unfold TransactionSamples.outcome.
    destruct (get_transactions_bounds Sample.cfg
                (TransactionSamples.asking [("limit", JNum 101)]) Sample.event
                initialWorld _ 101%Q 0%Q (Hd _) eq_refl eq_refl) as [_ Hrefused].
    + right. split; [reflexivity|]. intros H; discriminate H.
    + left. split; reflexivity.
    + rewrite Hrefused; [reflexivity|].
      intros (_ & H & _). apply Qle_bool_iff in H. discriminate H.
  - unfold TransactionSamples.outcome.
    destruct (get_transactions_bounds Sample.cfg
                (TransactionSamples.asking [("offset", JNum (-1))]) Sample.event
                initialWorld _ 10%Q (-1)%Q (Hd _) eq_refl eq_refl) as [_ Hrefused].
    + left. split; reflexivity.
    + right. reflexivity.
    + rewrite Hrefused; [reflexivity|].
      intros (_ & _ & H). apply Qle_bool_iff in H. discriminate H.
  - destruct (get_transactions_bounds Sample.cfg
                (TransactionSamples.asking [("limit", JNum 100)]) Sample.event
                initialWorld _ 100%Q 0%Q (Hd _) eq_refl eq_refl) as [Haccepted _].
    + right. split; [reflexivity|]. intros H; discriminate H.
    + left. split; reflexivity.
    + destruct Haccepted as (Hcalls & _).
      * repeat split; apply Qle_bool_iff; reflexivity.
      * exact Hcalls.
Defined.

(** C5 as stated fails twice: [limit = 0] is not refused (it is replaced by
    the default and Strike is asked for 10 transactions), and a limit that
    is not whole, 3/2, is accepted. *)
Lemma get_transactions_limit_zero_accepted :
  TransactionSamples.outcome [("limit", JNum 0)]
    = (None, [GetTransactions (JNum 10) (JNum 0)])
  /\ fst (TransactionSamples.outcome [("limit", JNum 0)]) <> Some INVALID_PARAMS
  /\ TransactionSamples.outcome [("limit", JNum (3 # 2))]
     = (None, [GetTransactions (JNum (3 # 2)) (JNum 0)]).
Proof.
  split; [reflexivity|]. split; [discriminate|reflexivity].
Qed.

(** ** C9: the invoice cache *)

Section InvoiceCache.

Variable cfg : Config.
Variable env : Env.

Lemma dispatch_lookup_invoice c w :
  isRequest c "lookup_invoice" ->
  dispatch cfg env c w =
    match handleLookupInvoiceRequest env c w with
    | (inl err, w') => (inl err, w')
    | (inr res, w') => (inr (None, res), w')
    end.
Proof.
  intros Hm. unfold dispatch. unfold_M.
  rewrite (isRequest_getProp _ _ Hm). reflexivity.
Qed.

(** A successful [make_invoice] caches its record under the invoice
    string. *)
Lemma handleMakeInvoiceRequest_caches c w invoiceId state createdAt invoice expiresAt :
  isRequest c "make_invoice" ->
  nullish (ownProp c "params") = false ->
  let amount := ownProp (ownProp c "params") "amount" in
  let description := ownProp (ownProp c "params") "description" in
  createInvoice (strike env) amount description = inr (invoiceId, state, createdAt) ->
  createQuote (strike env) invoiceId = inr (JStr invoice, expiresAt) ->
  invoice <> "__proto__" ->
  let record := invoiceRecord (JStr invoice) description amount createdAt expiresAt
                              state invoiceId in
  fst (handleMakeInvoiceRequest env c w) = inr record
  /\ cachedInvoiceResults (snd (handleMakeInvoiceRequest env c w))
     = <[invoice := record]> (cachedInvoiceResults w)
  /\ cachedInvoiceResults_proto (snd (handleMakeInvoiceRequest env c w))
     = cachedInvoiceResults_proto w.
Proof.
  intros Hm Hparams amount description Hcreate Hquote Hkey record.
  apply String.eqb_neq in Hkey.
  unfold handleMakeInvoiceRequest, makeInvoice, cache_set, destructure. unfold_M.
  rewrite (isRequest_params _ _ Hm), Hparams.
  fold amount description. rewrite Hcreate, Hquote.
  cbn [ToString]. rewrite Hkey. repeat split.
Qed.

(** A lookup of a cached record asks Strike for the state of its invoice
    and returns the record with that state, which the cache keeps. *)
Lemma handleLookupInvoiceRequest_cached c w invoice
    description amount createdAt expiresAt state invoiceId latest :
  isRequest c "lookup_invoice" ->
  ownProp (ownProp c "params") "invoice" = JStr invoice ->
  cachedInvoiceResults w !! invoice
    = Some (invoiceRecord (JStr invoice) description amount createdAt expiresAt
                          state invoiceId) ->
  strike_lookupInvoice (strike env) invoiceId = inr latest ->
  let record := invoiceRecord (JStr invoice) description amount createdAt expiresAt
                              latest invoiceId in
  fst (handleLookupInvoiceRequest env c w) = inr record
  /\ cachedInvoiceResults (snd (handleLookupInvoiceRequest env c w))
     = <[invoice := record]> (cachedInvoiceResults w)
  /\ strikeCalls (snd (handleLookupInvoiceRequest env c w))
     = (strikeCalls w ++ [LookupInvoice invoiceId])%list.
Proof.
  intros Hm Hinvoice Hcached Hlatest record.
  assert (Hparams : nullish (ownProp c "params") = false).
  { destruct (ownProp c "params"); try reflexivity; discriminate Hinvoice. }
  unfold handleLookupInvoiceRequest, lookupInvoice, cache_mutated, cache_get,
    destructure. unfold_M.
  rewrite (isRequest_params _ _ Hm), Hparams, Hinvoice.
  cbn [ToString]. rewrite Hcached. cbn. rewrite Hlatest. cbn. rewrite Hcached.
  repeat split.
Qed.

(** A string that names neither a cached record, nor a field of the
    record the cache inherits from, nor a property inherited from
    [Object.prototype] is not found, and nothing happens. *)
Lemma handleLookupInvoiceRequest_not_found c w invoice :
  isRequest c "lookup_invoice" ->
  ownProp (ownProp c "params") "invoice" = JStr invoice ->
  cachedInvoiceResults w !! invoice = None ->
  (forall props, cachedInvoiceResults_proto w = Some (JObj props) ->
                 lookupProp invoice props = None) ->
  invoice <> "__proto__" ->
  ~ In invoice objectPrototypeNames ->
  handleLookupInvoiceRequest env c w = (inl (Error NOT_FOUND), w).
Proof.
  intros Hm Hinvoice Hcached Hproto Hkey Hown.
  assert (Hparams : nullish (ownProp c "params") = false).
  { destruct (ownProp c "params"); try reflexivity; discriminate Hinvoice. }
  apply String.eqb_neq in Hkey.
  assert (Hget : objectPrototypeGet invoice = JUndefined).
  { unfold objectPrototypeGet.
    destruct (existsb (String.eqb invoice) objectPrototypeNames) eqn:Hex;
      [|reflexivity].
    apply existsb_exists in Hex as (name & Hin & Heq).
    apply String.eqb_eq in Heq. subst name. contradiction. }
  assert (Hnone : cache_get w invoice = JUndefined).
  { unfold cache_get. rewrite Hcached, Hkey.
    destruct (cachedInvoiceResults_proto w) as [proto|]; [|exact Hget].
    destruct proto; try exact Hget.
    rewrite (Hproto _ eq_refl). exact Hget. }
  unfold handleLookupInvoiceRequest, destructure. unfold_M.
  rewrite (isRequest_params _ _ Hm), Hparams, Hinvoice.
  cbn [ToString]. rewrite Hnone. reflexivity.
Qed.

(** A string that names a property inherited from [Object.prototype] finds
    that property: the lookup goes past the [NOT_FOUND] test and fails
    inside the [try], on the [metadata] the built-in does not have. *)
Lemma handleLookupInvoiceRequest_inherited c w invoice :
  isRequest c "lookup_invoice" ->
  ownProp (ownProp c "params") "invoice" = JStr invoice ->
  cachedInvoiceResults w !! invoice = None ->
  cachedInvoiceResults_proto w = None ->
  In invoice objectPrototypeNames ->
  handleLookupInvoiceRequest env c w
  = (inl (Error INTERNAL),
     snd (logger_error
            "Error looking up invoice: TypeError: Cannot read properties of undefined (reading 'invoice_id')"
            w)).
Proof.
  intros Hm Hinvoice Hcached Hproto Hin.
  assert (Hparams : nullish (ownProp c "params") = false).
  { destruct (ownProp c "params"); try reflexivity; discriminate Hinvoice. }
  assert (Hget : cache_get w invoice = JNative ("Object.prototype." +:+ invoice)).
  { unfold cache_get. rewrite Hcached, Hproto.
    unfold objectPrototypeNames in Hin. simpl in Hin.
    repeat (destruct Hin as [<-|Hin]; [reflexivity|]). destruct Hin. }
  unfold handleLookupInvoiceRequest, destructure. unfold_M.
  rewrite (isRequest_params _ _ Hm), Hparams, Hinvoice.
  cbn [ToString]. rewrite Hget. reflexivity.
Qed.

End InvoiceCache.

(** The round trip: the record cached by a successful [make_invoice] is
    found by a lookup of its invoice string, in whatever world the lookup
    runs, and comes back with the state Strike reports then. *)
Lemma make_then_lookup env made w invoiceId state createdAt invoice expiresAt
    asked c latest :
  isRequest made "make_invoice" ->
  nullish (ownProp made "params") = false ->
  createInvoice (strike env) (ownProp (ownProp made "params") "amount")
                (ownProp (ownProp made "params") "description")
    = inr (invoiceId, state, createdAt) ->
  createQuote (strike env) invoiceId = inr (JStr invoice, expiresAt) ->
  invoice <> "__proto__" ->
  isRequest c "lookup_invoice" ->
  ownProp (ownProp c "params") "invoice" = JStr invoice ->
  strike_lookupInvoice (strike asked) invoiceId = inr latest ->
  fst (handleLookupInvoiceRequest asked c (snd (handleMakeInvoiceRequest env made w)))
  = inr (invoiceRecord (JStr invoice) (ownProp (ownProp made "params") "description")
                       (ownProp (ownProp made "params") "amount")
                       createdAt expiresAt latest invoiceId).
Proof.
  intros Hmade Hparams Hcreate Hquote Hkey Hm Hinvoice Hlatest.
  destruct (handleMakeInvoiceRequest_caches env made w invoiceId state createdAt invoice
              expiresAt Hmade Hparams Hcreate Hquote Hkey) as (_ & Hcache & _).
  cbv zeta in Hcache.
  refine (proj1 (handleLookupInvoiceRequest_cached asked c _ invoice _ _ _ _ state
                   invoiceId latest Hm Hinvoice _ Hlatest)).
  rewrite Hcache. apply lookup_insert_eq.
Qed.


(** C9, at the failing input: no invoice was ever made, and the lookup of
    the string [constructor] is answered [INTERNAL], not [NOT_FOUND]; Strike
    is not called. *)
Theorem lookup_of_inherited_name_is_internal :
  cachedInvoiceResults initialWorld !! "constructor" = None
  /\ errorCode (fst (processRequest Sample.cfg SampleRuns.lookupConstructor
                                    Sample.event initialWorld))
     = Some INTERNAL
  /\ errorCode (fst (processRequest Sample.cfg SampleRuns.lookupConstructor
                                    Sample.event initialWorld))
     <> Some NOT_FOUND
  /\ strikeCalls (snd (processRequest Sample.cfg SampleRuns.lookupConstructor
                                      Sample.event initialWorld))
     = [].
Proof.
  split; [reflexivity|].
  rewrite (processRequest_dispatch Sample.cfg SampleRuns.lookupConstructor Sample.event
             (Sample.request "lookup_invoice" [("invoice", JStr "constructor")])
             initialWorld);
    [|exists "ciphertext"; split; reflexivity|reflexivity].
  rewrite (dispatch_lookup_invoice Sample.cfg SampleRuns.lookupConstructor
             (Sample.request "lookup_invoice" [("invoice", JStr "constructor")])
             initialWorld eq_refl).
  rewrite (handleLookupInvoiceRequest_inherited SampleRuns.lookupConstructor
             (Sample.request "lookup_invoice" [("invoice", JStr "constructor")])
             initialWorld "constructor" eq_refl eq_refl eq_refl eq_refl);
    [|unfold objectPrototypeNames; simpl; tauto].
  simpl. repeat split. discriminate.
Qed.

(** * Further properties of the pipeline *)

(** ** The quota over the life of the process *)

Section Quota.

Variable cfg : Config.

Lemma handledInTurn_reachable deliveries w :
  reachable cfg w ->
  reachable cfg (fold_left (fun w d => handleNwcRequest cfg (fst d) (snd d) w)
                           deliveries w).
Proof.
  revert w. induction deliveries as [|[env ev] rest IH]; intros w Hw; [exact Hw|].
  simpl. apply IH. apply reachable_step. exact Hw.
Qed.

Lemma handleNwcRequest_below_ceiling env ev w :
  (totalAmountSentInSats w <= TOTAL_MAX_SEND_AMOUNT_IN_SATS cfg)%Q ->
  (totalAmountSentInSats (handleNwcRequest cfg env ev w)
   <= TOTAL_MAX_SEND_AMOUNT_IN_SATS cfg)%Q.
Proof.
  intros Hle. rewrite handleNwcRequest_total.
  destruct (processRequest_total cfg env ev w) as
    [(c & amount & Hconf & _ & -> & _) | (-> & _)]; [|exact Hle].
  destruct Hconf as (_ & _ & _ & _ & Hadmit & _). exact Hadmit.
Qed.

End Quota.

(** X1. A request that is handled from its start to its end, no other
    handler running in between, never takes [totalAmountSentInSats] above
    [TOTAL_MAX_SEND_AMOUNT_IN_SATS]: a total at or below the ceiling stays
    there.  So, with a ceiling that is not negative, the total is at or
    below it after any requests that were handled in turn. *)
Theorem quota_never_exceeded cfg :
  (forall env ev w,
     (totalAmountSentInSats w <= TOTAL_MAX_SEND_AMOUNT_IN_SATS cfg)%Q ->
     (totalAmountSentInSats (handleNwcRequest cfg env ev w)
      <= TOTAL_MAX_SEND_AMOUNT_IN_SATS cfg)%Q)
  /\ ((0 <= TOTAL_MAX_SEND_AMOUNT_IN_SATS cfg)%Q ->
      (forall w, reachable cfg w ->
                 (totalAmountSentInSats w <= TOTAL_MAX_SEND_AMOUNT_IN_SATS cfg)%Q)
      /\ forall deliveries,
           (totalAmountSentInSats (handledInTurn cfg deliveries initialWorld)
            <= TOTAL_MAX_SEND_AMOUNT_IN_SATS cfg)%Q).
Proof.
  split; [apply handleNwcRequest_below_ceiling|].
  intros Hceiling.
  assert (Hreach : forall w, reachable cfg w ->
            (totalAmountSentInSats w <= TOTAL_MAX_SEND_AMOUNT_IN_SATS cfg)%Q).
  { induction 1 as [|env ev w _ IH]; [exact Hceiling|].
    apply handleNwcRequest_below_ceiling. exact IH. }
  split; [exact Hreach|].
  intros deliveries. apply Hreach. unfold handledInTurn.
  apply handledInTurn_reachable, reachable_initial.
Qed.

(** On the sample deployment, after the three sample deliveries. *)
Lemma quota_never_exceeded_witness :
  (totalAmountSentInSats (handledInTurn Sample.cfg MoreSamples.deliveries initialWorld)
   <= TOTAL_MAX_SEND_AMOUNT_IN_SATS Sample.cfg)%Q.
Proof.
  destruct (quota_never_exceeded Sample.cfg) as [_ Hlife].
  destruct Hlife as [_ Hstart].
  - vm_compute. discriminate.
  - apply Hstart.
Defined.

(** ** Payments *)



(** X3. An admitted [pay_invoice] request whose payment fails at Strike
    ends with [PAYMENT_FAILED] and no result; the state is untouched and one
    error line is logged.  When the quote cannot be created it is the only
    call made: the execution is attempted only with a quote that Strike
    returned. *)
Theorem failed_payment_changes_nothing cfg env ev w c amount err :
  decryptsTo cfg env ev c ->
  event_pubkey ev = NWC_CONNECTION_PUBKEY cfg ->
  isRequest c "pay_invoice" ->
  derivedAmount env c = inr amount ->
  (Number_add (totalAmountSentInSats w) amount <= TOTAL_MAX_SEND_AMOUNT_IN_SATS cfg)%Q ->
  fst (payInvoice env (invoiceOf c) w) = inl err ->
  let l := fst (processRequest cfg env ev w) in
  let w1 := snd (processRequest cfg env ev w) in
  errorCode l = Some PAYMENT_FAILED
  /\ result l = JNull
  /\ sameState w w1
  /\ errorLog w1 = (errorLog w ++ ["Error making payment: " +:+ errToString err])%list
  /\ strikeCalls w1
     = (strikeCalls w ++
        match createStrikePaymentQuote (strike env) (invoiceOf c) with
        | inl _ => [CreateStrikePaymentQuote (invoiceOf c)]
        | inr quoteId => [CreateStrikePaymentQuote (invoiceOf c);
                          ExecuteStrikePaymentQuote quoteId]
        end)%list.
Proof.
  intros Hd Hp Hm Ha Hadmit Hfail. cbv zeta.
  rewrite (processRequest_dispatch _ _ _ _ _ Hd Hp).
  rewrite (dispatch_pay_invoice _ _ _ _ Hm).
  rewrite (handlePayInvoiceRequest_admitted _ _ _ _ _ Hm Ha Hadmit).
  revert Hfail. unfold payInvoice, sameState. unfold_M.
  destruct (createStrikePaymentQuote (strike env) (invoiceOf c)) as [e|quoteId].
  { simpl. intros [= <-]. repeat split. }
  destruct (executeStrikePaymentQuote (strike env) quoteId) as [e|receipt];
    simpl; [|discriminate].
  intros [= <-]. rewrite <- app_assoc. repeat split.
Qed.

(** Strike quotes the 2500 sat payment and refuses to execute it. *)
Lemma failed_payment_changes_nothing_witness :
  errorCode
    (fst (processRequest Sample.cfg
            (Sample.env (Sample.request "pay_invoice" [("invoice", JStr "lnbc25u1")])
                        MoreSamples.strikeQuotesOnly)
            Sample.event initialWorld))
  = Some PAYMENT_FAILED.
Proof.
  apply (failed_payment_changes_nothing Sample.cfg
           (Sample.env (Sample.request "pay_invoice" [("invoice", JStr "lnbc25u1")])
                       MoreSamples.strikeQuotesOnly)
           Sample.event initialWorld
           (Sample.request "pay_invoice" [("invoice", JStr "lnbc25u1")])
           2500%Q
           (ErrorOfClass "AxiosError" "Request failed with status code 422")).
  - exists "ciphertext". split; reflexivity.
  - reflexivity.
  - reflexivity.
  - vm_compute. reflexivity.
  - vm_compute. discriminate.
  - reflexivity.
Defined.

(** X4. An authenticated [pay_invoice] request whose invoice cannot be
    priced never reaches Strike and changes nothing; the message of what was
    thrown becomes the error code.  This is so when the decoder throws, and
    when the decoded invoice has no [amount] section: an invoice without an
    amount cannot be paid, whatever the quota. *)
Theorem unpriced_invoice_not_paid cfg env ev w c err :
  decryptsTo cfg env ev c ->
  event_pubkey ev = NWC_CONNECTION_PUBKEY cfg ->
  isRequest c "pay_invoice" ->
  derivedAmount env c = inl err ->
  processRequest cfg env ev w
    = ({| errorCode := Some (message err); result := JNull; nwcRequestContent := c |}, w)
  /\ truthy (invoiceOf c) = true
  /\ (forall sections,
        lightBolt11Decoder_decode env (invoiceOf c) = inr sections ->
        Forall (fun s => name s <> "amount") sections
        /\ message err = "Cannot read properties of undefined (reading 'value')").
Proof.
  intros Hd Hp Hm Ha. split; [|split].
  - rewrite (processRequest_dispatch _ _ _ _ _ Hd Hp).
    rewrite (dispatch_pay_invoice _ _ _ _ Hm).
    rewrite (handlePayInvoiceRequest_underivable _ _ _ _ _ Hm Ha). reflexivity.
  - unfold derivedAmount in Ha. destruct (truthy (invoiceOf c)); [reflexivity|discriminate].
  - intros sections Hdec. unfold derivedAmount, extractAmountInSats in Ha.
    destruct (truthy (invoiceOf c)); [|discriminate]. rewrite Hdec in Ha.
    destruct (List.find _ sections) as [s|] eqn:Hfind; [discriminate|].
    injection Ha as <-. split; [|reflexivity].
    apply Forall_forall. intros s Hin Hname.
    pose proof (find_none _ _ Hfind s) as Hnone.
    assert (Hin' : List.In s sections) by (apply list_elem_of_In; exact Hin).
    specialize (Hnone Hin'). cbv beta in Hnone. rewrite Hname in Hnone. discriminate.
Qed.

(** An invoice without an amount section, on the sample deployment. *)
Lemma unpriced_invoice_not_paid_witness :
  processRequest Sample.cfg MoreSamples.payAmountless Sample.event initialWorld
  = ({| errorCode := Some "Cannot read properties of undefined (reading 'value')";
        result := JNull;
        nwcRequestContent :=
          Sample.request "pay_invoice" [("invoice", JStr "lnbc1")] |},
     initialWorld).
Proof.
  apply (unpriced_invoice_not_paid Sample.cfg MoreSamples.payAmountless Sample.event
           initialWorld (Sample.request "pay_invoice" [("invoice", JStr "lnbc1")])
           (TypeError "Cannot read properties of undefined (reading 'value')")).
  - exists "ciphertext". split; reflexivity.
  - reflexivity.
  - reflexivity.
  - reflexivity.
Defined.

Section NoPayment.

Variable cfg : Config.
Variable env : Env.

Lemma noPaymentSince_refl w : noPaymentSince w w.
Proof. exists []. split; [symmetry; apply app_nil_r | reflexivity]. Qed.

Lemma noPaymentSince_trans w1 w2 w3 :
  noPaymentSince w1 w2 -> noPaymentSince w2 w3 -> noPaymentSince w1 w3.
Proof.
  unfold noPaymentSince, callsSince.
  intros (l1 & H1 & Hn1) (l2 & H2 & Hn2). exists (l1 ++ l2)%list. split.
  - rewrite H2, H1, app_assoc. reflexivity.
  - rewrite existsb_app, Hn1, Hn2. reflexivity.
Qed.

Ltac frame_noPayment :=
  frame_with noPaymentSince_refl noPaymentSince_trans
    ltac:(intros ?; unfold noPaymentSince, callsSince; simpl;
          first [ exists []; split; [symmetry; apply app_nil_r | reflexivity]
                | eexists [_]; split; reflexivity ]).

(** The six other handlers never make a payment call. *)
Lemma other_handlers_no_payment c :
  preserves noPaymentSince (handleMakeInvoiceRequest env c)
  /\ preserves noPaymentSince (handleLookupInvoiceRequest env c)
  /\ preserves noPaymentSince (handleGetExchangeRatesRequest cfg env c)
  /\ preserves noPaymentSince (handleGetAccountDetailsRequest env)
  /\ preserves noPaymentSince (handleGetBalanceRequest env)
  /\ preserves noPaymentSince (handleGetTransactionsRequest env c).
Proof.
  unfold handleMakeInvoiceRequest, handleLookupInvoiceRequest,
    handleGetExchangeRatesRequest, handleGetAccountDetailsRequest,
    handleGetBalanceRequest, handleGetTransactionsRequest, makeInvoice,
    lookupInvoice, getExchangeRates, getAccountDetails, getBalance,
    getTransactions, cache_set, cache_mutated.
  repeat split; frame_noPayment.
Qed.

Lemma dispatch_other_no_payment c :
  strictEqStr (ownProp c "method") "pay_invoice" = false ->
  preserves noPaymentSince (dispatch cfg env c).
Proof.
  intros Hnot w.
  destruct (other_handlers_no_payment c) as (H1 & H2 & H3 & H4 & H5 & H6).
  unfold dispatch, getProp.
  destruct (nullish c); [apply noPaymentSince_refl|].
  unfold mbind at 1, M_bind at 1, liftM at 1. rewrite Hnot.
  revert w.
  match goal with
  | |- forall w, noPaymentSince w (snd (?m w)) => change (preserves noPaymentSince m)
  end.
  repeat match goal with
         | |- preserves _ (if ?b then _ else _) => destruct b
         end.
  all: try (apply (preserves_bind _ noPaymentSince_trans);
            [assumption
            |intros; apply (preserves_ret _ noPaymentSince_refl)]).
  apply (preserves_ret _ noPaymentSince_refl).
Qed.

End NoPayment.

(** X5. Whatever is delivered, the two payment calls
    ([createStrikePaymentQuote], [executeStrikePaymentQuote]) are made only
    for a [pay_invoice] request that decrypts, comes from
    [NWC_CONNECTION_PUBKEY], has a derived amount and passes the quota test:
    the sum of the total and the derived amount, as the program computes it
    (rounded to a number), is at most the ceiling.  No other request, handler
    or failure path reaches them. *)
Theorem payment_calls_only_when_admitted cfg env ev w :
  exists calls,
    callsSince w (handleNwcRequest cfg env ev w) calls
    /\ (existsb isPaymentCall calls = true ->
        exists c amount,
          decryptsTo cfg env ev c
          /\ event_pubkey ev = NWC_CONNECTION_PUBKEY cfg
          /\ isRequest c "pay_invoice"
          /\ derivedAmount env c = inr amount
          /\ (Number_add (totalAmountSentInSats w) amount
              <= TOTAL_MAX_SEND_AMOUNT_IN_SATS cfg)%Q).
Proof.
  assert (Hquiet : forall l w1 (P : Prop),
    handleNwcRequest cfg env ev w = snd (respond cfg env ev l w1) ->
    strikeCalls w1 = strikeCalls w ->
    exists calls, callsSince w (handleNwcRequest cfg env ev w) calls
                  /\ (existsb isPaymentCall calls = true -> P)).
  { intros l w1 P Heq Hcalls. exists []. split; [|discriminate].
    unfold callsSince. rewrite Heq, app_nil_r, <- Hcalls.
    apply (respond_frame cfg env ev l w1). }
  pose proof (handleNwcRequest_eq cfg env ev w) as Heq.
  destruct (decrypt_or_not cfg env ev) as [[c Hd]|Hnone].
  2: { destruct (processRequest_undecryptable cfg env ev w Hnone) as (line & Hproc).
       rewrite Hproc in Heq. eapply Hquiet; [exact Heq|reflexivity]. }
  destruct (String.eqb_spec (event_pubkey ev) (NWC_CONNECTION_PUBKEY cfg)) as [Hp|Hp].
  2: { destruct (processRequest_unauthorized cfg env ev w Hp) as (c' & line & Hproc).
       rewrite Hproc in Heq. eapply Hquiet; [exact Heq|reflexivity]. }
  rewrite (processRequest_dispatch cfg env ev c w Hd Hp) in Heq.
  destruct (strictEqStr (ownProp c "method") "pay_invoice") eqn:Hpay.
  - apply strictEqStr_isRequest in Hpay.
    rewrite (dispatch_pay_invoice cfg env c w Hpay) in Heq.
    destruct (derivedAmount env c) as [err|amount] eqn:Ha.
    { rewrite (handlePayInvoiceRequest_underivable cfg env c err w Hpay Ha) in Heq.
      eapply Hquiet; [exact Heq|reflexivity]. }
    destruct (Qlt_le_dec (TOTAL_MAX_SEND_AMOUNT_IN_SATS cfg)
                (Number_add (totalAmountSentInSats w) amount)) as [Hover|Hadmit].
    { rewrite (handlePayInvoiceRequest_rejects cfg env c amount w Hpay Ha Hover) in Heq.
      eapply Hquiet; [exact Heq|reflexivity]. }
    assert (Hcalls : exists calls, callsSince w (handleNwcRequest cfg env ev w) calls).
    { rewrite (handlePayInvoiceRequest_admitted cfg env c amount w Hpay Ha Hadmit)
        in Heq.
      unfold callsSince. rewrite Heq. clear Heq.
      unfold payInvoice. unfold_M.
      destruct (createStrikePaymentQuote (strike env) (invoiceOf c)) as [err|quoteId].
      { eexists. simpl.
        match goal with
        | |- strikeCalls (snd (respond cfg env ev ?l ?w1)) = _ =>
            rewrite (proj2 (respond_frame cfg env ev l w1))
        end. reflexivity. }
      destruct (executeStrikePaymentQuote (strike env) quoteId) as [err|receipt];
        eexists; simpl;
        match goal with
        | |- strikeCalls (snd (respond cfg env ev ?l ?w1)) = _ =>
            rewrite (proj2 (respond_frame cfg env ev l w1))
        end; simpl; rewrite <- app_assoc; reflexivity. }
    destruct Hcalls as [calls Hcalls]. exists calls. split; [exact Hcalls|].
    intros _. exists c, amount. auto.
  - pose proof (dispatch_other_no_payment cfg env c Hpay w) as (calls & Hcalls & Hnone).
    exists calls. split; [|rewrite Hnone; discriminate].
    unfold callsSince in *. rewrite Heq.
    destruct (dispatch cfg env c w) as [[err|[code res]] w2]; simpl in *;
      match goal with
      | |- strikeCalls (snd (respond cfg env ev ?l ?w1)) = _ =>
          rewrite (proj2 (respond_frame cfg env ev l w1))
      end; exact Hcalls.
Qed.

(** ** The invoice cache *)

Section CachePipeline.

Variable cfg : Config.
Variable env : Env.

(** A [make_invoice] request whose two Strike calls resolve. *)
Lemma processRequest_make_invoice ev w c invoiceId state createdAt invoice expiresAt :
  decryptsTo cfg env ev c ->
  event_pubkey ev = NWC_CONNECTION_PUBKEY cfg ->
  isRequest c "make_invoice" ->
  nullish (ownProp c "params") = false ->
  let amount := ownProp (ownProp c "params") "amount" in
  let description := ownProp (ownProp c "params") "description" in
  createInvoice (strike env) amount description = inr (invoiceId, state, createdAt) ->
  createQuote (strike env) invoiceId = inr (JStr invoice, expiresAt) ->
  invoice <> "__proto__" ->
  let record := invoiceRecord (JStr invoice) description amount createdAt expiresAt
                              state invoiceId in
  processRequest cfg env ev w
  = ({| errorCode := None; result := record; nwcRequestContent := c |},
     withCached (afterCalls w [CreateInvoice amount description; CreateQuote invoiceId])
                invoice record).
Proof.
  intros Hd Hp Hm Hparams amount description Hcreate Hquote Hkey record.
  apply String.eqb_neq in Hkey.
  rewrite (processRequest_dispatch _ _ _ _ _ Hd Hp).
  rewrite (dispatch_make_invoice _ _ _ _ Hm).
  unfold handleMakeInvoiceRequest, makeInvoice, cache_set, destructure. unfold_M.
  rewrite (isRequest_params _ _ Hm), Hparams.
  fold amount description. rewrite Hcreate, Hquote.
  cbn [ToString]. rewrite Hkey.
  unfold withCached, afterCalls. simpl. rewrite <- app_assoc. reflexivity.
Qed.

(** A [lookup_invoice] request for a cached record, answered by Strike. *)
Lemma processRequest_lookup_found ev w c invoice
    description amount createdAt expiresAt state invoiceId latest :
  decryptsTo cfg env ev c ->
  event_pubkey ev = NWC_CONNECTION_PUBKEY cfg ->
  isRequest c "lookup_invoice" ->
  ownProp (ownProp c "params") "invoice" = JStr invoice ->
  cachedInvoiceResults w !! invoice
    = Some (invoiceRecord (JStr invoice) description amount createdAt expiresAt
                          state invoiceId) ->
  strike_lookupInvoice (strike env) invoiceId = inr latest ->
  let record := invoiceRecord (JStr invoice) description amount createdAt expiresAt
                              latest invoiceId in
  processRequest cfg env ev w
  = ({| errorCode := None; result := record; nwcRequestContent := c |},
     withCached (afterCalls w [LookupInvoice invoiceId]) invoice record).
Proof.
  intros Hd Hp Hm Hinvoice Hcached Hlatest record.
  assert (Hparams : nullish (ownProp c "params") = false).
  { destruct (ownProp c "params"); try reflexivity; discriminate Hinvoice. }
  rewrite (processRequest_dispatch _ _ _ _ _ Hd Hp).
  rewrite (dispatch_lookup_invoice _ _ _ _ Hm).
  unfold handleLookupInvoiceRequest, lookupInvoice, cache_mutated, cache_get,
    destructure. unfold_M.
  rewrite (isRequest_params _ _ Hm), Hparams, Hinvoice.
  cbn [ToString]. rewrite Hcached. cbn. rewrite Hlatest. cbn. rewrite Hcached.
  reflexivity.
Qed.

(** Response construction leaves the cache and the calls alone. *)
Lemma handleNwcRequest_cache ev w :
  cachedInvoiceResults (handleNwcRequest cfg env ev w)
  = cachedInvoiceResults (snd (processRequest cfg env ev w))
  /\ cachedInvoiceResults_proto (handleNwcRequest cfg env ev w)
     = cachedInvoiceResults_proto (snd (processRequest cfg env ev w))
  /\ strikeCalls (handleNwcRequest cfg env ev w)
     = strikeCalls (snd (processRequest cfg env ev w)).
Proof.
  rewrite handleNwcRequest_eq.
  destruct (respond_frame cfg env ev (fst (processRequest cfg env ev w))
              (snd (processRequest cfg env ev w))) as [(_ & Hc & Hp) Hs].
  auto.
Qed.

End CachePipeline.

(** X6. The round trip of the cache.  A [make_invoice] request whose two
    Strike calls resolve returns a record built from the parameters of the
    request and the answers of Strike; a [lookup_invoice] request for the
    invoice string of that record, handled next, asks Strike for the state
    of the invoice identifier Strike gave at creation, returns the same
    record with the state Strike reports now, and leaves it in the cache. *)
Theorem made_invoice_is_found cfg env ev w made invoiceId state createdAt invoice
    expiresAt asked ev' c latest :
  decryptsTo cfg env ev made ->
  event_pubkey ev = NWC_CONNECTION_PUBKEY cfg ->
  isRequest made "make_invoice" ->
  nullish (ownProp made "params") = false ->
  let amount := ownProp (ownProp made "params") "amount" in
  let description := ownProp (ownProp made "params") "description" in
  createInvoice (strike env) amount description = inr (invoiceId, state, createdAt) ->
  createQuote (strike env) invoiceId = inr (JStr invoice, expiresAt) ->
  invoice <> "__proto__" ->
  decryptsTo cfg asked ev' c ->
  event_pubkey ev' = NWC_CONNECTION_PUBKEY cfg ->
  isRequest c "lookup_invoice" ->
  ownProp (ownProp c "params") "invoice" = JStr invoice ->
  strike_lookupInvoice (strike asked) invoiceId = inr latest ->
  let record st := invoiceRecord (JStr invoice) description amount createdAt expiresAt
                                 st invoiceId in
  let w1 := handleNwcRequest cfg env ev w in
  let looked := processRequest cfg asked ev' w1 in
  fst (processRequest cfg env ev w)
    = {| errorCode := None; result := record state; nwcRequestContent := made |}
  /\ fst looked
     = {| errorCode := None; result := record latest; nwcRequestContent := c |}
  /\ strikeCalls (snd looked)
     = (strikeCalls w ++ [CreateInvoice amount description; CreateQuote invoiceId;
                          LookupInvoice invoiceId])%list
  /\ cachedInvoiceResults (handleNwcRequest cfg asked ev' w1) !! invoice
     = Some (record latest).
Proof.
  intros Hd Hp Hm Hparams amount description Hcreate Hquote Hkey
         Hd' Hp' Hm' Hinvoice Hlatest record w1 looked.
  pose proof (processRequest_make_invoice cfg env ev w made invoiceId state createdAt
                invoice expiresAt Hd Hp Hm Hparams Hcreate Hquote Hkey) as Hmade.
  cbv zeta in Hmade. fold amount description in Hmade.
  destruct (handleNwcRequest_cache cfg env ev w) as (Hc1 & _ & Hs1).
  fold w1 in Hc1, Hs1. rewrite Hmade in Hc1, Hs1. simpl in Hc1, Hs1.
  assert (Hcached : cachedInvoiceResults w1 !! invoice = Some (record state)).
  { rewrite Hc1. apply lookup_insert_eq. }
  pose proof (processRequest_lookup_found cfg asked ev' w1 c invoice description amount
                createdAt expiresAt state invoiceId latest Hd' Hp' Hm' Hinvoice
                Hcached Hlatest) as Hlooked.
  cbv zeta in Hlooked. fold looked in Hlooked.
  destruct (handleNwcRequest_cache cfg asked ev' w1) as (Hc2 & _).
  fold looked in Hc2.
  split; [rewrite Hmade; reflexivity|].
  split; [rewrite Hlooked; reflexivity|].
  split.
  - rewrite Hlooked. simpl. rewrite Hs1, <- app_assoc. reflexivity.
  - rewrite Hc2, Hlooked. simpl. apply lookup_insert_eq.
Qed.

(** X7. A [lookup_invoice] request for a string under which the cache
    object holds nothing ends with [NOT_FOUND], and nothing else happens:
    Strike is not asked, nothing is logged, the state is as before.  The
    cache holds nothing under a string that is not the key of a cached
    record, not the name of a field of the record made for an invoice called
    [__proto__] (when there is one, the cache inherits its fields), not
    [__proto__] itself, and not the name of a property every object
    inherits. *)
Theorem unknown_invoice_not_found cfg env ev w c invoice :
  decryptsTo cfg env ev c ->
  event_pubkey ev = NWC_CONNECTION_PUBKEY cfg ->
  isRequest c "lookup_invoice" ->
  ownProp (ownProp c "params") "invoice" = JStr invoice ->
  cachedInvoiceResults w !! invoice = None ->
  (forall props, cachedInvoiceResults_proto w = Some (JObj props) ->
                 lookupProp invoice props = None) ->
  invoice <> "__proto__" ->
  ~ In invoice objectPrototypeNames ->
  processRequest cfg env ev w
  = ({| errorCode := Some NOT_FOUND; result := JNull; nwcRequestContent := c |}, w).
Proof.
  intros Hd Hp Hm Hinvoice Hcached Hproto Hkey Hown.
  rewrite (processRequest_dispatch _ _ _ _ _ Hd Hp).
  rewrite (dispatch_lookup_invoice _ _ _ _ Hm).
  rewrite (handleLookupInvoiceRequest_not_found env c w invoice Hm Hinvoice Hcached
             Hproto Hkey Hown).
  reflexivity.
Qed.

(** X8. A [lookup_invoice] request for a cached record while Strike does
    not answer ends with [INTERNAL]: Strike was asked once, for the cached
    invoice identifier, the failure is logged, and the cache keeps the record
    with the state it had. *)
Theorem failed_lookup_keeps_state cfg env ev w c invoice
    description amount createdAt expiresAt state invoiceId err :
  decryptsTo cfg env ev c ->
  event_pubkey ev = NWC_CONNECTION_PUBKEY cfg ->
  isRequest c "lookup_invoice" ->
  ownProp (ownProp c "params") "invoice" = JStr invoice ->
  cachedInvoiceResults w !! invoice
    = Some (invoiceRecord (JStr invoice) description amount createdAt expiresAt
                          state invoiceId) ->
  strike_lookupInvoice (strike env) invoiceId = inl err ->
  processRequest cfg env ev w
  = ({| errorCode := Some INTERNAL; result := JNull; nwcRequestContent := c |},
     afterErrorLine (afterCalls w [LookupInvoice invoiceId])
                    ("Error looking up invoice: " +:+ errToString err)).
Proof.
  intros Hd Hp Hm Hinvoice Hcached Hfail.
  assert (Hparams : nullish (ownProp c "params") = false).
  { destruct (ownProp c "params"); try reflexivity; discriminate Hinvoice. }
  rewrite (processRequest_dispatch _ _ _ _ _ Hd Hp).
  rewrite (dispatch_lookup_invoice _ _ _ _ Hm).
  unfold handleLookupInvoiceRequest, lookupInvoice, cache_mutated, cache_get,
    destructure. unfold_M.
  rewrite (isRequest_params _ _ Hm), Hparams, Hinvoice.
  cbn [ToString]. rewrite Hcached. cbn. rewrite Hfail. reflexivity.
Qed.

(** X9. Lookups do not remember what Strike said: of two [lookup_invoice]
    requests for the same cached record, handled one after the other, each
    asks Strike again, and the second returns the record with the state
    Strike reports the second time, which is then the cached state. *)
Theorem second_lookup_asks_again cfg w invoice description amount createdAt expiresAt
    state invoiceId env1 ev1 c1 latest1 env2 ev2 c2 latest2 :
  cachedInvoiceResults w !! invoice
    = Some (invoiceRecord (JStr invoice) description amount createdAt expiresAt
                          state invoiceId) ->
  decryptsTo cfg env1 ev1 c1 ->
  event_pubkey ev1 = NWC_CONNECTION_PUBKEY cfg ->
  isRequest c1 "lookup_invoice" ->
  ownProp (ownProp c1 "params") "invoice" = JStr invoice ->
  strike_lookupInvoice (strike env1) invoiceId = inr latest1 ->
  decryptsTo cfg env2 ev2 c2 ->
  event_pubkey ev2 = NWC_CONNECTION_PUBKEY cfg ->
  isRequest c2 "lookup_invoice" ->
  ownProp (ownProp c2 "params") "invoice" = JStr invoice ->
  strike_lookupInvoice (strike env2) invoiceId = inr latest2 ->
  let record st := invoiceRecord (JStr invoice) description amount createdAt expiresAt
                                 st invoiceId in
  let w1 := handleNwcRequest cfg env1 ev1 w in
  let second := processRequest cfg env2 ev2 w1 in
  result (fst (processRequest cfg env1 ev1 w)) = record latest1
  /\ result (fst second) = record latest2
  /\ cachedInvoiceResults (snd second) !! invoice = Some (record latest2)
  /\ strikeCalls (snd second)
     = (strikeCalls w ++ [LookupInvoice invoiceId; LookupInvoice invoiceId])%list.
Proof.
  intros Hcached Hd1 Hp1 Hm1 Hi1 Hl1 Hd2 Hp2 Hm2 Hi2 Hl2 record w1 second.
  pose proof (processRequest_lookup_found cfg env1 ev1 w c1 invoice description amount
                createdAt expiresAt state invoiceId latest1 Hd1 Hp1 Hm1 Hi1
                Hcached Hl1) as Hfirst.
  cbv zeta in Hfirst.
  destruct (handleNwcRequest_cache cfg env1 ev1 w) as (Hc1 & _ & Hs1).
  fold w1 in Hc1, Hs1. rewrite Hfirst in Hc1, Hs1. simpl in Hc1, Hs1.
  assert (Hcached1 : cachedInvoiceResults w1 !! invoice = Some (record latest1)).
  { rewrite Hc1. apply lookup_insert_eq. }
  pose proof (processRequest_lookup_found cfg env2 ev2 w1 c2 invoice description amount
                createdAt expiresAt latest1 invoiceId latest2 Hd2 Hp2 Hm2 Hi2
                Hcached1 Hl2) as Hsecond.
  cbv zeta in Hsecond. fold second in Hsecond.
  split; [rewrite Hfirst; reflexivity|].
  rewrite Hsecond. simpl. split; [reflexivity|]. split.
  - apply lookup_insert_eq.
  - rewrite Hs1, <- app_assoc. reflexivity.
Qed.

(** X10. A [make_invoice] request with parameters whose creation fails at
    Strike ends with [INTERNAL] and caches nothing; the failure is logged.
    The quote is asked only for an invoice Strike created: when
    [createInvoice] fails it is the only call made, and when [createQuote]
    fails the invoice created at Strike is in no record of the cache. *)
Theorem failed_make_invoice_caches_nothing cfg env ev w c err :
  decryptsTo cfg env ev c ->
  event_pubkey ev = NWC_CONNECTION_PUBKEY cfg ->
  isRequest c "make_invoice" ->
  nullish (ownProp c "params") = false ->
  let amount := ownProp (ownProp c "params") "amount" in
  let description := ownProp (ownProp c "params") "description" in
  fst (makeInvoice env amount description w) = inl err ->
  processRequest cfg env ev w
  = ({| errorCode := Some INTERNAL; result := JNull; nwcRequestContent := c |},
     afterErrorLine
       (afterCalls w
          match createInvoice (strike env) amount description with
          | inl _ => [CreateInvoice amount description]
          | inr (invoiceId, _, _) =>
              [CreateInvoice amount description; CreateQuote invoiceId]
          end)
       ("Error making invoice: " +:+ errToString err)).
Proof.
  intros Hd Hp Hm Hparams amount description Hfail.
  rewrite (processRequest_dispatch _ _ _ _ _ Hd Hp).
  rewrite (dispatch_make_invoice _ _ _ _ Hm).
  revert Hfail.
  unfold handleMakeInvoiceRequest, makeInvoice, cache_set, destructure. unfold_M.
  rewrite (isRequest_params _ _ Hm), Hparams. fold amount description.
  destruct (createInvoice (strike env) amount description)
    as [e|[[invoiceId state] createdAt]].
  { simpl. intros [= <-]. reflexivity. }
  destruct (createQuote (strike env) invoiceId) as [e|[invoice expiresAt]];
    simpl; [|discriminate].
  intros [= <-]. unfold afterErrorLine, afterCalls. simpl.
  rewrite <- app_assoc. reflexivity.
Qed.

(** On the sample deployment: the invoice is made unpaid and found paid. *)
Lemma made_invoice_is_found_witness :
  fst (processRequest Sample.cfg (MoreSamples.lookup "lnbc-made" Sample.strikeUp)
                      Sample.event MoreSamples.madeCoffee)
  = {| errorCode := None; result := MoreSamples.coffeeRecord "PAID";
       nwcRequestContent := MoreSamples.lookupRequest "lnbc-made" |}.
Proof.
  unfold MoreSamples.madeCoffee.
  apply (made_invoice_is_found Sample.cfg (MoreSamples.makeCoffee Sample.strikeUp)
           Sample.event initialWorld MoreSamples.makeCoffeeRequest
           (JStr "invoice-1") (JStr "UNPAID") (JNum 1700000000) "lnbc-made"
           (JNum 1700003600) (MoreSamples.lookup "lnbc-made" Sample.strikeUp)
           Sample.event (MoreSamples.lookupRequest "lnbc-made") (JStr "PAID")).
  - exists "ciphertext". split; reflexivity.
  - reflexivity.
  - reflexivity.
  - reflexivity.
  - reflexivity.
  - reflexivity.
  - discriminate.
  - exists "ciphertext". split; reflexivity.
  - reflexivity.
  - reflexivity.
  - reflexivity.
  - reflexivity.
Defined.

(** On the sample deployment, once the cache inherits from the record of
    an invoice that Strike named [__proto__]. *)
Lemma unknown_invoice_not_found_witness :
  cachedInvoiceResults_proto MoreSamples.inheritingCoffee
  = Some (invoiceRecord (JStr "__proto__") (JStr "coffee") (JNum 1000) (JNum 1700000000)
                        (JNum 1700003600) (JStr "UNPAID") (JStr "invoice-1"))
  /\ processRequest Sample.cfg (MoreSamples.lookup "unknown-string" Sample.strikeUp)
                    Sample.event MoreSamples.inheritingCoffee
     = ({| errorCode := Some NOT_FOUND; result := JNull;
           nwcRequestContent := MoreSamples.lookupRequest "unknown-string" |},
        MoreSamples.inheritingCoffee).
Proof.
  split; [vm_compute; reflexivity|].
  apply (unknown_invoice_not_found Sample.cfg
           (MoreSamples.lookup "unknown-string" Sample.strikeUp) Sample.event
           MoreSamples.inheritingCoffee (MoreSamples.lookupRequest "unknown-string")
           "unknown-string").
  - exists "ciphertext". split; reflexivity.
  - reflexivity.
  - reflexivity.
  - reflexivity.
  - vm_compute. reflexivity.
  - intros props Hproto. vm_compute in Hproto. injection Hproto as <-. reflexivity.
  - discriminate.
  - unfold objectPrototypeNames. simpl. intros H.
    repeat (destruct H as [H|H]; [discriminate H|]). exact H.
Defined.

(** On the sample deployment: the invoice is made, then Strike is down. *)
Lemma failed_lookup_keeps_state_witness :
  cachedInvoiceResults
    (snd (processRequest Sample.cfg (MoreSamples.lookup "lnbc-made" Sample.strikeDown)
                         Sample.event MoreSamples.madeCoffee))
    !! "lnbc-made"
  = Some (MoreSamples.coffeeRecord "UNPAID").
Proof.
  rewrite (failed_lookup_keeps_state Sample.cfg
             (MoreSamples.lookup "lnbc-made" Sample.strikeDown) Sample.event
             MoreSamples.madeCoffee (MoreSamples.lookupRequest "lnbc-made") "lnbc-made"
             (JStr "coffee") (JNum 1000) (JNum 1700000000) (JNum 1700003600)
             (JStr "UNPAID") (JStr "invoice-1")
             (ErrorOfClass "AxiosError" "Request failed with status code 400")).
  - vm_compute. reflexivity.
  - exists "ciphertext". split; reflexivity.
  - reflexivity.
  - reflexivity.
  - reflexivity.
  - vm_compute. reflexivity.
  - reflexivity.
Defined.

(** On the sample deployment: two lookups of the made invoice. *)
Lemma second_lookup_asks_again_witness :
  strikeCalls
    (snd (processRequest Sample.cfg (MoreSamples.lookup "lnbc-made" Sample.strikeUp)
            Sample.event
            (handleNwcRequest Sample.cfg (MoreSamples.lookup "lnbc-made" Sample.strikeUp)
                              Sample.event MoreSamples.madeCoffee)))
  = (strikeCalls MoreSamples.madeCoffee
     ++ [LookupInvoice (JStr "invoice-1"); LookupInvoice (JStr "invoice-1")])%list.
Proof.
  apply (second_lookup_asks_again Sample.cfg MoreSamples.madeCoffee "lnbc-made"
           (JStr "coffee") (JNum 1000) (JNum 1700000000) (JNum 1700003600)
           (JStr "UNPAID") (JStr "invoice-1")
           (MoreSamples.lookup "lnbc-made" Sample.strikeUp) Sample.event
           (MoreSamples.lookupRequest "lnbc-made") (JStr "PAID")
           (MoreSamples.lookup "lnbc-made" Sample.strikeUp) Sample.event
           (MoreSamples.lookupRequest "lnbc-made") (JStr "PAID")).
  - vm_compute. reflexivity.
  - exists "ciphertext". split; reflexivity.
  - reflexivity.
  - reflexivity.
  - reflexivity.
  - reflexivity.
  - exists "ciphertext". split; reflexivity.
  - reflexivity.
  - reflexivity.
  - reflexivity.
  - reflexivity.
Defined.

(** On the sample deployment, while Strike is down. *)
Lemma failed_make_invoice_caches_nothing_witness :
  cachedInvoiceResults
    (snd (processRequest Sample.cfg (MoreSamples.makeCoffee Sample.strikeDown)
                         Sample.event initialWorld))
  = cachedInvoiceResults initialWorld.
Proof.
  rewrite (failed_make_invoice_caches_nothing Sample.cfg
             (MoreSamples.makeCoffee Sample.strikeDown) Sample.event initialWorld
             MoreSamples.makeCoffeeRequest
             (ErrorOfClass "AxiosError" "Request failed with status code 400")).
  - reflexivity.
  - exists "ciphertext". split; reflexivity.
  - reflexivity.
  - reflexivity.
  - reflexivity.
  - reflexivity.
Defined.

Section CacheGrowth.

Variable cfg : Config.
Variable env : Env.

Lemma cacheGrows_refl w : cacheGrows w w.
Proof. intros key H. exact H. Qed.

Lemma cacheGrows_trans w1 w2 w3 : cacheGrows w1 w2 -> cacheGrows w2 w3 -> cacheGrows w1 w3.
Proof. intros H1 H2 key H. apply H2, H1, H. Qed.

Lemma cache_set_grows key x : preserves cacheGrows (cache_set key x).
Proof.
  intros w k Hk. unfold cache_set. unfold_M.
  destruct (String.eqb key "__proto__"); [destruct x; exact Hk|].
  simpl. apply lookup_insert_is_Some'. right. exact Hk.
Qed.

Lemma cache_mutated_grows key x : preserves cacheGrows (cache_mutated key x).
Proof.
  intros w k Hk. unfold cache_mutated. unfold_M.
  destruct (cachedInvoiceResults w !! key).
  { simpl. apply lookup_insert_is_Some'. right. exact Hk. }
  destruct (cachedInvoiceResults_proto w) as [[]|]; try exact Hk.
  destruct (String.eqb key "__proto__"); [exact Hk|].
  destruct (lookupProp key props); exact Hk.
Qed.

Ltac frame_cache :=
  repeat first
    [ apply cache_set_grows
    | apply cache_mutated_grows
    | apply (preserves_bind _ cacheGrows_trans); [|intros]
    | apply (preserves_try_catch _ cacheGrows_trans); [|intros]
    | apply (preserves_ret _ cacheGrows_refl)
    | apply (preserves_throw _ cacheGrows_refl)
    | apply (preserves_liftM _ cacheGrows_refl)
    | apply (preserves_getWorld _ cacheGrows_refl)
    | match goal with
      | |- preserves _ (let '(_, _) := ?x in _) => destruct x
      | |- preserves _ (if ?b then _ else _) => destruct b
      | |- preserves _ (match ?x with _ => _ end) => destruct x
      end
    | (intros ? ? ?; assumption) ].

Lemma dispatch_cache_grows c : preserves cacheGrows (dispatch cfg env c).
Proof.
  unfold dispatch, handlePayInvoiceRequest, handleMakeInvoiceRequest,
    handleLookupInvoiceRequest, handleGetExchangeRatesRequest,
    handleGetAccountDetailsRequest, handleGetBalanceRequest,
    handleGetTransactionsRequest, payInvoice, makeInvoice, lookupInvoice,
    getExchangeRates, getAccountDetails, getBalance, getTransactions.
  frame_cache.
Qed.

Lemma processRequest_cache_grows ev w :
  cacheGrows w (snd (processRequest cfg env ev w)).
Proof.
  unfold processRequest.
  assert (Hd : preserves cacheGrows
                 (decryptNwcRequestContent cfg env (event_content ev))).
  { unfold decryptNwcRequestContent. frame_cache. }
  specialize (Hd w).
  destruct (decryptNwcRequestContent cfg env (event_content ev) w) as [[err|c] w1];
    simpl in *; [exact Hd|].
  match goal with
  | |- context [let '(_, _) := ?m w1 in _] =>
      assert (Hg : preserves cacheGrows m)
  end.
  { apply (preserves_bind _ cacheGrows_trans);
      [frame_cache | intros; apply dispatch_cache_grows]. }
  specialize (Hg w1).
  match goal with
  | |- context [let '(_, _) := ?m w1 in _] => destruct (m w1) as [[err|[code res]] w2]
  end; simpl in *; eapply cacheGrows_trans; eassumption.
Qed.

End CacheGrowth.

(** X11. No request removes anything from the cache: a string that has a
    cached record before a request is handled has one afterwards, whatever
    the request and whatever its outcome. *)
Theorem cache_never_forgets cfg env ev w key :
  is_Some (cachedInvoiceResults w !! key) ->
  is_Some (cachedInvoiceResults (handleNwcRequest cfg env ev w) !! key).
Proof.
  intros Hkey.
  destruct (handleNwcRequest_cache cfg env ev w) as (-> & _).
  apply (processRequest_cache_grows cfg env ev w key Hkey).
Qed.

(** On the sample deployment: the made invoice survives a lookup failing at
    Strike. *)
Lemma cache_never_forgets_witness :
  is_Some (cachedInvoiceResults
             (handleNwcRequest Sample.cfg
                (MoreSamples.lookup "lnbc-made" Sample.strikeDown) Sample.event
                MoreSamples.madeCoffee)
           !! "lnbc-made").
Proof.
  apply cache_never_forgets. vm_compute. eexists. reflexivity.
Defined.

(** ** The query handlers *)

Section Queries.

Variable cfg : Config.
Variable env : Env.

Lemma dispatch_get_exchange_rates c w :
  isRequest c "get_exchange_rates" ->
  dispatch cfg env c w =
    match handleGetExchangeRatesRequest cfg env c w with
    | (inl err, w') => (inl err, w')
    | (inr res, w') => (inr (None, res), w')
    end.
Proof.
  intros Hm. unfold dispatch. unfold_M.
  rewrite (isRequest_getProp _ _ Hm). reflexivity.
Qed.

Lemma dispatch_get_account_details c w :
  isRequest c "get_account_details" ->
  dispatch cfg env c w =
    match handleGetAccountDetailsRequest env w with
    | (inl err, w') => (inl err, w')
    | (inr res, w') => (inr (None, res), w')
    end.
Proof.
  intros Hm. unfold dispatch. unfold_M.
  rewrite (isRequest_getProp _ _ Hm). reflexivity.
Qed.

Lemma dispatch_get_balance c w :
  isRequest c "get_balance" ->
  dispatch cfg env c w =
    match handleGetBalanceRequest env w with
    | (inl err, w') => (inl err, w')
    | (inr res, w') => (inr (None, res), w')
    end.
Proof.
  intros Hm. unfold dispatch. unfold_M.
  rewrite (isRequest_getProp _ _ Hm). reflexivity.
Qed.

Lemma truthy_defined v : truthy v = true -> v <> JUndefined.
Proof. intros H ->. discriminate H. Qed.

Lemma js_or_defined v d : d <> JUndefined -> js_or v d <> JUndefined.
Proof.
  intros Hd. unfold js_or. destruct (truthy v) eqn:Hv; [|exact Hd].
  apply truthy_defined. exact Hv.
Qed.

End Queries.

(** X12. An authenticated [get_exchange_rates] request.  With a truthy
    [params.currency] that converts to a string, Strike is asked once for
    the rates of that currency; its answer is the result, its failure is
    logged and reported as [INTERNAL].  With a truthy one that does not
    convert (an object with a [toString] property), the handler fails on the
    line it writes for the log: the request ends with [INTERNAL] and Strike
    is never asked.  Without one (absent, [null], empty), the default the
    handler names, [STRIKE_SOURCE_CURRENCY], is not among the constants the
    module imports: the request ends with [INTERNAL] and Strike is never
    asked. *)
Theorem exchange_rates_need_a_currency cfg env ev w c :
  decryptsTo cfg env ev c ->
  event_pubkey ev = NWC_CONNECTION_PUBKEY cfg ->
  isRequest c "get_exchange_rates" ->
  let currency := getPropOpt (ownProp c "params") "currency" in
  (truthy currency = true ->
   convertible env currency ->
     processRequest cfg env ev w
     = match strike_getExchangeRates (strike env) currency with
       | inr rates =>
           ({| errorCode := None; result := rates; nwcRequestContent := c |},
            afterCalls w [GetExchangeRates currency])
       | inl err =>
           ({| errorCode := Some INTERNAL; result := JNull; nwcRequestContent := c |},
            afterErrorLine (afterCalls w [GetExchangeRates currency])
                           ("Error getting exchange rates: " +:+ errToString err))
       end)
  /\ (truthy currency = true ->
      forall err, ToString env currency = inl err ->
      processRequest cfg env ev w
      = ({| errorCode := Some INTERNAL; result := JNull; nwcRequestContent := c |},
         afterErrorLine w ("Error getting exchange rates: " +:+ errToString err)))
  /\ (truthy currency = false ->
      processRequest cfg env ev w
      = ({| errorCode := Some INTERNAL; result := JNull; nwcRequestContent := c |},
         afterErrorLine w
           "Error getting exchange rates: ReferenceError: STRIKE_SOURCE_CURRENCY is not defined")).
Proof.
  intros Hd Hp Hm currency.
  rewrite (processRequest_dispatch _ _ _ _ _ Hd Hp).
  rewrite (dispatch_get_exchange_rates _ _ _ _ Hm).
  unfold handleGetExchangeRatesRequest, getExchangeRates. unfold_M.
  rewrite (isRequest_params _ _ Hm). fold currency.
  split; [|split].
  - intros Ht [name Hname]. rewrite Ht, Hname.
    assert (Hdef : match currency with
                   | JUndefined => STRIKE_SOURCE_CURRENCY cfg
                   | _ => currency
                   end = currency).
    { destruct currency; try reflexivity. discriminate Ht. }
    rewrite Hdef.
    destruct (strike_getExchangeRates (strike env) currency); reflexivity.
  - intros Ht err Herr. rewrite Ht, Herr. reflexivity.
  - intros Ht. rewrite Ht. reflexivity.
Qed.

(** X13. The [get_balance] and [get_account_details] requests take no
    parameter: whatever [params] is, absent included, an authenticated
    request asks Strike exactly once; the answer is the result, a failure
    is logged and reported as [INTERNAL]. *)
Theorem account_queries_ignore_params cfg env ev w c :
  decryptsTo cfg env ev c ->
  event_pubkey ev = NWC_CONNECTION_PUBKEY cfg ->
  (isRequest c "get_balance" ->
     processRequest cfg env ev w
     = match strike_getBalance (strike env) with
       | inr balance =>
           ({| errorCode := None; result := balance; nwcRequestContent := c |},
            afterCalls w [GetBalance])
       | inl err =>
           ({| errorCode := Some INTERNAL; result := JNull; nwcRequestContent := c |},
            afterErrorLine (afterCalls w [GetBalance])
                           ("Error getting balance: " +:+ errToString err))
       end)
  /\ (isRequest c "get_account_details" ->
      processRequest cfg env ev w
      = match strike_getAccountDetails (strike env) with
        | inr details =>
            ({| errorCode := None; result := details; nwcRequestContent := c |},
             afterCalls w [GetAccountDetails])
        | inl err =>
            ({| errorCode := Some INTERNAL; result := JNull; nwcRequestContent := c |},
             afterErrorLine (afterCalls w [GetAccountDetails])
                            ("Error getting account details: " +:+ errToString err))
        end).
Proof.
  intros Hd Hp. rewrite (processRequest_dispatch _ _ _ _ _ Hd Hp).
  split; intros Hm.
  - rewrite (dispatch_get_balance _ _ _ _ Hm).
    unfold handleGetBalanceRequest, getBalance. unfold_M.
    destruct (strike_getBalance (strike env)); reflexivity.
  - rewrite (dispatch_get_account_details _ _ _ _ Hm).
    unfold handleGetAccountDetailsRequest, getAccountDetails. unfold_M.
    destruct (strike_getAccountDetails (strike env)); reflexivity.
Qed.

(** X14. What [get_transactions] validates and what it passes on.  The
    limit and the offset, after their defaults, are validated by their
    numeric value: the request is accepted exactly when the limit converts
    to a number within [1, 100] and the offset to a number that is not
    negative.  An accepted request passes both to Strike as they were sent,
    not as numbers; a failure of Strike is reported as [INTERNAL], unless
    its message is [INVALID_PARAMS], which is passed on as it is.  When the
    limit does not convert, or the limit is a number and the offset does
    not convert (an object with a [toString] property), the failure is
    logged and the outcome is [INTERNAL].  In every other case the outcome
    is [INVALID_PARAMS] and nothing happens.  Strike is asked only for an
    accepted request. *)
Theorem transactions_validated_by_number cfg env ev w c :
  decryptsTo cfg env ev c ->
  event_pubkey ev = NWC_CONNECTION_PUBKEY cfg ->
  isRequest c "get_transactions" ->
  let limit := js_or (limitOf c) (JNum 10) in
  let offset := js_or (offsetOf c) (JNum 0) in
  let valid :=
    exists l o, ToNumber env limit = inr (Some l) /\ ToNumber env offset = inr (Some o)
                /\ (1 <= l)%Q /\ (l <= 100)%Q /\ (0 <= o)%Q in
  let unconvertible err :=
    ToNumber env limit = inl err
    \/ (exists l, ToNumber env limit = inr (Some l)) /\ ToNumber env offset = inl err in
  (valid ->
     processRequest cfg env ev w
     = match strike_getTransactions (strike env) limit offset with
       | inr transactions =>
           ({| errorCode := None; result := transactions; nwcRequestContent := c |},
            afterCalls w [GetTransactions limit offset])
       | inl err =>
           if String.eqb (message err) INVALID_PARAMS
           then ({| errorCode := Some INVALID_PARAMS; result := JNull;
                    nwcRequestContent := c |},
                 afterCalls w [GetTransactions limit offset])
           else ({| errorCode := Some INTERNAL; result := JNull;
                    nwcRequestContent := c |},
                 afterErrorLine (afterCalls w [GetTransactions limit offset])
                                ("Error getting transactions: " +:+ errToString err))
       end)
  /\ (forall err, unconvertible err ->
      processRequest cfg env ev w
      = ({| errorCode := Some INTERNAL; result := JNull; nwcRequestContent := c |},
         afterErrorLine w ("Error getting transactions: " +:+ errToString err)))
  /\ (~ valid -> (forall err, ~ unconvertible err) ->
      processRequest cfg env ev w
      = ({| errorCode := Some INVALID_PARAMS; result := JNull;
            nwcRequestContent := c |}, w)).
Proof.
  intros Hd Hp Hm limit offset valid unconvertible.
  rewrite (processRequest_dispatch _ _ _ _ _ Hd Hp).
  rewrite (dispatch_get_transactions _ _ _ _ Hm).
  unfold handleGetTransactionsRequest, getTransactions. unfold_M.
  rewrite (isRequest_params _ _ Hm). fold (limitOf c) (offsetOf c). fold limit offset.
  assert (Hl : match limit with JUndefined => JNum 10 | _ => limit end = limit).
  { pose proof (js_or_defined (limitOf c) (JNum 10)) as H. fold limit in H.
    destruct limit; try reflexivity. destruct H; [discriminate|reflexivity]. }
  assert (Ho : match offset with JUndefined => JNum 0 | _ => offset end = offset).
  { pose proof (js_or_defined (offsetOf c) (JNum 0)) as H. fold offset in H.
    destruct offset; try reflexivity. destruct H; [discriminate|reflexivity]. }
  rewrite Hl, Ho. clear Hl Ho.
  unfold isNaN, js_lt, js_gt, orElse. subst valid unconvertible. cbv beta.
  destruct (ToNumber env limit) as [errl|[l|]] eqn:Hlimit.
  { pose proof (ToNumber_throws env _ _ Hlimit) as ->.
    split; [intros (l & o & Hl & _); discriminate|].
    split; [|intros _ Hnone; destruct (Hnone _ (or_introl eq_refl))].
    intros err [[= <-] | [[l0 Hl0] _] ]; [reflexivity|discriminate]. }
  2: { split; [intros (l & o & Hl & _); discriminate|].
       split; [|reflexivity].
       intros err [Hl | [[l Hl] _] ]; discriminate. }
  destruct (ToNumber env offset) as [erro|[o|]] eqn:Hoffset.
  { pose proof (ToNumber_throws env _ _ Hoffset) as ->.
    split; [intros (l' & o & _ & Ho & _); discriminate|].
    split; [|intros _ Hnone; destruct (Hnone _ (or_intror (conj (ex_intro _ l eq_refl) eq_refl)))].
    intros err [Hl | [_ [= <-] ] ]; [discriminate|reflexivity]. }
  2: { split; [intros (l' & o & _ & Ho & _); discriminate|].
       split; [|reflexivity].
       intros err [Hl | [_ Ho] ]; discriminate. }
  assert (Hnothrow : forall err, ~ (inr (Some l) = inl err
                                     \/ (exists l0 : Q, @inr Thrown _ (Some l) = inr (Some l0))
                                        /\ @inr Thrown (option Q) (Some o) = inl err)).
  { intros err [H | [_ H] ]; discriminate. }
  destruct (Qle_bool 1 l) eqn:H1; cbn [negb].
  2: { split; [|split; [intros err H; destruct (Hnothrow err H)|reflexivity]].
       intros (l' & o' & [= <-] & [= <-] & Hle & _).
       apply Qle_bool_iff in Hle. congruence. }
  destruct (Qle_bool l 100) eqn:H2; cbn [negb].
  2: { split; [|split; [intros err H; destruct (Hnothrow err H)|reflexivity]].
       intros (l' & o' & [= <-] & [= <-] & _ & Hle & _).
       apply Qle_bool_iff in Hle. congruence. }
  destruct (Qle_bool 0 o) eqn:H3; cbn [negb].
  2: { split; [|split; [intros err H; destruct (Hnothrow err H)|reflexivity]].
       intros (l' & o' & [= <-] & [= <-] & _ & _ & Hle).
       apply Qle_bool_iff in Hle. congruence. }
  destruct (ToNumber_convertible env _ _ Hlimit) as [sl ->].
  destruct (ToNumber_convertible env _ _ Hoffset) as [so ->].
  split; [|split; [intros err H; destruct (Hnothrow err H)|]].
  - intros _.
    destruct (strike_getTransactions (strike env) limit offset) as [err|transactions];
      [|reflexivity].
    destruct (String.eqb (message err) INVALID_PARAMS) eqn:Hmsg; [|reflexivity].
    apply String.eqb_eq in Hmsg. simpl. rewrite Hmsg. reflexivity.
  - intros Hnot. destruct Hnot. exists l, o.
    apply Qle_bool_iff in H1, H2, H3. auto.
Qed.

(** On the sample deployment: a request without a currency. *)
Lemma exchange_rates_need_a_currency_witness :
  processRequest Sample.cfg (MoreSamples.rates []) Sample.event initialWorld
  = ({| errorCode := Some INTERNAL; result := JNull;
        nwcRequestContent := Sample.request "get_exchange_rates" [] |},
     afterErrorLine initialWorld
       "Error getting exchange rates: ReferenceError: STRIKE_SOURCE_CURRENCY is not defined").
Proof.
  apply (exchange_rates_need_a_currency Sample.cfg (MoreSamples.rates []) Sample.event
           initialWorld (Sample.request "get_exchange_rates" [])).
  - exists "ciphertext". split; reflexivity.
  - reflexivity.
  - reflexivity.
  - reflexivity.
Defined.

(** On the sample deployment: a balance request without [params]. *)
Lemma account_queries_ignore_params_witness :
  processRequest Sample.cfg (Sample.env MoreSamples.balanceRequest Sample.strikeUp)
                 Sample.event initialWorld
  = ({| errorCode := None; result := JArr [];
        nwcRequestContent := MoreSamples.balanceRequest |},
     afterCalls initialWorld [GetBalance]).
Proof.
  apply (account_queries_ignore_params Sample.cfg
           (Sample.env MoreSamples.balanceRequest Sample.strikeUp) Sample.event
           initialWorld MoreSamples.balanceRequest).
  - exists "ciphertext". split; reflexivity.
  - reflexivity.
  - reflexivity.
Defined.

(** On the sample deployment: the limit [true] counts as 1 and is passed to
    Strike as [true]. *)
Lemma transactions_validated_by_number_witness :
  strikeCalls
    (snd (processRequest Sample.cfg (TransactionSamples.asking [("limit", JBool true)])
                         Sample.event initialWorld))
  = [GetTransactions (JBool true) (JNum 0)].
Proof.
  destruct (transactions_validated_by_number Sample.cfg
              (TransactionSamples.asking [("limit", JBool true)]) Sample.event
              initialWorld
              (Sample.request "get_transactions" [("limit", JBool true)]))
    as [Hvalid _].
  - exists "ciphertext". split; reflexivity.
  - reflexivity.
  - reflexivity.
  - rewrite Hvalid; [reflexivity|].
    exists 1%Q, 0%Q. repeat split; apply Qle_bool_iff; reflexivity.
Defined.

(** ** Which failures are classified *)

Section Classified.

Variable cfg : Config.
Variable env : Env.

(** A [try] whose [catch] logs and throws [INTERNAL] throws nothing else. *)
Lemma try_catch_internal {A : Type} (body : M A) (line : Thrown -> string) w :
  classified
    (fst (try_catch body
            (fun err => logger_error (line err);; throw (Error INTERNAL)) w)).
Proof.
  unfold try_catch. unfold_M.
  destruct (body w) as [[err|a] w1]; simpl; [|exact I].
  unfold errorTaxonomy. simpl. tauto.
Qed.

Lemma handleMakeInvoiceRequest_classified c w :
  isRequest c "make_invoice" ->
  nullish (ownProp c "params") = false ->
  classified (fst (handleMakeInvoiceRequest env c w)).
Proof.
  intros Hm Hparams. unfold handleMakeInvoiceRequest, destructure.
  unfold mbind at 1, M_bind at 1, liftM at 1.
  rewrite (isRequest_params _ _ Hm).
  unfold mbind at 1, M_bind at 1, liftM at 1. rewrite Hparams.
  apply (try_catch_internal _ (fun err => "Error making invoice: " +:+ errToString err)).
Qed.

Lemma handleLookupInvoiceRequest_classified c w :
  isRequest c "lookup_invoice" ->
  nullish (ownProp c "params") = false ->
  convertible env (ownProp (ownProp c "params") "invoice") ->
  classified (fst (handleLookupInvoiceRequest env c w)).
Proof.
  intros Hm Hparams [key Hkey]. unfold handleLookupInvoiceRequest, destructure.
  unfold mbind at 1, M_bind at 1, liftM at 1.
  rewrite (isRequest_params _ _ Hm).
  unfold mbind at 1, M_bind at 1, liftM at 1. rewrite Hparams.
  unfold mbind at 1, M_bind at 1, liftM at 1. rewrite Hkey.
  unfold mbind at 1, M_bind at 1, getWorld at 1.
  destruct (negb (truthy (cache_get w key))).
  { simpl. unfold errorTaxonomy. simpl. tauto. }
  apply (try_catch_internal _
           (fun err => "Error looking up invoice: " +:+ errToString err)).
Qed.

Lemma handleGetTransactionsRequest_classified c w :
  classified (fst (handleGetTransactionsRequest env c w)).
Proof.
  unfold handleGetTransactionsRequest, try_catch.
  match goal with |- context [match ?body w with _ => _ end] =>
    destruct (body w) as [[err|a] w1] end; [|exact I].
  destruct (String.eqb (message err) INVALID_PARAMS) eqn:Hmsg.
  - apply String.eqb_eq in Hmsg. simpl. rewrite Hmsg.
    unfold errorTaxonomy. simpl. tauto.
  - simpl. unfold errorTaxonomy. simpl. tauto.
Qed.

Lemma handlePayInvoiceRequest_classified c amount w :
  isRequest c "pay_invoice" ->
  derivedAmount env c = inr amount ->
  classified (fst (handlePayInvoiceRequest cfg env c w)).
Proof.
  intros Hm Ha.
  destruct (Qlt_le_dec (TOTAL_MAX_SEND_AMOUNT_IN_SATS cfg)
              (Number_add (totalAmountSentInSats w) amount)) as [Hover|Hadmit].
  { rewrite (handlePayInvoiceRequest_rejects cfg env c amount w Hm Ha Hover).
    simpl. unfold errorTaxonomy. simpl. tauto. }
  rewrite (handlePayInvoiceRequest_admitted cfg env c amount w Hm Ha Hadmit).
  destruct (payInvoice env (invoiceOf c) w) as [[err|receipt] w1]; simpl; [|exact I].
  unfold errorTaxonomy. simpl. tauto.
Qed.

End Classified.

(** X15. Where the classification of failures holds.  An authenticated
    request that has [params], whose invoice can be priced if it asks for a
    payment, and whose invoice converts to a property key (as every string
    does) if it asks for a lookup, ends without error code or with one of
    the seven codes of the taxonomy, whatever else it carries and whatever
    Strike does or throws: no message of Strike reaches the response. *)
Theorem failures_with_params_are_classified cfg env ev w c :
  decryptsTo cfg env ev c ->
  event_pubkey ev = NWC_CONNECTION_PUBKEY cfg ->
  nullish (ownProp c "params") = false ->
  (isRequest c "pay_invoice" -> exists amount, derivedAmount env c = inr amount) ->
  (isRequest c "lookup_invoice" ->
   convertible env (ownProp (ownProp c "params") "invoice")) ->
  match errorCode (fst (processRequest cfg env ev w)) with
  | None => True
  | Some code => In code errorTaxonomy
  end.
Proof.
  intros Hd Hp Hparams Hpriced Hkey.
  assert (Hc : nullish c = false).
  { destruct c; try reflexivity; discriminate Hparams. }
  rewrite (processRequest_dispatch _ _ _ _ _ Hd Hp).
  assert (Hstep : forall (handler : M JsValue) wh,
    classified (fst (handler wh)) ->
    match errorCode
            (fst (match (result ← handler; mret (None, result)) wh with
                  | (inl err, w2) =>
                      ({| errorCode := Some (message err); result := JNull;
                          nwcRequestContent := c |}, w2)
                  | (inr (code, res), w2) =>
                      ({| errorCode := code; result := res;
                          nwcRequestContent := c |}, w2)
                  end)) with
    | None => True
    | Some code => In code errorTaxonomy
    end).
  { intros handler wh Hclass. unfold_M.
    destruct (handler wh) as [[err|res] w2]; simpl in *; [exact Hclass|exact I]. }
  unfold dispatch, getProp. rewrite Hc.
  unfold mbind at 1, M_bind at 1, liftM at 1.
  destruct (strictEqStr (ownProp c "method") "pay_invoice") eqn:H1.
  { apply strictEqStr_isRequest in H1. destruct (Hpriced H1) as [amount Ha].
    apply Hstep. apply (handlePayInvoiceRequest_classified cfg env c amount _ H1 Ha). }
  destruct (strictEqStr (ownProp c "method") "make_invoice") eqn:H2.
  { apply strictEqStr_isRequest in H2.
    apply Hstep. apply (handleMakeInvoiceRequest_classified env c _ H2 Hparams). }
  destruct (strictEqStr (ownProp c "method") "lookup_invoice") eqn:H3.
  { apply strictEqStr_isRequest in H3.
    apply Hstep.
    apply (handleLookupInvoiceRequest_classified env c _ H3 Hparams (Hkey H3)). }
  destruct (strictEqStr (ownProp c "method") "get_exchange_rates") eqn:H4.
  { apply Hstep.
    apply (try_catch_internal _
             (fun err => "Error getting exchange rates: " +:+ errToString err)). }
  destruct (strictEqStr (ownProp c "method") "get_account_details") eqn:H5.
  { apply Hstep.
    apply (try_catch_internal _
             (fun err => "Error getting account details: " +:+ errToString err)). }
  destruct (strictEqStr (ownProp c "method") "get_balance") eqn:H6.
  { apply Hstep.
    apply (try_catch_internal _
             (fun err => "Error getting balance: " +:+ errToString err)). }
  destruct (strictEqStr (ownProp c "method") "get_transactions") eqn:H7.
  { apply Hstep. apply handleGetTransactionsRequest_classified. }
  simpl. unfold errorTaxonomy. simpl. tauto.
Qed.

(** On the sample deployment: the lookup of the invoice that was made,
    while Strike is down. *)
Lemma failures_with_params_are_classified_witness :
  errorCode (fst (processRequest Sample.cfg
                    (MoreSamples.lookup "lnbc-made" Sample.strikeDown) Sample.event
                    MoreSamples.madeCoffee))
  = Some INTERNAL
  /\ match errorCode (fst (processRequest Sample.cfg
                             (MoreSamples.lookup "lnbc-made" Sample.strikeDown)
                             Sample.event MoreSamples.madeCoffee)) with
     | None => True
     | Some code => In code errorTaxonomy
     end.
Proof.
  split; [vm_compute; reflexivity|].
  apply (failures_with_params_are_classified Sample.cfg
           (MoreSamples.lookup "lnbc-made" Sample.strikeDown) Sample.event
           MoreSamples.madeCoffee (MoreSamples.lookupRequest "lnbc-made")).
  - exists "ciphertext". split; reflexivity.
  - reflexivity.
  - reflexivity.
  - intros Hm. discriminate Hm.
  - intros _. exists "lnbc-made". reflexivity.
Defined.

(** ** Requests that cannot be read *)

(** X16. A request whose payload cannot be decrypted, or decrypts to
    something that is not JSON, is answered [UNAUTHORIZED] under the result
    type ["unknown"], also when it comes from [NWC_CONNECTION_PUBKEY]; the
    failure is logged, no handler runs and Strike is not called. *)
Theorem unreadable_request_unauthorized cfg env ev w err :
  (decrypt env (NWC_CONNECTION_SECRET cfg) (NWC_SERVICE_PUBKEY cfg) (event_content ev)
     = inl err
   \/ exists plaintext,
        decrypt env (NWC_CONNECTION_SECRET cfg) (NWC_SERVICE_PUBKEY cfg)
                (event_content ev) = inr plaintext
        /\ JSON_parse env plaintext = inl err) ->
  let l := fst (processRequest cfg env ev w) in
  processRequest cfg env ev w
    = ({| errorCode := Some UNAUTHORIZED; result := JNull; nwcRequestContent := JNull |},
       afterErrorLine w ("Error decrypting NWC request: " +:+ errToString err))
  /\ responseContent cfg env (requestMethodOf (nwcRequestContent l)) (result l)
                     (errorCode l)
     = inr (JObj [("result_type", JStr "unknown");
                  ("error",
                   JObj [("code", JStr UNAUTHORIZED);
                         ("message",
                          JStr "Unable to decrypt NWC request content or unauthorized sender.")])]).
Proof.
  intros Hfail. cbv zeta.
  assert (Hproc : processRequest cfg env ev w
    = ({| errorCode := Some UNAUTHORIZED; result := JNull; nwcRequestContent := JNull |},
       afterErrorLine w ("Error decrypting NWC request: " +:+ errToString err))).
  { unfold processRequest, decryptNwcRequestContent. unfold_M.
    destruct Hfail as [Hd|(plaintext & Hd & Hparse)]; rewrite Hd; [reflexivity|].
    rewrite Hparse. reflexivity. }
  rewrite Hproc. split; reflexivity.
Qed.

(** On the sample deployment, with a payload that does not decrypt. *)
Lemma unreadable_request_unauthorized_witness :
  processRequest Sample.cfg MoreSamples.garbled Sample.event initialWorld
  = ({| errorCode := Some UNAUTHORIZED; result := JNull; nwcRequestContent := JNull |},
     afterErrorLine initialWorld "Error decrypting NWC request: Error: invalid base64").
Proof.
  apply (unreadable_request_unauthorized Sample.cfg MoreSamples.garbled Sample.event
           initialWorld (Error "invalid base64")).
  left. reflexivity.
Defined.

(** ** The process as a whole *)

Section Deliveries.

Variable cfg : Config.

(** What one request adds to the published events. *)
Lemma handleNwcRequest_published env ev w :
  published (handleNwcRequest cfg env ev w) = published w
  \/ exists resp,
       published (handleNwcRequest cfg env ev w) = (published w ++ [resp])%list
       /\ tags (template resp) = responseTags cfg ev.
Proof.
  pose proof (processRequest_keeps_published cfg env ev w) as Hpub.
  rewrite handleNwcRequest_eq.
  destruct (processRequest cfg env ev w) as [l w1]. simpl in *.
  destruct (respond_spec cfg env ev l w1) as [(resp & Hmake & ->) | (err & Hmake & ->)].
  - right. exists resp.
    destruct (makeNwcResponseEvent_inr _ _ _ _ _ _ _ _ _ Hmake) as (_ & _ & Htags & _).
    simpl. rewrite Hpub. auto.
  - left. simpl. exact Hpub.
Qed.

(** The request that was read is the one that is answered. *)
Lemma processRequest_content env ev w :
  let content := nwcRequestContent (fst (processRequest cfg env ev w)) in
  (forall c, decryptsTo cfg env ev c -> content = c)
  /\ ((forall c, ~ decryptsTo cfg env ev c) -> content = JNull).
Proof.
  cbv zeta. split.
  - intros c Hd. unfold processRequest.
    rewrite (decryptNwcRequestContent_ok _ _ _ _ w Hd).
    match goal with
    | |- context [let '(_, _) := ?m w in _] => destruct (m w) as [[err|[code res]] w2]
    end; reflexivity.
  - intros Hnone. destruct (processRequest_undecryptable cfg env ev w Hnone) as (line & ->).
    reflexivity.
Qed.

Lemma handleNwcRequest_published_built env ev w :
  answerable cfg env ev ->
  exists resp,
    published (handleNwcRequest cfg env ev w) = (published w ++ [resp])%list
    /\ tags (template resp) = responseTags cfg ev.
Proof.
  intros [[Henc Hsig] Hmethod].
  pose proof (processRequest_keeps_published cfg env ev w) as Hpub.
  destruct (processRequest_content env ev w) as [Hread Hunread].
  rewrite handleNwcRequest_eq.
  destruct (processRequest cfg env ev w) as [l w1]. simpl in *.
  destruct (respond_spec cfg env ev l w1) as [(resp & Hmake & ->) | (err & Hmake & _)].
  - exists resp.
    destruct (makeNwcResponseEvent_inr _ _ _ _ _ _ _ _ _ Hmake) as (_ & _ & Htags & _).
    simpl. rewrite Hpub. auto.
  - exfalso. revert Hmake. rewrite makeNwcResponseEvent_eq.
    destruct (responseContent cfg env (requestMethodOf (nwcRequestContent l))
                (result l) (errorCode l)) as [e|body] eqn:Hcontent.
    { destruct (responseContent_inl cfg env _ _ _ _ Hcontent) as [_ Hthrown].
      destruct (decrypt_or_not cfg env ev) as [[c Hd]|Hnone].
      - destruct (Hmethod c Hd) as [name Hname].
        rewrite (Hread c Hd) in Hthrown. congruence.
      - rewrite (Hunread Hnone) in Hthrown. discriminate Hthrown. }
    destruct (Henc (NWC_CONNECTION_SECRET cfg) (NWC_SERVICE_PUBKEY cfg)
                   (JSON_stringify env body)) as [ct ->].
    destruct (Hsig (responseTemplate cfg env (event_id ev) ct)
                   (NWC_CONNECTION_SECRET cfg)) as [[[pk id] sg] ->].
    discriminate.
Qed.

Lemma deliveries_published deliveries w :
  let w' := handledInTurn cfg deliveries w in
  exists news,
    published w' = (published w ++ news)%list
    /\ map (fun resp => tags (template resp)) news
       `sublist_of` map (fun d => responseTags cfg (snd d)) deliveries
    /\ (Forall (fun d => answerable cfg (fst d) (snd d)) deliveries ->
        map (fun resp => tags (template resp)) news
        = map (fun d => responseTags cfg (snd d)) deliveries).
Proof.
  unfold handledInTurn.
  revert w. induction deliveries as [|[env ev] rest IH]; intros w; cbv zeta.
  { exists []. simpl. rewrite app_nil_r. repeat split. constructor. }
  simpl. destruct (IH (handleNwcRequest cfg env ev w)) as (news & Hnews & Hsub & Hall).
  cbv zeta in Hnews. rewrite Hnews. clear Hnews.
  destruct (handleNwcRequest_published env ev w) as [Hcase|(resp & Hcase & Htags)].
  - exists news. rewrite Hcase. split; [reflexivity|]. split.
    + apply sublist_cons. exact Hsub.
    + intros Hbuilt. apply Forall_cons in Hbuilt as [Hthis _]. simpl in Hthis.
      destruct (handleNwcRequest_published_built env ev w Hthis) as (resp & Hpub & _).
      rewrite Hcase in Hpub. apply (f_equal length) in Hpub.
      rewrite length_app in Hpub. simpl in Hpub. lia.
  - exists (resp :: news). rewrite Hcase.
    split; [rewrite <- app_assoc; reflexivity|]. split.
    + simpl. rewrite Htags. apply sublist_skip. exact Hsub.
    + intros Hbuilt. apply Forall_cons in Hbuilt as [_ Hrest].
      simpl. rewrite Htags, (Hall Hrest). reflexivity.
Qed.

End Deliveries.

(** X17. When the delivered requests are handled in turn, the published
    responses follow the deliveries: their tags, taken in the order of
    publication, are a sub-sequence of the tags owed to the delivered
    events, so that every response answers a delivered event and no event
    is answered twice.  Every delivery is answered when each response can
    be built: the cipher and the signer do not throw, and the method of the
    request converts to a string. *)
Theorem responses_follow_deliveries cfg deliveries :
  let w := handledInTurn cfg deliveries initialWorld in
  map (fun resp => tags (template resp)) (published w)
  `sublist_of` map (fun d => responseTags cfg (snd d)) deliveries
  /\ (length (published w) <= length deliveries)%nat
  /\ (Forall (fun d => answerable cfg (fst d) (snd d)) deliveries ->
      map (fun resp => tags (template resp)) (published w)
      = map (fun d => responseTags cfg (snd d)) deliveries).
Proof.
  cbv zeta.
  destruct (deliveries_published cfg deliveries initialWorld)
    as (news & Hnews & Hsub & Hall).
  cbv zeta in Hnews. rewrite Hnews. simpl.
  split; [exact Hsub|]. split; [|exact Hall].
  apply sublist_length in Hsub. rewrite !length_map in Hsub. exact Hsub.
Qed.

(** On the sample deployment: the three sample deliveries are answered. *)
Lemma responses_follow_deliveries_witness :
  map (fun resp => tags (template resp))
      (published (handledInTurn Sample.cfg MoreSamples.deliveries initialWorld))
  = map (fun d => responseTags Sample.cfg (snd d)) MoreSamples.deliveries.
Proof.
  destruct (responses_follow_deliveries Sample.cfg MoreSamples.deliveries)
    as (_ & _ & Hall).
  apply Hall. unfold MoreSamples.deliveries.
  repeat (apply Forall_cons; split;
          [split; [split; intros; eexists; reflexivity|];
           intros c (p & _ & Hp); injection Hp as <-; eexists; reflexivity|]).
  apply Forall_nil. exact I.
Defined.

(** ** The example client *)

(** X18. The example client and the service fit together.  When the
    service can read what the client encrypted and serialized, and the
    client signs with the connection key, the event the client publishes is
    handled as a [get_exchange_rates] request: Strike is asked once for the
    rates of the currency given on the command line, a string, or of USD
    when none is given, and its answer is the result; the missing default
    of the handler is never reached. *)
Theorem example_request_is_served cfg client env argv2 signedEvent w :
  argv2 = JUndefined \/ (exists s, argv2 = JStr s) ->
  Example.run cfg client argv2 = inr signedEvent ->
  decrypt env (NWC_CONNECTION_SECRET cfg) (NWC_SERVICE_PUBKEY cfg)
          (content (template signedEvent))
    = inr (JSON_stringify client (Example.request argv2)) ->
  JSON_parse env (JSON_stringify client (Example.request argv2))
    = inr (Example.request argv2) ->
  response_pubkey signedEvent = NWC_CONNECTION_PUBKEY cfg ->
  let currency := Example.currency argv2 in
  kind (template signedEvent) = NWCWalletRequest
  /\ tags (template signedEvent) = [["p"; NWC_SERVICE_PUBKEY cfg]]
  /\ truthy currency = true
  /\ (argv2 = JUndefined -> currency = JStr "USD")
  /\ processRequest cfg env (Example.delivered signedEvent) w
     = match strike_getExchangeRates (strike env) currency with
       | inr rates =>
           ({| errorCode := None; result := rates;
               nwcRequestContent := Example.request argv2 |},
            afterCalls w [GetExchangeRates currency])
       | inl err =>
           ({| errorCode := Some INTERNAL; result := JNull;
               nwcRequestContent := Example.request argv2 |},
            afterErrorLine (afterCalls w [GetExchangeRates currency])
                           ("Error getting exchange rates: " +:+ errToString err))
       end.
Proof.
  intros Hargv Hrun Hdecrypt Hparse Hkey currency.
  assert (Htruthy : truthy currency = true).
  { unfold currency, Example.currency, js_or.
    destruct (truthy argv2) eqn:Ht; [exact Ht|reflexivity]. }
  assert (Hname : exists name, currency = JStr name).
  { unfold currency, Example.currency, js_or.
    destruct Hargv as [-> | [s ->] ]; [eexists; reflexivity|].
    destruct (truthy (JStr s)); eexists; reflexivity. }
  assert (Hshape : kind (template signedEvent) = NWCWalletRequest
                   /\ tags (template signedEvent) = [["p"; NWC_SERVICE_PUBKEY cfg]]).
  { revert Hrun. unfold Example.run.
    destruct (encrypt client _ _ _) as [err|ct]; [discriminate|].
    destruct (finalizeEvent client _ _) as [err|[[pk id] sg]]; [discriminate|].
    intros [= <-]. split; reflexivity. }
  destruct Hshape as [Hkind Htags].
  split; [exact Hkind|]. split; [exact Htags|]. split; [exact Htruthy|].
  split; [intros ->; reflexivity|].
  assert (Hd : decryptsTo cfg env (Example.delivered signedEvent) (Example.request argv2)).
  { exists (JSON_stringify client (Example.request argv2)). split; assumption. }
  rewrite (processRequest_dispatch cfg env _ _ w Hd Hkey).
  rewrite (dispatch_get_exchange_rates cfg env (Example.request argv2) w eq_refl).
  unfold handleGetExchangeRatesRequest, getExchangeRates. unfold_M.
  change (getProp (Example.request argv2) "params")
    with (@inr Thrown JsValue (JObj [("currency", currency)])).
  cbv beta iota.
  change (getPropOpt (JObj [("currency", currency)]) "currency") with currency.
  rewrite Htruthy. destruct Hname as [name Hname]. rewrite Hname. cbn [ToString].
  destruct (strike_getExchangeRates (strike env) (JStr name)); reflexivity.
Qed.

(** On the sample deployment, without a command-line argument. *)
Lemma example_request_is_served_witness :
  strikeCalls
    (snd (processRequest Sample.cfg
            (Sample.env (Example.request JUndefined) Sample.strikeUp)
            (Example.delivered
               {| template :=
                    {| kind := NWCWalletRequest; created_at := 1700000000;
                       content := Sample.stringify (Example.request JUndefined);
                       tags := [["p"; "service-pubkey"]] |};
                  response_pubkey := "connection-pubkey";
                  response_id := "response-id";
                  response_sig := "response-sig" |})
            initialWorld))
  = [GetExchangeRates (JStr "USD")].
Proof.
  destruct (example_request_is_served Sample.cfg
              (Sample.env (Example.request JUndefined) Sample.strikeUp)
              (Sample.env (Example.request JUndefined) Sample.strikeUp)
              JUndefined
              {| template :=
                   {| kind := NWCWalletRequest; created_at := 1700000000;
                      content := Sample.stringify (Example.request JUndefined);
                      tags := [["p"; "service-pubkey"]] |};
                 response_pubkey := "connection-pubkey";
                 response_id := "response-id";
                 response_sig := "response-sig" |}
              initialWorld) as (_ & _ & _ & _ & Hserved).
  - left. reflexivity.
  - vm_compute. reflexivity.
  - reflexivity.
  - reflexivity.
  - reflexivity.
  - rewrite Hserved. reflexivity.
Defined.

(** ** The error log *)

Section Quiet.

Variable cfg : Config.
Variable env : Env.

Lemma quiet_bind {A B : Type} (m : M A) (f : A -> M B) :
  quiet m -> (forall a, quiet (f a)) -> quiet (m ≫= f).
Proof.
  intros Hm Hf w b w'. unfold mbind, M_bind.
  destruct (m w) as [[err|a] w1] eqn:Hmw; [discriminate|].
  intros Hfa. rewrite (Hf a w1 b w' Hfa). apply (Hm w a w1 Hmw).
Qed.

Lemma quiet_try_catch {A : Type} (body : M A) (handler : Thrown -> M A) :
  quiet body -> (forall err, neverReturns (handler err)) ->
  quiet (try_catch body handler).
Proof.
  intros Hb Hh w a w'. unfold try_catch.
  destruct (body w) as [[err|a0] w1] eqn:Hbw.
  - destruct (Hh err w1) as (e & w2 & ->). discriminate.
  - intros [= <- <-]. apply (Hb w a0 w1 Hbw).
Qed.

Lemma neverReturns_quiet {A : Type} (m : M A) : neverReturns m -> quiet m.
Proof. intros Hm w a w'. destruct (Hm w) as (e & w1 & ->). discriminate. Qed.

Lemma quiet_effect {A : Type} (m : M A) :
  (forall w, errorLog (snd (m w)) = errorLog w) -> quiet m.
Proof. intros Hm w a w' Hmw. rewrite <- (Hm w), Hmw. reflexivity. Qed.

Lemma quiet_cache_set key x : quiet (cache_set key x).
Proof.
  apply quiet_effect. intros w. unfold cache_set. unfold_M.
  destruct (String.eqb key "__proto__"); [destruct x|]; reflexivity.
Qed.

Lemma quiet_cache_mutated key x : quiet (cache_mutated key x).
Proof.
  apply quiet_effect. intros w. unfold cache_mutated. unfold_M.
  destruct (cachedInvoiceResults w !! key); [reflexivity|].
  destruct (cachedInvoiceResults_proto w) as [[]|]; try reflexivity.
  destruct (String.eqb key "__proto__"); [reflexivity|].
  destruct (lookupProp key props); reflexivity.
Qed.

Ltac never_returns :=
  unfold neverReturns; intros; unfold_M;
  repeat match goal with
         | |- context [if ?b then _ else _] => destruct b
         end;
  eexists _, _; reflexivity.

Ltac quiet_steps :=
  repeat first
    [ apply quiet_cache_set
    | apply quiet_cache_mutated
    | match goal with
      | |- quiet (logger_error _ ≫= _) => apply neverReturns_quiet; never_returns
      | |- quiet (throw _) => apply neverReturns_quiet; never_returns
      end
    | apply quiet_bind; [|intros]
    | apply quiet_try_catch; [|never_returns]
    | match goal with
      | |- quiet (let '(_, _) := ?x in _) => destruct x
      | |- quiet (if ?b then _ else _) => destruct b
      | |- quiet (match ?x with _ => _ end) => destruct x
      end
    | (apply quiet_effect; intros ?; reflexivity)
    | (apply neverReturns_quiet; never_returns) ].

Lemma quiet_dispatch c : quiet (dispatch cfg env c).
Proof.
  unfold dispatch, handlePayInvoiceRequest, handleMakeInvoiceRequest,
    handleLookupInvoiceRequest, handleGetExchangeRatesRequest,
    handleGetAccountDetailsRequest, handleGetBalanceRequest,
    handleGetTransactionsRequest, payInvoice, makeInvoice, lookupInvoice,
    getExchangeRates, getAccountDetails, getBalance, getTransactions.
  quiet_steps.
Qed.

Lemma quiet_decryptNwcRequestContent content :
  quiet (decryptNwcRequestContent cfg env content).
Proof. unfold decryptNwcRequestContent. quiet_steps. Qed.

Lemma processRequest_quiet ev w :
  errorCode (fst (processRequest cfg env ev w)) = None ->
  errorLog (snd (processRequest cfg env ev w)) = errorLog w.
Proof.
  unfold processRequest.
  pose proof (quiet_decryptNwcRequestContent (event_content ev) w) as Hd.
  destruct (decryptNwcRequestContent cfg env (event_content ev) w) as [[err|c] w1];
    [discriminate|].
  specialize (Hd c w1 eq_refl).
  match goal with
  | |- context [let '(_, _) := ?m w1 in _] => assert (Hg : quiet m)
  end.
  { apply quiet_bind; [quiet_steps | intros; apply quiet_dispatch]. }
  specialize (Hg w1).
  match goal with
  | |- context [let '(_, _) := ?m w1 in _] => destruct (m w1) as [[err|[code res]] w2]
  end; simpl; [discriminate|].
  intros _. rewrite (Hg (code, res) w2 eq_refl). exact Hd.
Qed.

End Quiet.

(** X19. The error log records failures only: a request that ends without
    an error code has logged no error line while it was processed, and, when
    the cipher and the signer do not throw, none while it was answered. *)
Theorem successful_request_logs_no_error cfg env ev w :
  errorCode (fst (processRequest cfg env ev w)) = None ->
  errorLog (snd (processRequest cfg env ev w)) = errorLog w
  /\ (responsesCanBeBuilt env ->
      errorLog (handleNwcRequest cfg env ev w) = errorLog w).
Proof.
  intros Hok. pose proof (processRequest_quiet cfg env ev w Hok) as Hquiet.
  split; [exact Hquiet|].
  intros [Henc Hsig]. rewrite handleNwcRequest_eq.
  destruct (processRequest cfg env ev w) as [l w1]. simpl in *.
  destruct (respond_spec cfg env ev l w1) as [(resp & _ & ->) | (err & Hmake & _)].
  - simpl. exact Hquiet.
  - exfalso. revert Hmake. rewrite makeNwcResponseEvent_eq, Hok.
    cbn [responseContent].
    match goal with |- context [encrypt env ?k ?p ?x] =>
      destruct (Henc k p x) as [ct ->] end.
    match goal with |- context [finalizeEvent env ?t ?k] =>
      destruct (Hsig t k) as [[[pk id] sg] ->] end.
    discriminate.
Qed.

(** On the sample deployment: the 2500 sat payment. *)
Lemma successful_request_logs_no_error_witness :
  errorLog (handleNwcRequest Sample.cfg (SampleRuns.pay "lnbc25u1") Sample.event
                             initialWorld)
  = errorLog initialWorld.
Proof.
  destruct (successful_request_logs_no_error Sample.cfg (SampleRuns.pay "lnbc25u1")
              Sample.event initialWorld) as [_ Hfull].
  - reflexivity.
  - apply Hfull. split; intros; eexists; reflexivity.
Defined.

(** ** What the response says *)

Section Outcome.

Variable cfg : Config.
Variable env : Env.

Lemma dispatch_code c w code res w' :
  dispatch cfg env c w = (inr (Some code, res), w') ->
  code = NOT_IMPLEMENTED /\ res = JNull.
Proof.
  unfold dispatch. unfold_M.
  destruct (getProp c "method") as [err|method]; [discriminate|].
  repeat match goal with
         | |- context [if ?b then _ else _] => destruct b
         end;
    try match goal with
        | |- context [let '(_, _) := ?m w in _] => destruct (m w) as [[?|?] ?]
        end;
    try discriminate.
  intros [= <- <- <-]. auto.
Qed.

Lemma processRequest_code ev w code :
  errorCode (fst (processRequest cfg env ev w)) = Some code ->
  result (fst (processRequest cfg env ev w)) = JNull.
Proof.
  unfold processRequest.
  destruct (decryptNwcRequestContent cfg env (event_content ev) w) as [[err|c] w1];
    [reflexivity|].
  match goal with
  | |- context [let '(_, _) := ?g w1 in _] => set (guarded := g)
  end.
  assert (Hg : forall code' res w2,
             guarded w1 = (inr (Some code', res), w2) -> res = JNull).
  { subst guarded. unfold_M. intros code' res w2.
    destruct (negb (String.eqb (event_pubkey ev) (NWC_CONNECTION_PUBKEY cfg)));
      simpl; [discriminate|].
    intros Hdispatch. apply (dispatch_code _ _ _ _ _ Hdispatch). }
  destruct (guarded w1) as [[err|[[code'|] res]] w2];
    simpl; try reflexivity; try discriminate.
  intros _. apply (Hg code' res w2 eq_refl).
Qed.

Lemma getErrorMessage_default requestMethod code message :
  ~ In code explainedCodes ->
  getErrorMessage cfg env requestMethod code = inr message ->
  message = "Something unexpected happened.".
Proof.
  intros Hout. unfold getErrorMessage.
  repeat match goal with
         | |- context [String.eqb code ?c] =>
             destruct (String.eqb_spec code c) as [->|_];
               [exfalso; apply Hout; unfold explainedCodes; simpl; tauto|]
         end.
  intros [= <-]. reflexivity.
Qed.

(** The text of an error is built, unless it is the text of
    [NOT_IMPLEMENTED] for a method that does not convert to a string. *)
Lemma getErrorMessage_built requestMethod code :
  convertible env requestMethod \/ code <> NOT_IMPLEMENTED ->
  exists message, getErrorMessage cfg env requestMethod code = inr message.
Proof.
  intros Hcan. unfold getErrorMessage.
  destruct (String.eqb code UNAUTHORIZED); [eexists; reflexivity|].
  destruct (String.eqb_spec code NOT_IMPLEMENTED) as [->|_].
  - destruct Hcan as [[name ->] | Hne]; [eexists; reflexivity|].
    exfalso. apply Hne. reflexivity.
  - repeat match goal with
           | |- context [if ?b then _ else _] => destruct b
           end; eexists; reflexivity.
Qed.

End Outcome.

(** X20. What the client is told.  Take a request whose error code is not
    [NOT_IMPLEMENTED], or whose method converts to a string, and a cipher and
    a signer that do not throw.  Its response carries, encrypted, an object
    with the request's method as [result_type] and exactly one more field:
    the result, when the request left no error code; an [error] with the code
    and its text, when it left a code that is not the empty string, the text
    being the generic one for every code outside the six that have their
    own; and a [null] result, as for a success, when the error that ended the
    request had an empty message.  When the code is [NOT_IMPLEMENTED] and the
    method does not convert to a string, the text of the error cannot be
    built and nothing is published. *)
Theorem response_reports_outcome cfg env ev w :
  let l := fst (processRequest cfg env ev w) in
  let requestMethod := requestMethodOf (nwcRequestContent l) in
  responsesCanBeBuilt env ->
  (convertible env requestMethod \/ errorCode l <> Some NOT_IMPLEMENTED ->
   exists resp,
     published (handleNwcRequest cfg env ev w) = (published w ++ [resp])%list
     /\ match errorCode l with
        | None => sentAs cfg env resp (resultBody requestMethod (result l))
        | Some code =>
            if String.eqb code EmptyString
            then sentAs cfg env resp (resultBody requestMethod JNull)
            else exists message,
                   getErrorMessage cfg env requestMethod code = inr message
                   /\ sentAs cfg env resp (errorBody requestMethod code message)
                   /\ (~ In code explainedCodes ->
                       message = "Something unexpected happened.")
        end)
  /\ (forall err,
        ToString env requestMethod = inl err ->
        errorCode l = Some NOT_IMPLEMENTED ->
        published (handleNwcRequest cfg env ev w) = published w).
Proof.
  intros l requestMethod [Henc Hsig].
  pose proof (processRequest_keeps_published cfg env ev w) as Hpub.
  pose proof (processRequest_code cfg env ev w) as Hnull.
  rewrite handleNwcRequest_eq. subst l requestMethod.
  destruct (processRequest cfg env ev w) as [l w1]. simpl in *.
  split.
  - intros Hcan.
    destruct (respond_spec cfg env ev l w1) as [(resp & Hmake & ->) | (err & Hmake & _)].
    + exists resp.
      destruct (makeNwcResponseEvent_inr _ _ _ _ _ _ _ _ _ Hmake)
        as (_ & _ & _ & body & Hbody & Hsent).
      split; [simpl; rewrite Hpub; reflexivity|].
      unfold sentAs. revert Hbody. unfold responseContent.
      destruct (errorCode l) as [code|]; [|intros [= <-]; exact Hsent].
      rewrite (Hnull code eq_refl). simpl.
      destruct (String.eqb code EmptyString); simpl; [intros [= <-]; exact Hsent|].
      destruct (getErrorMessage cfg env (requestMethodOf (nwcRequestContent l)) code)
        as [err|message] eqn:Hmessage; [discriminate|].
      intros [= <-]. exists message. split; [reflexivity|]. split; [exact Hsent|].
      intros Hout. apply (getErrorMessage_default cfg env _ _ _ Hout Hmessage).
    + exfalso. revert Hmake. rewrite makeNwcResponseEvent_eq.
      destruct (responseContent cfg env (requestMethodOf (nwcRequestContent l))
                  (result l) (errorCode l)) as [e|body] eqn:Hbody.
      { destruct (responseContent_inl _ _ _ _ _ _ Hbody) as [Hcode Hthrown].
        destruct Hcan as [[name Hname] | Hne]; [congruence|contradiction]. }
      match goal with |- context [encrypt env ?k ?p ?x] =>
        destruct (Henc k p x) as [ct ->] end.
      match goal with |- context [finalizeEvent env ?t ?k] =>
        destruct (Hsig t k) as [[[pk id] sg] ->] end.
      discriminate.
  - intros err Hthrown Hcode.
    destruct (respond_spec cfg env ev l w1) as [(resp & Hmake & _) | (e & _ & ->)].
    + exfalso. destruct (makeNwcResponseEvent_inr _ _ _ _ _ _ _ _ _ Hmake)
        as (_ & _ & _ & body & Hbody & _).
      revert Hbody. rewrite Hcode. unfold responseContent, getErrorMessage.
      simpl. rewrite Hthrown. discriminate.
    + simpl. exact Hpub.
Qed.

(** On the sample deployment: the decoder rejects the invoice with an error
    that has no message, and the client is sent a [null] result. *)
Lemma response_reports_outcome_witness :
  exists resp,
    published (handleNwcRequest Sample.cfg (MoreSamples.decoderThrows EmptyString)
                                Sample.event initialWorld)
    = [resp]
    /\ sentAs Sample.cfg (MoreSamples.decoderThrows EmptyString) resp
              (resultBody (JStr "pay_invoice") JNull).
Proof.
  destruct (response_reports_outcome Sample.cfg (MoreSamples.decoderThrows EmptyString)
              Sample.event initialWorld) as [Hsent _].
  - split; intros; eexists; reflexivity.
  - destruct Hsent as (resp & Hpub & Hbody).
    + left. exists "pay_invoice". reflexivity.
    + exists resp. split; [exact Hpub | exact Hbody].
Defined.
